(** * ResQLink mesh: a shallow embedding of the decision engine and node loop

    The development follows the three source modules:
    - [messages.py]  : [MsgType], [Message]
    - [lml_model.py] : [softclip], [classify], [prioritize], [route],
                       [anomaly_score]
    - [mesh.py]      : [Link], [Node], [process_message], one iteration of
                       [Node.run]

    Numbers.  Python [int] is [Z].  Python [float] is modelled by exact
    rationals [Q]: every literal denotes the rational it is written as
    ([1e-3] is [0.001], [-1e9] is [-1000000000]), and [+], [-], [*], [/]
    are exact.  Rounding, infinities and NaN are outside that model.  Two
    places go further.  Where a dictionary value may be an [int] or a
    [float], [pynum] keeps the two apart and [truediv] raises the
    [OverflowError] of an [int] too large for a float.  Where the outcome
    turns on rounding, the body of [route] is also given over binary64
    ([route_score64], [route64]), with the kernel's primitive floats.

    Effects.  [time.time()] and [random.random()] are read from an
    environment: the engine's methods take the clock reading as an argument
    [now]; the node code reads the streams [time : nat -> Q] and
    [random : nat -> Q], indexed by the number of readings made so far.
    Node objects live in a store and are updated in place.  A message is
    owned by one node at a time, so it is passed by value.  Python
    exceptions are the [Raised] case of [pyresult]. *)

From Stdlib Require Import ZArith QArith Qabs Qround String Ascii List Bool Lia Lqa.
From Stdlib Require Import Morphisms.
From Stdlib Require PrimFloat.
Import ListNotations.

Set Warnings "-inexact-float".

(* ------------------------------------------------------------------ *)
(** ** Python runtime notions shared by the three modules *)

Module Py.

Inductive exn : Set :=
| ZeroDivisionError
| OverflowError
| KeyError
| IndexError.

Inductive pyresult (A : Type) : Type :=
| Returned (a : A)
| Raised (e : exn).
Arguments Returned {A} a.
Arguments Raised {A} e.

Definition bind {A B : Type} (c : pyresult A) (k : A -> pyresult B)
  : pyresult B :=
  match c with
  | Returned a => k a
  | Raised e => Raised e
  end.

(** [a < b] on floats, as a boolean. *)
Definition Qltb (a b : Q) : bool := negb (Qle_bool b a).

(** The builtins [max(a, b)] and [min(a, b)]: the first argument is kept
    unless the second is strictly better. *)
Definition py_max (a b : Q) : Q := if Qltb a b then b else a.
Definition py_min (a b : Q) : Q := if Qltb b a then b else a.

Definition py_abs (a : Q) : Q := if Qltb a 0 then - a else a.

(** [a / b]: raises [ZeroDivisionError] on a zero divisor. *)
Definition py_div (a b : Q) : pyresult Q :=
  if Qeq_bool b 0 then Raised ZeroDivisionError else Returned (a / b).

(** [int(x)] on a float: truncation toward zero. *)
Definition py_int (x : Q) : Z := Z.quot (Qnum x) (Zpos (Qden x)).

(** *** Numbers that are an [int] or a [float] *)

(** A value a dictionary holds under a numeric key. *)
Inductive pynum : Set :=
| PyInt (z : Z)
| PyFloat (x : Q).

Definition num_value (v : pynum) : Q :=
  match v with
  | PyInt z => inject_Z z
  | PyFloat x => x
  end.

(** The least magnitude that does not convert to a float: half an ulp
    above the largest binary64 value [2^1024 - 2^971], where rounding to
    nearest even reaches [2^1024]. *)
Definition float_overflow : Z := (2 ^ 1024 - 2 ^ 970)%Z.

(** The conversion of an [int] operand of a float operation:
    "OverflowError: int too large to convert to float". *)
Definition float_of_int (z : Z) : pyresult Q :=
  if (Z.abs z <? float_overflow)%Z
  then Returned (inject_Z z)
  else Raised OverflowError.

Definition to_float (v : pynum) : pyresult Q :=
  match v with
  | PyInt z => float_of_int z
  | PyFloat x => Returned x
  end.

(** [a / b].  Two ints are divided as ints: a zero divisor is tested
    first, then the quotient must fit a float ("integer division result
    too large for a float").  Otherwise both operands are converted to
    float, the left one first, and the zero divisor is tested last. *)
Definition truediv (a b : pynum) : pyresult Q :=
  match a, b with
  | PyInt p, PyInt q =>
      if (q =? 0)%Z then Raised ZeroDivisionError
      else if Qle_bool (inject_Z float_overflow)
                       (Qabs (inject_Z p / inject_Z q))
           then Raised OverflowError
           else Returned (inject_Z p / inject_Z q)
  | _, _ =>
      bind (to_float a) (fun x =>
      bind (to_float b) (fun y =>
      py_div x y))
  end.

(** [max(a, b)] on two numbers: they are compared by value, and the one
    returned keeps its type. *)
Definition num_max (a b : pynum) : pynum :=
  if Qltb (num_value a) (num_value b) then b else a.

(** A value that takes part in float arithmetic without an
    [OverflowError]: a float, or an [int] that converts. *)
Definition converts (v : pynum) : Prop :=
  match v with
  | PyInt z => (Z.abs z < float_overflow)%Z
  | PyFloat _ => True
  end.

(** [d.get(k, dflt)] on an optional entry. *)
Definition get {A : Type} (o : option A) (dflt : A) : A :=
  match o with
  | Some v => v
  | None => dflt
  end.

(** *** Strings *)

(** [str.lower()] on the letters [A]..[Z]; other characters are kept. *)
Definition lower_char (c : ascii) : ascii :=
  let n := nat_of_ascii c in
  if ((65 <=? n) && (n <=? 90))%nat then ascii_of_nat (n + 32) else c.

Fixpoint lower (s : string) : string :=
  match s with
  | EmptyString => EmptyString
  | String c s' => String (lower_char c) (lower s')
  end.

(** [w in t]: [w] occurs in [t] as a contiguous substring. *)
Fixpoint contains (w t : string) : bool :=
  prefix w t ||
  match t with
  | EmptyString => false
  | String _ t' => contains w t'
  end.

(** The characters [str.strip()] removes: tab, line feed, vertical tab,
    form feed, carriage return, the separators 28..31, space, and in
    Latin-1 the next-line and no-break-space characters. *)
Definition is_space (c : ascii) : bool :=
  let n := nat_of_ascii c in
  (((9 <=? n) && (n <=? 13)) || ((28 <=? n) && (n <=? 32))
   || (n =? 133) || (n =? 160))%nat.

Fixpoint lstrip (s : string) : string :=
  match s with
  | EmptyString => EmptyString
  | String c s' => if is_space c then lstrip s' else s
  end.

Fixpoint rev_string (s acc : string) : string :=
  match s with
  | EmptyString => acc
  | String c s' => rev_string s' (String c acc)
  end.

Definition rstrip (s : string) : string :=
  rev_string (lstrip (rev_string s EmptyString)) EmptyString.

Definition strip (s : string) : string := rstrip (lstrip s).

(** A text that is empty or made of whitespace only. *)
Fixpoint all_space (s : string) : bool :=
  match s with
  | EmptyString => true
  | String c s' => is_space c && all_space s'
  end.

(** *** Dictionaries whose order matters: insertion-ordered association
    lists with unique keys. *)

Fixpoint dict_get {V : Type} (d : list (string * V)) (k : string)
  : option V :=
  match d with
  | [] => None
  | (k', v) :: d' => if String.eqb k' k then Some v else dict_get d' k
  end.

(** [d[k] = v]: overwrite in place, or append a new key at the end. *)
Fixpoint dict_set {V : Type} (d : list (string * V)) (k : string) (v : V)
  : list (string * V) :=
  match d with
  | [] => [(k, v)]
  | (k', v') :: d' =>
      if String.eqb k' k then (k', v) :: d' else (k', v') :: dict_set d' k v
  end.

End Py.

Import Py.

Notation "x <- c ;; k" := (Py.bind c (fun x => k))
  (at level 61, c at next level, right associativity).

(* ------------------------------------------------------------------ *)
(** ** messages.py *)

Module Messages.

Inductive MsgType : Set :=
| DISTRESS
| GPS
| STATUS
| SUPPLY
| UNKNOWN.

Definition MsgType_eqb (a b : MsgType) : bool :=
  match a, b with
  | DISTRESS, DISTRESS | GPS, GPS | STATUS, STATUS
  | SUPPLY, SUPPLY | UNKNOWN, UNKNOWN => true
  | _, _ => false
  end.

(** The dataclass [Message].  [meta] is the dictionary of auxiliary
    flags; the only key the mesh uses is ["tag_distress"]. *)
Record Message : Type := mkMessage {
  src : string;
  dst : option string;
  text : string;
  gps : option (Q * Q);
  timestamp : Q;
  id : string;
  meta : list (string * bool);
  priority : Q;
  mtype : MsgType;
  hops : Z;
  path : list string
}.

Definition set_path (m : Message) (p : list string) : Message :=
  mkMessage (src m) (dst m) (text m) (gps m) (timestamp m) (id m)
            (meta m) (priority m) (mtype m) (hops m) p.

Definition set_mtype (m : Message) (t : MsgType) : Message :=
  mkMessage (src m) (dst m) (text m) (gps m) (timestamp m) (id m)
            (meta m) (priority m) t (hops m) (path m).

Definition set_meta (m : Message) (d : list (string * bool)) : Message :=
  mkMessage (src m) (dst m) (text m) (gps m) (timestamp m) (id m)
            d (priority m) (mtype m) (hops m) (path m).

Definition set_priority (m : Message) (p : Q) : Message :=
  mkMessage (src m) (dst m) (text m) (gps m) (timestamp m) (id m)
            (meta m) p (mtype m) (hops m) (path m).

Definition set_hops (m : Message) (h : Z) : Message :=
  mkMessage (src m) (dst m) (text m) (gps m) (timestamp m) (id m)
            (meta m) (priority m) (mtype m) h (path m).

End Messages.

Import Messages.

(* ------------------------------------------------------------------ *)
(** ** lml_model.py *)

Module LML.

Open Scope Q_scope.
Open Scope string_scope.

Definition DISTRESS_KEYWORDS : list string :=
  ["help"; "mayday"; "sos"; "emergency"; "trapped"; "injury"; "bleeding";
   "collapsed"; "fire"; "danger"; "earthquake"; "flood"; "hurricane";
   "wildfire"; "bomb"; "attack"].
Definition GPS_KEYWORDS : list string :=
  ["lat"; "lon"; "gps"; "coordinates"; "location"; "pos"; "grid"].
Definition SUPPLY_KEYWORDS : list string :=
  ["water"; "food"; "medicine"; "insulin"; "tent"; "blanket"; "generator";
   "fuel"].
Definition STATUS_KEYWORDS : list string :=
  ["ok"; "alive"; "safe"; "status"; "update"; "checkin"; "fine"].

Definition softclip (x lo hi : Q) : Q := py_max lo (py_min hi x).

(** The engine object: its node id and the one field its methods read
    and write; the [_recent_*] fields are set at construction and never
    used. *)
Record LMLModel : Type := mkLMLModel {
  node_id : string;
  _last_tick : Q
}.

(** *** classify *)

(** [for w in KEYWORDS: if w in text: score += 1], from a score of [0]. *)
Definition kw_count (kws : list string) (txt : string) : Z :=
  fold_left (fun n w => if contains w txt then (n + 1)%Z else n) kws 0%Z.

(** The [score] dictionary after the four keyword loops and the
    coordinate bonus: its first key and the keys after it, in insertion
    order. *)
Definition scores (msg : Message) : (MsgType * Q) * list (MsgType * Q) :=
  let txt := lower (text msg) in
  let g := inject_Z (kw_count GPS_KEYWORDS txt) in
  ( (DISTRESS, inject_Z (kw_count DISTRESS_KEYWORDS txt)),
    [ (GPS, match gps msg with Some _ => g + 2.5 | None => g end);
      (SUPPLY, inject_Z (kw_count SUPPLY_KEYWORDS txt));
      (STATUS, inject_Z (kw_count STATUS_KEYWORDS txt)) ] ).

(** [max(score, key=score.get)]: the first key, in iteration order,
    whose value no later key strictly exceeds. *)
Fixpoint max_key (best : MsgType * Q) (rest : list (MsgType * Q))
  : MsgType * Q :=
  match rest with
  | [] => best
  | kv :: rest' =>
      max_key (if Qltb (snd best) (snd kv) then kv else best) rest'
  end.

Definition classify (msg : Message) : MsgType * Q :=
  let txt := lower (text msg) in
  let (first, rest) := scores msg in
  match String.length (strip txt), gps msg with
  | O, None => (UNKNOWN, 0.2)
  | _, _ =>
      let (mt, sc) := max_key first rest in
      let conf := softclip (sc / 3.0) 0.1 0.99 in
      if MsgType_eqb mt DISTRESS && Qle_bool 2 sc
      then (mt, softclip (conf + 0.2) 0 1)
      else (mt, conf)
  end.

(** *** prioritize *)

(** The context dictionaries handed to the engine: every key is read
    with [.get(key, default)], so each may be absent. *)
Record NetCtx : Type := mkNetCtx {
  ctx_queue_len : option Q;
  ctx_in_count : option Q;
  ctx_out_count : option Q;
  ctx_fail_count : option Q;
  ctx_attempts : option Q
}.

Definition base_of (t : MsgType) : Q :=
  match t with
  | DISTRESS => 0.95
  | GPS => 0.75
  | SUPPLY => 0.6
  | STATUS => 0.4
  | UNKNOWN => 0.3
  end.

(** [now] is the value [time.time()] returns inside the call. *)
Definition prioritize (msg : Message) (net_ctx : NetCtx) (now : Q) : Q :=
  let base := base_of (mtype msg) in
  let age := now - timestamp msg in
  let recency := softclip (1.0 - age / 600.0) 0.0 1.0 in
  let qlen := get (ctx_queue_len net_ctx) 0 in
  let congestion := softclip (1.0 - qlen / 50.0) 0.2 1.0 in
  let prio := base * 0.7 + 0.25 * recency + 0.05 * congestion in
  let prio :=
    if MsgType_eqb (mtype msg) GPS
       && (get (dict_get (meta msg) "tag_distress") false
           || contains "help" (lower (text msg)))
    then py_max prio 0.85
    else prio in
  softclip prio 0.0 1.0.

(** *** route *)

(** The statistics dictionary of one candidate; [route] reads each of the
    four keys with [.get]. *)
Record Stats : Type := mkStats {
  rssi : option Q;
  loss : option Q;
  queue : option Z;
  distance_to_dst : option Q
}.

(** Statistics in the range [Link.stats_for] produces: a queue length is
    a length and a distance is a norm, so neither is negative. *)
Definition good_stats (st : Stats) : Prop :=
  (0 <= get (queue st) 0)%Z /\
  forall d, distance_to_dst st = Some d -> 0 <= d.

(** The body of the loop up to [score]. *)
Definition route_score (stats : Stats) (msg : Message) : pyresult Q :=
  let rssi := get (rssi stats) (-80) in
  let loss := get (loss stats) 0.2 in
  let q := get (queue stats) 0%Z in
  let dist := distance_to_dst stats in
  let link_quality := (rssi + 100) / 60.0 in
  let reliability := 1.0 - softclip loss 0.0 0.9 in
  queue_pen <- py_div 1.0 (1.0 + inject_Z q) ;;
  dist_term <- match dist with
               | None => Returned 0.0
               | Some d => py_div 1.0 (1.0 + d)
               end ;;
  let p := softclip (priority msg) 0 1 in
  let weight_dist := 0.4 + 0.3 * p in
  let weight_rel := 0.3 + 0.2 * p in
  let weight_ql := 0.2 in
  let weight_queue := 0.1 in
  Returned (weight_dist * dist_term +
            weight_rel * reliability +
            weight_ql * link_quality +
            weight_queue * queue_pen).

(** The [for nid, stats in next_hops.items()] loop, carrying
    [best_score] and [best_node]. *)
Fixpoint route_loop (next_hops : list (string * Stats)) (msg : Message)
         (best_score : Q) (best_node : option string)
  : pyresult (option string) :=
  match next_hops with
  | [] => Returned best_node
  | (nid, stats) :: rest =>
      score <- route_score stats msg ;;
      if Qltb best_score score
      then route_loop rest msg score (Some nid)
      else route_loop rest msg best_score best_node
  end.

Definition route (next_hops : list (string * Stats)) (net_ctx : NetCtx)
           (msg : Message) : pyresult (option string) :=
  match next_hops with
  | [] => Returned None
  | _ => route_loop next_hops msg (-1000000000) None
  end.

(** *** anomaly_score *)

(** Returns the score and the engine with [_last_tick] advanced. *)
Definition anomaly_score (self : LMLModel) (net_ctx : NetCtx) (now : Q)
  : pyresult (Q * LMLModel) :=
  let dt := py_max 0.001 (now - _last_tick self) in
  let self := mkLMLModel (node_id self) now in
  in_rate <- py_div (get (ctx_in_count net_ctx) 0) dt ;;
  out_rate <- py_div (get (ctx_out_count net_ctx) 0) dt ;;
  fail_ratio <- py_div (get (ctx_fail_count net_ctx) 0)
                       (py_max 1.0 (get (ctx_attempts net_ctx) 1)) ;;
  fail_rate <- py_div fail_ratio dt ;;
  let qlen := get (ctx_queue_len net_ctx) 0 in
  let qterm := softclip (qlen / 50.0) 0.0 1.0 in
  imbalance <- py_div (0.1 * py_abs (in_rate - out_rate))
                      (1 + in_rate + out_rate) ;;
  let score := softclip (0.6 * fail_rate + 0.3 * qterm + imbalance)
                        0.0 1.0 in
  Returned (score, self).

(** *** anomaly_score on a dictionary of ints and floats *)

(** The context dictionary with every value as Python holds it.
    [Node.run] passes [self._out_stats], five ints. *)
Record NumCtx : Type := mkNumCtx {
  num_queue_len : option pynum;
  num_in_count : option pynum;
  num_out_count : option pynum;
  num_fail_count : option pynum;
  num_attempts : option pynum
}.

(** The values of a [NumCtx], as [anomaly_score] above takes them. *)
Definition ctx_values (c : NumCtx) : NetCtx :=
  mkNetCtx (option_map num_value (num_queue_len c))
           (option_map num_value (num_in_count c))
           (option_map num_value (num_out_count c))
           (option_map num_value (num_fail_count c))
           (option_map num_value (num_attempts c)).

(** Every entry that [anomaly_score] reads, or its default, converts. *)
Definition ctx_converts (c : NumCtx) : Prop :=
  converts (get (num_queue_len c) (PyInt 0)) /\
  converts (get (num_in_count c) (PyInt 0)) /\
  converts (get (num_out_count c) (PyInt 0)) /\
  converts (get (num_fail_count c) (PyInt 0)) /\
  converts (get (num_attempts c) (PyInt 1)).

(** The same body, with the conversions that each [/] makes of an int
    operand.  [dt] and [50.0] are floats; [max(1.0, attempts)] is the
    float [1.0] or the entry itself. *)
Definition anomaly_score_num (self : LMLModel) (net_ctx : NumCtx) (now : Q)
  : pyresult (Q * LMLModel) :=
  let dt := py_max 0.001 (now - _last_tick self) in
  let self := mkLMLModel (node_id self) now in
  in_rate <- truediv (get (num_in_count net_ctx) (PyInt 0)) (PyFloat dt) ;;
  out_rate <- truediv (get (num_out_count net_ctx) (PyInt 0)) (PyFloat dt) ;;
  fail_ratio <- truediv (get (num_fail_count net_ctx) (PyInt 0))
                        (num_max (PyFloat 1.0)
                                 (get (num_attempts net_ctx) (PyInt 1))) ;;
  fail_rate <- py_div fail_ratio dt ;;
  let qlen := get (num_queue_len net_ctx) (PyInt 0) in
  qratio <- truediv qlen (PyFloat 50.0) ;;
  let qterm := softclip qratio 0.0 1.0 in
  imbalance <- py_div (0.1 * py_abs (in_rate - out_rate))
                      (1 + in_rate + out_rate) ;;
  let score := softclip (0.6 * fail_rate + 0.3 * qterm + imbalance)
                        0.0 1.0 in
  Returned (score, self).

(** *** route over binary64 *)

(** The body of [route] with every operation rounded as the interpreter
    rounds it.  The statistics are floats (a queue length is taken
    converted, which is exact below 2^53), and of the message the function
    takes the one field it reads, [priority]. *)
Module B64.

Import PrimFloat.

Record Stats64 : Type := mkStats64 {
  rssi64 : option float;
  loss64 : option float;
  queue64 : option float;
  distance64 : option float
}.

Definition max64 (a b : float) : float := if (a <? b)%float then b else a.
Definition min64 (a b : float) : float := if (b <? a)%float then b else a.

Definition softclip64 (x lo hi : float) : float := max64 lo (min64 hi x).

Definition div64 (a b : float) : pyresult float :=
  if (b =? 0)%float then Raised ZeroDivisionError else Returned (a / b)%float.

Definition route_score64 (stats : Stats64) (priority : float)
  : pyresult float :=
  let rssi := get (rssi64 stats) (-80)%float in
  let loss := get (loss64 stats) 0.2%float in
  let q := get (queue64 stats) 0%float in
  let dist := distance64 stats in
  let link_quality := ((rssi + 100) / 60.0)%float in
  let reliability := (1.0 - softclip64 loss 0.0 0.9)%float in
  queue_pen <- div64 1.0 (1.0 + q) ;;
  dist_term <- match dist with
               | None => Returned 0.0%float
               | Some d => div64 1.0 (1.0 + d)
               end ;;
  let p := softclip64 priority 0 1 in
  let weight_dist := (0.4 + 0.3 * p)%float in
  let weight_rel := (0.3 + 0.2 * p)%float in
  let weight_ql := 0.2%float in
  let weight_queue := 0.1%float in
  Returned (weight_dist * dist_term +
            weight_rel * reliability +
            weight_ql * link_quality +
            weight_queue * queue_pen)%float.

Fixpoint route_loop64 (next_hops : list (string * Stats64))
         (priority : float) (best_score : float)
         (best_node : option string) : pyresult (option string) :=
  match next_hops with
  | [] => Returned best_node
  | (nid, stats) :: rest =>
      score <- route_score64 stats priority ;;
      if (best_score <? score)%float
      then route_loop64 rest priority score (Some nid)
      else route_loop64 rest priority best_score best_node
  end.

Definition route64 (next_hops : list (string * Stats64)) (priority : float)
  : pyresult (option string) :=
  match next_hops with
  | [] => Returned None
  | _ => route_loop64 next_hops priority (-1e9)%float None
  end.

End B64.

End LML.

Import LML.

(* ------------------------------------------------------------------ *)
(** ** mesh.py *)

Module Mesh.

Open Scope Q_scope.
Open Scope string_scope.

(** A [Link] refers to its two end nodes; a node object is named by its
    key in the store of nodes, see [World].  The constant [queue_delay] is
    never read and is left out. *)
Record Link : Type := mkLink {
  a : string;
  b : string;
  base_loss : Q
}.

(** The dictionary [_out_stats]: five integer entries. *)
Record OutStats : Type := mkOutStats {
  in_count : Z;
  out_count : Z;
  fail_count : Z;
  attempts : Z;
  queue_len : Z
}.

Record Node : Type := mkNode {
  id : string;
  x : Q;
  y : Q;
  links : list (string * Link);
  model : LMLModel;
  _in_queue : list Message;
  _out_stats : OutStats;
  _delivered : list Message;
  _running : bool
}.

(** The node objects of a simulation.  Every reference held by a link
    resolves, so the store is a total map; [upd] overwrites one object. *)
Definition World : Type := string -> Node.

Definition upd (w : World) (k : string) (n : Node) : World :=
  fun k' => if String.eqb k k' then n else w k'.

(** Counters of the two input streams read so far. *)
Record Env : Type := mkEnv {
  clock_reads : nat;
  random_draws : nat
}.

Definition set_in_queue (n : Node) (q : list Message) : Node :=
  mkNode (id n) (x n) (y n) (links n) (model n) q (_out_stats n)
         (_delivered n) (_running n).

Definition set_out_stats (n : Node) (s : OutStats) : Node :=
  mkNode (id n) (x n) (y n) (links n) (model n) (_in_queue n) s
         (_delivered n) (_running n).

Definition set_delivered (n : Node) (d : list Message) : Node :=
  mkNode (id n) (x n) (y n) (links n) (model n) (_in_queue n) (_out_stats n)
         d (_running n).

Definition set_model (n : Node) (m : LMLModel) : Node :=
  mkNode (id n) (x n) (y n) (links n) m (_in_queue n) (_out_stats n)
         (_delivered n) (_running n).

Definition incr_in_count (s : OutStats) : OutStats :=
  mkOutStats (in_count s + 1) (out_count s) (fail_count s) (attempts s)
             (queue_len s).

Definition incr_out_count (s : OutStats) : OutStats :=
  mkOutStats (in_count s) (out_count s + 1) (fail_count s) (attempts s)
             (queue_len s).

Definition incr_fail_count (s : OutStats) : OutStats :=
  mkOutStats (in_count s) (out_count s) (fail_count s + 1) (attempts s)
             (queue_len s).

Definition incr_attempts (s : OutStats) : OutStats :=
  mkOutStats (in_count s) (out_count s) (fail_count s) (attempts s + 1)
             (queue_len s).

Definition set_queue_len (s : OutStats) (n : Z) : OutStats :=
  mkOutStats (in_count s) (out_count s) (fail_count s) (attempts s) n.

(** [{'queue_len': len(self._in_queue)}] *)
Definition queue_ctx (self : Node) : NetCtx :=
  mkNetCtx (Some (inject_Z (Z.of_nat (length (_in_queue self)))))
           None None None None.

(** [self._out_stats] seen as a context dictionary. *)
Definition stats_ctx (s : OutStats) : NetCtx :=
  mkNetCtx (Some (inject_Z (queue_len s)))
           (Some (inject_Z (in_count s)))
           (Some (inject_Z (out_count s)))
           (Some (inject_Z (fail_count s)))
           (Some (inject_Z (attempts s))).

(** The same dictionary with its entries as the ints they are. *)
Definition stats_num_ctx (s : OutStats) : NumCtx :=
  mkNumCtx (Some (PyInt (queue_len s)))
           (Some (PyInt (in_count s)))
           (Some (PyInt (out_count s)))
           (Some (PyInt (fail_count s)))
           (Some (PyInt (attempts s))).

Definition receive (self : Node) (msg : Message) : Node :=
  set_in_queue self (_in_queue self ++ [msg]).

Definition set_links (n : Node) (ls : list (string * Link)) : Node :=
  mkNode (id n) (x n) (y n) ls (model n) (_in_queue n) (_out_stats n)
         (_delivered n) (_running n).

Definition set_running (n : Node) (r : bool) : Node :=
  mkNode (id n) (x n) (y n) (links n) (model n) (_in_queue n) (_out_stats n)
         (_delivered n) r.

(** [Node.__init__]; [now] is the clock reading the engine's constructor
    stores. *)
Definition Node_init (node_id : string) (px py : Q) (now : Q) : Node :=
  mkNode node_id px py [] (mkLMLModel node_id now) []
         (mkOutStats 0 0 0 0 0) [] false.

(** [Node.connect], called on the node stored at [k] with the node stored
    at [other]: one link, entered in both nodes' [links] under the other
    node's id. *)
Definition connect (w : World) (k other : string) (loss : Q) : World :=
  let link := mkLink k other loss in
  let w := upd w k (set_links (w k)
                              (dict_set (links (w k)) (id (w other)) link)) in
  upd w other (set_links (w other)
                         (dict_set (links (w other)) (id (w k)) link)).

(** [Node.stop] and [Node.delivered]. *)
Definition stop (self : Node) : Node := set_running self false.

Definition delivered (self : Node) : list Message := _delivered self.

(** Two node objects that agree on everything but queue, counters and
    delivered sink. *)
Definition static_eq (n1 n2 : Node) : Prop :=
  id n1 = id n2 /\ x n1 = x n2 /\ y n1 = y n2 /\
  links n1 = links n2 /\ model n1 = model n2 /\ _running n1 = _running n2.

(** What a node keeps through calls made by the node stored at [k]: id
    and links; its delivered sink and, unless it is [k], its queue grow at
    the end by at most [n] messages; unless it is [k], its counters
    stay. *)
Definition grows_by (k : string) (n : nat) (w w' : World) : Prop :=
  forall k',
    id (w' k') = id (w k') /\
    links (w' k') = links (w k') /\
    (exists dl, _delivered (w' k') = (_delivered (w k') ++ dl)%list /\
                (length dl <= n)%nat /\ (k' <> k -> dl = [])) /\
    (k' <> k ->
     (exists ql, _in_queue (w' k') = (_in_queue (w k') ++ ql)%list /\
                 (length ql <= n)%nat) /\
     _out_stats (w' k') = _out_stats (w k')).

(** A store in which every node object sits under its own id. *)
Definition keyed_by_id (w : World) : Prop := forall k, id (w k) = k.

Section Environment.

(** [v ** 0.5], the value of [time.time()] at its k-th call and the
    value of [random.random()] at its k-th call. *)
Variable sqrt : Q -> Q.
Variable time : nat -> Q.
Variable random : nat -> Q.

Definition distance_to (self other : Node) : Q :=
  sqrt ((x self - x other) * (x self - x other)
        + (y self - y other) * (y self - y other)).

(** [Link.stats_for]: two draws, the first for the signal strength, the
    second for the loss. *)
Definition stats_for (self : Link) (src dst : Node) (e : Env)
  : Stats * Env :=
  let r0 := random (random_draws e) in
  let rssi := if Qltb (distance_to src dst) 1.0
              then -40 - 5 * r0 else -70 - 10 * r0 in
  let r1 := random (S (random_draws e)) in
  let loss := py_min 0.9 (base_loss self + 0.05 * r1) in
  let qlen := Z.of_nat (length (_in_queue dst)) in
  let dist := distance_to src dst in
  (mkStats (Some rssi) (Some loss) (Some qlen) (Some dist),
   mkEnv (clock_reads e) (S (S (random_draws e)))).

(** [link.a if link.b.id == self.id else link.b] *)
Definition other_end (w : World) (self : Node) (link : Link) : string :=
  if String.eqb (id (w (b link))) (id self) then a link else b link.

(** No link of the node stored at [k] leads back to that node. *)
Definition no_self_link (w : World) (k : string) : Prop :=
  forall nid link,
    In (nid, link) (links (w k)) -> other_end w (w k) link <> k.

(** The loop filling [next_hops] over [self.links.items()]. *)
Fixpoint build_next_hops (w : World) (self : Node)
         (ls : list (string * Link)) (next_hops : list (string * Stats))
         (e : Env) : list (string * Stats) * Env :=
  match ls with
  | [] => (next_hops, e)
  | (nid, link) :: ls' =>
      let neigh := w (other_end w self link) in
      let (st, e') := stats_for link self neigh e in
      build_next_hops w self ls' (dict_set next_hops nid st) e'
  end.

(** The first half of [process_message], after the path check: append to
    the path, classify, tag, prioritize. *)
Definition annotate (self : Node) (msg : Message) (now : Q) : Message :=
  let msg := set_path msg (path msg ++ [id self]) in
  let (mtype, conf) := classify msg in
  let msg := set_mtype msg mtype in
  let msg := if MsgType_eqb mtype DISTRESS && Qltb 0.7 conf
             then set_meta msg (dict_set (meta msg) "tag_distress" true)
             else msg in
  set_priority msg (prioritize msg (queue_ctx self) now).

(** [Node.process_message], run by the node stored at key [k].  The
    message is returned as the call leaves it; where the call appends
    the message to a list, the list holds the message as the call
    leaves it. *)
Definition process_message (w : World) (k : string) (msg : Message)
           (e : Env) : pyresult (World * Message * Env) :=
  let self := w k in
  if existsb (String.eqb (id self)) (path msg)
  then Returned (w, msg, e)
  else
    let msg := annotate self msg (time (clock_reads e)) in
    let e := mkEnv (S (clock_reads e)) (random_draws e) in
    if match dst msg with
       | None => true
       | Some d => String.eqb d (id self)
       end
    then
      Returned (upd w k (set_delivered self (_delivered self ++ [msg])),
                msg, e)
    else
      let (next_hops, e) := build_next_hops w self (links self) [] e in
      nxt <- route next_hops (queue_ctx self) msg ;;
      match nxt with
      | None => Returned (w, msg, e)
      | Some nxt =>
          let w := upd w k (set_out_stats (w k)
                              (incr_attempts (_out_stats (w k)))) in
          match dict_get (links self) nxt with
          | None => Raised KeyError
          | Some link =>
              let neigh := other_end w self link in
              let r := random (random_draws e) in
              let e := mkEnv (clock_reads e) (S (random_draws e)) in
              if Qltb r (base_loss link)
              then
                Returned (upd w k (set_out_stats (w k)
                                     (incr_fail_count (_out_stats (w k)))),
                          msg, e)
              else
                let msg := set_hops msg (hops msg + 1) in
                let w := upd w neigh (receive (w neigh) msg) in
                let w := upd w k (set_out_stats (w k)
                                    (incr_out_count (_out_stats (w k)))) in
                Returned (w, msg, e)
          end
      end.

(** The [for _ in range(n)] loop of [run]: pop the head of the queue,
    count it, process it. *)
Fixpoint drain (n : nat) (w : World) (k : string) (e : Env)
  : pyresult (World * Env) :=
  match n with
  | O => Returned (w, e)
  | S n' =>
      match _in_queue (w k) with
      | [] => Raised IndexError
      | msg :: rest =>
          let w := upd w k (set_in_queue (w k) rest) in
          let w := upd w k (set_out_stats (w k)
                              (incr_in_count (_out_stats (w k)))) in
          r <- process_message w k msg e ;;
          let '(w, _, e) := r in
          drain n' w k e
      end
  end.

(** [self._out_stats[k] = int(self._out_stats[k]*0.8)] for the four
    rolling counters. *)
Definition decay (s : OutStats) : OutStats :=
  mkOutStats (py_int (inject_Z (in_count s) * 0.8))
             (py_int (inject_Z (out_count s) * 0.8))
             (py_int (inject_Z (fail_count s) * 0.8))
             (py_int (inject_Z (attempts s) * 0.8))
             (queue_len s).

(** One iteration of the [while self._running] loop of [run], from the
    return of [asyncio.sleep] to the next one.  The anomaly score is
    computed and dropped: the branch it guards is [pass]. *)
Definition run_tick (w : World) (k : string) (e : Env)
  : pyresult (World * Env) :=
  let qlen := length (_in_queue (w k)) in
  let w := upd w k (set_out_stats (w k)
                      (set_queue_len (_out_stats (w k)) (Z.of_nat qlen))) in
  r <- drain (Nat.min 5 qlen) w k e ;;
  let (w, e) := r in
  r <- anomaly_score (model (w k)) (stats_ctx (_out_stats (w k)))
                     (time (clock_reads e)) ;;
  let (_, m) := r in
  let e := mkEnv (S (clock_reads e)) (random_draws e) in
  let w := upd w k (set_model (w k) m) in
  let w := upd w k (set_out_stats (w k) (decay (_out_stats (w k)))) in
  Returned (w, e).

(** [n] consecutive iterations of the loop of [run] on one node, no other
    node running in between. *)
Fixpoint run_ticks (n : nat) (w : World) (k : string) (e : Env)
  : pyresult (World * Env) :=
  match n with
  | O => Returned (w, e)
  | S n' =>
      r <- run_tick w k e ;;
      let (w, e) := r in
      run_ticks n' w k e
  end.

End Environment.

End Mesh.

Import Mesh.

(* ------------------------------------------------------------------ *)
(** ** A concrete environment and concrete inputs, used to run the
    definitions *)

Module Demo.

Open Scope Q_scope.
Open Scope string_scope.

(** Square root to three decimals. *)
Definition demo_sqrt (v : Q) : Q :=
  inject_Z (Z.sqrt (Qfloor (v * 1000000))) / 1000.

(** A clock advancing by ten milliseconds per reading. *)
Definition demo_time (k : nat) : Q := 1000 + inject_Z (Z.of_nat k) / 100.

(** A generator alternating between [0.5] and [0.25]. *)
Definition demo_random (k : nat) : Q := if Nat.even k then 0.5 else 0.25.

Definition env0 : Env := mkEnv 0 0.

Definition mk_msg (s : string) (d : option string) (t : string)
           (g : option (Q * Q)) : Message :=
  mkMessage s d t g 1000 "msg-1" [] 0.0 UNKNOWN 0 [].

Definition fresh_node (i : string) (px py : Q) (ls : list (string * Link))
  : Node :=
  mkNode i px py ls (mkLMLModel i 1000) [] (mkOutStats 0 0 0 0 0) [] false.

(** The chain A - B - C - D with the extra link B - D of [demo.py]. *)
Definition link_ab : Link := mkLink "A" "B" 0.05.
Definition link_bc : Link := mkLink "B" "C" 0.08.
Definition link_cd : Link := mkLink "C" "D" 0.12.
Definition link_bd : Link := mkLink "B" "D" 0.25.

Definition demo_world : World :=
  fun k =>
    if String.eqb k "A" then fresh_node "A" 0.0 0.0 [("B", link_ab)]
    else if String.eqb k "B"
    then fresh_node "B" 0.8 0.0 [("A", link_ab); ("C", link_bc); ("D", link_bd)]
    else if String.eqb k "C"
    then fresh_node "C" 1.6 0.2 [("B", link_bc); ("D", link_cd)]
    else if String.eqb k "D"
    then fresh_node "D" 2.4 0.0 [("C", link_cd); ("B", link_bd)]
    else fresh_node k 0 0 [].

(** The first message of [demo.py]. *)
Definition msg_debris : Message :=
  mk_msg "A" (Some "D") "HELP trapped under debris near school"
         (Some (40.1, -74.2)).

(** Three distress keywords next to a coordinate. *)
Definition msg_three_distress : Message :=
  mk_msg "A" (Some "D") "help sos fire" (Some (40.1, -74.2)).

(** Three distress keywords, no coordinate. *)
Definition msg_mayday : Message :=
  mk_msg "A" (Some "D") "mayday, flood and fire" None.

Definition msg_blank : Message := mk_msg "A" (Some "D") "  " None.

(** A message that went through A already. *)
Definition msg_seen_by_A : Message :=
  mkMessage "B" (Some "D") "status ok" None 1000 "msg-2" [] 0.4 STATUS 2
            ["B"; "A"].

(** Node A with the given rolling counters and an empty queue. *)
Definition world_with_counters (i o f t : Z) : World :=
  upd demo_world "A"
      (set_out_stats (demo_world "A") (mkOutStats i o f t 0)).

Definition ctx_empty : NetCtx := mkNetCtx None None None None None.

(** A candidate far below any signal strength a link reports. *)
Definition stats_dead_signal (d : Q) : Stats :=
  mkStats (Some (-1000000000000)) (Some 0.1) (Some 0%Z) (Some d).

Definition stats_near : Stats :=
  mkStats (Some (-60)) (Some 0.1) (Some 2%Z) (Some 1).

(** The first message of the demo processed by its source A, and what
    the call leaves: the store, the message, the input streams. *)
Definition demo_after : World * Message * Env :=
  match process_message demo_sqrt demo_time demo_random demo_world "A"
                        msg_debris env0 with
  | Returned r => r
  | Raised _ => (demo_world, msg_debris, env0)
  end.

Definition demo_w' : World := fst (fst demo_after).
Definition demo_msg' : Message := snd (fst demo_after).
Definition demo_e' : Env := snd demo_after.

(** A position report that asks for help, already classified GPS. *)
Definition msg_gps_help : Message :=
  mkMessage "A" (Some "D") "help, my location is the school" None 1000
            "msg-3" [] 0.0 GPS 0 [].

(** A text without any keyword. *)
Definition msg_plain : Message := mk_msg "A" (Some "D") "xyz" None.

Definition msg_distress : Message :=
  mkMessage "A" (Some "D") "mayday" None 0 "msg-4" [] 0.0 DISTRESS 0 [].

Definition msg_status : Message :=
  mkMessage "B" (Some "D") "status ok" None 1000 "msg-5" [] 0.0 STATUS 0 [].

Definition ctx_queue (n : Q) : NetCtx := mkNetCtx (Some n) None None None None.

(** Node A with seven messages waiting. *)
Definition demo_busy_world : World :=
  upd demo_world "A"
      (set_in_queue (demo_world "A")
                    [msg_debris; msg_status; msg_mayday; msg_plain;
                     msg_gps_help; msg_distress; msg_three_distress]).

(** One tick of A with seven messages waiting, and what it leaves. *)
Definition demo_tick_after : World * Env :=
  match run_tick demo_sqrt demo_time demo_random demo_busy_world "A" env0 with
  | Returned r => r
  | Raised _ => (demo_busy_world, env0)
  end.

(** A context of five int counts. *)
Definition num_ctx (q i o f t : Z) : NumCtx :=
  mkNumCtx (Some (PyInt q)) (Some (PyInt i)) (Some (PyInt o))
           (Some (PyInt f)) (Some (PyInt t)).

(** An inbound count of [10**400], the other entries absent. *)
Definition ctx_huge_in_count : NumCtx :=
  mkNumCtx None (Some (PyInt (10 ^ 400))) None None None.

Section Binary64Demo.

Import PrimFloat.

(** A candidate with signal strength -60, loss 0.1, queue length 2 and
    distance [d], in binary64. *)
Definition stats64_at (d : float) : B64.Stats64 :=
  B64.mkStats64 (Some (-60)%float) (Some 0.1%float) (Some 2%float) (Some d).

End Binary64Demo.

End Demo.

Import Demo.

(* ------------------------------------------------------------------ *)
(** ** Arithmetic of the runtime helpers *)

Section Arith.

Open Scope Q_scope.

Lemma Qltb_lt (u v : Q) : Qltb u v = true <-> u < v.
Proof.
  unfold Qltb. rewrite negb_true_iff.
  split; intro H.
  - apply Qnot_le_lt. intro Hle. apply Qle_bool_iff in Hle. congruence.
  - destruct (Qle_bool v u) eqn:E; [|reflexivity].
    apply Qle_bool_iff in E. exfalso. apply (Qlt_not_le _ _ H E).
Qed.

Lemma Qltb_ge (u v : Q) : Qltb u v = false <-> v <= u.
Proof.
  unfold Qltb. rewrite negb_false_iff. apply Qle_bool_iff.
Qed.

Lemma Qltb_spec (u v : Q) : reflect (u < v) (Qltb u v).
Proof.
  destruct (Qltb u v) eqn:E; constructor.
  - now apply Qltb_lt.
  - apply Qltb_ge in E. now apply Qle_not_lt.
Qed.

Lemma py_max_cases (u v : Q) :
  (u < v /\ py_max u v = v) \/ (v <= u /\ py_max u v = u).
Proof.
  unfold py_max. destruct (Qltb_spec u v) as [H|H]; [left|right]; split;
    try reflexivity; try assumption.
  now apply Qnot_lt_le.
Qed.

Lemma py_min_cases (u v : Q) :
  (v < u /\ py_min u v = v) \/ (u <= v /\ py_min u v = u).
Proof.
  unfold py_min. destruct (Qltb_spec v u) as [H|H]; [left|right]; split;
    try reflexivity; try assumption.
  now apply Qnot_lt_le.
Qed.

Lemma py_max_lb (u v : Q) : u <= py_max u v /\ v <= py_max u v.
Proof.
  destruct (py_max_cases u v) as [[H ->]|[H ->]]; split; lra.
Qed.

Lemma softclip_bounds (v lo hi : Q) :
  lo <= hi -> lo <= softclip v lo hi /\ softclip v lo hi <= hi.
Proof.
  intro Hlh. unfold softclip.
  destruct (py_min_cases hi v) as [[H1 E1]|[H1 E1]]; rewrite E1;
    destruct (py_max_cases lo v) as [[H2 E2]|[H2 E2]];
    destruct (py_max_cases lo hi) as [[H3 E3]|[H3 E3]];
    try rewrite E2; try rewrite E3; split; lra.
Qed.

Lemma py_abs_nonneg (v : Q) : 0 <= py_abs v.
Proof.
  unfold py_abs. destruct (Qltb_spec v 0) as [H|H]; lra.
Qed.

Lemma py_div_pos (u v : Q) : 0 < v -> py_div u v = Returned (u / v).
Proof.
  intro H. unfold py_div.
  destruct (Qeq_bool v 0) eqn:E; [|reflexivity].
  apply Qeq_bool_iff in E. lra.
Qed.

Lemma Qdiv_nonneg (u v : Q) : 0 <= u -> 0 < v -> 0 <= u / v.
Proof.
  intros Hu Hv. unfold Qdiv.
  apply Qmult_le_0_compat; [assumption|].
  apply Qlt_le_weak, Qinv_lt_0_compat, Hv.
Qed.

End Arith.

(* ------------------------------------------------------------------ *)
(** ** classify *)

Section Classify.

Open Scope Q_scope.

(** Outside the empty case the returned type is the key [max] selects. *)
Lemma classify_fst_nonempty (msg : Message) :
  (String.length (strip (lower (text msg))) <> O \/ gps msg <> None) ->
  fst (classify msg) = fst (max_key (fst (scores msg)) (snd (scores msg))).
Proof.
  intro H. unfold classify.
  destruct (scores msg) as [first rest] eqn:Es. cbn [fst snd].
  destruct (String.length (strip (lower (text msg)))) eqn:El;
    destruct (gps msg) eqn:Eg;
    try (destruct H; congruence);
    destruct (max_key first rest) as [mt sc];
    destruct (MsgType_eqb mt DISTRESS && Qle_bool 2 sc); reflexivity.
Qed.

Lemma Qltb_inject_Z (u v : Z) : Qltb (inject_Z u) (inject_Z v) = (u <? v)%Z.
Proof.
  destruct (Qltb_spec (inject_Z u) (inject_Z v)) as [H|H];
    symmetry; [apply Z.ltb_lt | apply Z.ltb_ge].
  - now rewrite Zlt_Qlt.
  - apply Qnot_lt_le in H. now rewrite Zle_Qle.
Qed.

(** An integer count against a count that received the [2.5] bonus. *)
Lemma Qltb_inject_Z_bonus_r (u v : Z) :
  Qltb (inject_Z u) (inject_Z v + 2.5) = (u <=? v + 2)%Z.
Proof.
  destruct (Qltb_spec (inject_Z u) (inject_Z v + 2.5)) as [H|H];
    symmetry; [apply Z.leb_le | apply Z.leb_gt];
    unfold Qlt, Qplus, inject_Z in H; cbn in H; lia.
Qed.

Lemma Qltb_inject_Z_bonus_l (u v : Z) :
  Qltb (inject_Z v + 2.5) (inject_Z u) = (v + 2 <? u)%Z.
Proof.
  destruct (Qltb_spec (inject_Z v + 2.5) (inject_Z u)) as [H|H];
    symmetry; [apply Z.ltb_lt | apply Z.ltb_ge];
    unfold Qlt, Qplus, inject_Z in H; cbn in H; lia.
Qed.

(** C2, as the code has it: for a message carrying a coordinate,
    [classify] returns GPS exactly when none of the distress, supply and
    status keyword counts exceeds the GPS keyword count by more than two,
    that is, when none of them beats the GPS count plus the 2.5 bonus. *)
Theorem classify_gps_iff (msg : Message) :
  gps msg <> None ->
  fst (classify msg) = GPS <->
  (kw_count DISTRESS_KEYWORDS (lower (text msg))
   <= kw_count GPS_KEYWORDS (lower (text msg)) + 2 /\
   kw_count SUPPLY_KEYWORDS (lower (text msg))
   <= kw_count GPS_KEYWORDS (lower (text msg)) + 2 /\
   kw_count STATUS_KEYWORDS (lower (text msg))
   <= kw_count GPS_KEYWORDS (lower (text msg)) + 2)%Z.
Proof.
  intros Hg.
  rewrite classify_fst_nonempty by (right; exact Hg).
  unfold scores.
  destruct (gps msg) as [c|]; [clear Hg|congruence].
  generalize (kw_count DISTRESS_KEYWORDS (lower (text msg)))
             (kw_count GPS_KEYWORDS (lower (text msg)))
             (kw_count SUPPLY_KEYWORDS (lower (text msg)))
             (kw_count STATUS_KEYWORDS (lower (text msg))).
  intros d g s t. cbn [fst snd max_key].
  rewrite Qltb_inject_Z_bonus_r.
  destruct (Z.leb_spec d (g + 2)) as [H1|H1]; cbn [snd].
  - rewrite Qltb_inject_Z_bonus_l.
    destruct (Z.ltb_spec (g + 2) s) as [H2|H2]; cbn [snd].
    + rewrite Qltb_inject_Z.
      destruct (Z.ltb_spec s t); cbn [fst]; split; try discriminate; lia.
    + rewrite Qltb_inject_Z_bonus_l.
      destruct (Z.ltb_spec (g + 2) t); cbn [fst]; split; try discriminate;
        try lia; reflexivity.
  - rewrite Qltb_inject_Z.
    destruct (Z.ltb_spec d s) as [H2|H2]; cbn [snd].
    + rewrite Qltb_inject_Z.
      destruct (Z.ltb_spec s t); cbn [fst]; split; try discriminate; lia.
    + rewrite Qltb_inject_Z.
      destruct (Z.ltb_spec d t); cbn [fst]; split; try discriminate; lia.
Qed.

(** The first message of the demo: two distress keywords and a
    coordinate, classified GPS. *)
Lemma classify_gps_iff_witness : fst (classify msg_debris) = GPS.
Proof.
  apply (classify_gps_iff msg_debris).
  - discriminate.
  - vm_compute. repeat split; discriminate.
Defined.

(** C2 as stated fails: three distress keywords outweigh the coordinate
    bonus, and the message is classified DISTRESS. *)
Lemma classify_coordinate_outvoted :
  gps msg_three_distress <> None /\
  fst (classify msg_three_distress) = DISTRESS /\
  fst (classify msg_three_distress) <> GPS.
Proof.
  split; [discriminate|]. split; [reflexivity | discriminate].
Qed.

Lemma is_space_lower_char (c : ascii) : is_space (lower_char c) = is_space c.
Proof.
  destruct c as [[] [] [] [] [] [] [] []]; reflexivity.
Qed.

Lemma lstrip_lower_all_space (s : string) :
  all_space s = true -> lstrip (lower s) = EmptyString.
Proof.
  induction s as [|c s IH]; cbn [all_space lower lstrip]; [reflexivity|].
  intro H. apply andb_true_iff in H. destruct H as [Hc Hs].
  rewrite is_space_lower_char, Hc. now apply IH.
Qed.

Lemma strip_lower_all_space (s : string) :
  all_space s = true -> strip (lower s) = EmptyString.
Proof.
  intro H. unfold strip. now rewrite lstrip_lower_all_space.
Qed.

(** The three ways [classify] computes its result; a DISTRESS result
    carries the distress keyword count as its score. *)
Lemma classify_cases (msg : Message) :
  classify msg = (UNKNOWN, 0.2) \/
  (exists mt sc, mt <> DISTRESS /\
                 classify msg = (mt, softclip (sc / 3.0) 0.1 0.99)) \/
  classify msg
  = (DISTRESS,
     if Qle_bool 2 (inject_Z (kw_count DISTRESS_KEYWORDS (lower (text msg))))
     then softclip
            (softclip
               (inject_Z (kw_count DISTRESS_KEYWORDS (lower (text msg)))
                / 3.0) 0.1 0.99 + 0.2) 0 1
     else softclip
            (inject_Z (kw_count DISTRESS_KEYWORDS (lower (text msg))) / 3.0)
            0.1 0.99).
Proof.
  unfold classify, scores.
  generalize (inject_Z (kw_count DISTRESS_KEYWORDS (lower (text msg)))).
  generalize (inject_Z (kw_count SUPPLY_KEYWORDS (lower (text msg)))).
  generalize (inject_Z (kw_count STATUS_KEYWORDS (lower (text msg)))).
  generalize (match gps msg with
              | Some _ => inject_Z (kw_count GPS_KEYWORDS (lower (text msg)))
                          + 2.5
              | None => inject_Z (kw_count GPS_KEYWORDS (lower (text msg)))
              end).
  intros g t s d. cbn [max_key snd].
  destruct (String.length (strip (lower (text msg)))), (gps msg);
    try (now left);
    (destruct (Qltb d g); cbn [snd];
     [ destruct (Qltb g s); cbn [snd];
       [ destruct (Qltb s t) | destruct (Qltb g t) ]
     | destruct (Qltb d s); cbn [snd];
       [ destruct (Qltb s t) | destruct (Qltb d t) ] ];
     cbn [MsgType_eqb andb];
     try (right; left; do 2 eexists; split; [|reflexivity]; discriminate);
     right; right; destruct (Qle_bool 2 d); reflexivity).
Qed.

Lemma Qle_bool_2_inject_Z (d : Z) :
  Qle_bool 2 (inject_Z d) = (2 <=? d)%Z.
Proof.
  destruct (Z.leb_spec 2 d) as [H|H].
  - apply Qle_bool_iff. change 2 with (inject_Z 2). now rewrite <- Zle_Qle.
  - destruct (Qle_bool 2 (inject_Z d)) eqn:E; [|reflexivity].
    apply Qle_bool_iff in E. change 2 with (inject_Z 2) in E.
    rewrite <- Zle_Qle in E. lia.
Qed.

(** C3, as the code has it: the confidence lies in [0.10, 0.99] unless
    the returned type is DISTRESS with three or more distress keywords in
    the text, in which case 0.20 is added, the sum is re-clipped to [0, 1]
    and the confidence is exactly 1.0; and a text that is empty or
    whitespace-only with no coordinate yields exactly (UNKNOWN, 0.20). *)
Theorem classify_confidence (msg : Message) :
  (fst (classify msg) = DISTRESS ->
   (3 <= kw_count DISTRESS_KEYWORDS (lower (text msg)))%Z ->
   snd (classify msg) = 1) /\
  (fst (classify msg) <> DISTRESS \/
   (kw_count DISTRESS_KEYWORDS (lower (text msg)) < 3)%Z ->
   0.1 <= snd (classify msg) /\ snd (classify msg) <= 0.99) /\
  (all_space (text msg) = true -> gps msg = None ->
   classify msg = (UNKNOWN, 0.2)).
Proof.
  split; [|split].
  - intros Hd H3.
    destruct (classify_cases msg) as [E|[(mt & sc & Hmt & E)|E]];
      rewrite E in Hd |- *; cbn [fst snd] in *;
      try discriminate; try contradiction.
    set (c := kw_count DISTRESS_KEYWORDS (lower (text msg))) in *.
    clearbody c.
    rewrite Qle_bool_2_inject_Z.
    destruct (Z.leb_spec 2 c); [|lia].
    assert (E99 : softclip (inject_Z c / 3.0) 0.1 0.99 = 0.99).
    { unfold softclip, py_min.
      assert (Hge : Qltb (inject_Z c / 3.0) 0.99 = false).
      { apply Qltb_ge. unfold Qle, Qdiv, Qmult, Qinv, inject_Z. cbn. lia. }
      rewrite Hge. reflexivity. }
    rewrite E99. reflexivity.
  - intros Hor.
    destruct (classify_cases msg) as [E|[(mt & sc & Hmt & E)|E]];
      rewrite E in Hor |- *; cbn [fst snd] in *.
    + split; lra.
    + destruct (softclip_bounds (sc / 3.0) 0.1 0.99); [lra | split; lra].
    + destruct Hor as [Hne|Hlt]; [contradiction|].
      rewrite Qle_bool_2_inject_Z.
      destruct (Z.leb_spec 2 (kw_count DISTRESS_KEYWORDS
                                       (lower (text msg)))) as [H2|H2].
      * replace (kw_count DISTRESS_KEYWORDS (lower (text msg)))
          with 2%Z by lia.
        vm_compute. split; discriminate.
      * match goal with |- 0.1 <= softclip ?v _ _ /\ _ =>
          destruct (softclip_bounds v 0.1 0.99); [lra | split; lra] end.
  - intros Hs Hg. unfold classify.
    rewrite (strip_lower_all_space _ Hs), Hg.
    destruct (scores msg). reflexivity.
Qed.

(** Three distress keywords; the first message of the demo; a text of two
    spaces without coordinate. *)
Lemma classify_confidence_witness :
  snd (classify msg_mayday) = 1 /\
  (0.1 <= snd (classify msg_debris) /\ snd (classify msg_debris) <= 0.99) /\
  classify msg_blank = (UNKNOWN, 0.2).
Proof.
  split; [|split].
  - apply (proj1 (classify_confidence msg_mayday)).
    + reflexivity.
    + vm_compute. discriminate.
  - apply (proj1 (proj2 (classify_confidence msg_debris))).
    left. vm_compute. discriminate.
  - apply (proj2 (proj2 (classify_confidence msg_blank))); reflexivity.
Defined.

(** C3 as stated fails: three distress keywords give a DISTRESS
    confidence of 1, above 0.99. *)
Lemma classify_confidence_above_099 :
  fst (classify msg_mayday) = DISTRESS /\
  snd (classify msg_mayday) == 1 /\
  ~ snd (classify msg_mayday) <= 0.99.
Proof.
  split; [reflexivity|]. split; [reflexivity|].
  vm_compute. intro H. now apply H.
Qed.

End Classify.

(* ------------------------------------------------------------------ *)
(** ** route *)

Section Route.

Open Scope Q_scope.

Lemma Qltb_comp (u u' v v' : Q) :
  u == u' -> v == v' -> Qltb u v = Qltb u' v'.
Proof.
  intros Hu Hv. unfold Qltb. now rewrite Hu, Hv.
Qed.

Lemma softclip_comp (u v lo hi : Q) :
  u == v -> softclip u lo hi == softclip v lo hi.
Proof.
  intro H. unfold softclip, py_max, py_min.
  rewrite (Qltb_comp u v hi hi H (Qeq_refl hi)).
  destruct (Qltb v hi).
  - rewrite (Qltb_comp lo lo u v (Qeq_refl lo) H).
    destruct (Qltb lo v); [exact H | reflexivity].
  - reflexivity.
Qed.

(** The weights of the distance and reliability terms are positive
    whatever the priority. *)
Lemma weight_dist_pos (p : Q) : 0 < 0.4 + 0.3 * softclip p 0 1.
Proof.
  destruct (softclip_bounds p 0 1); lra.
Qed.

Lemma weight_rel_pos (p : Q) : 0 < 0.3 + 0.2 * softclip p 0 1.
Proof.
  destruct (softclip_bounds p 0 1); lra.
Qed.

Lemma py_div_returned (u v w : Q) :
  py_div u v = Returned w -> ~ v == 0 /\ w = u / v.
Proof.
  unfold py_div. destruct (Qeq_bool v 0) eqn:E; [discriminate|].
  intro H. injection H as <-. split; [|reflexivity].
  intro Hv. apply Qeq_bool_iff in Hv. congruence.
Qed.

(** The score reads nothing of the message but its priority. *)
Lemma route_score_priority (stats : Stats) (m1 m2 : Message) :
  priority m1 == priority m2 ->
  match route_score stats m1, route_score stats m2 with
  | Returned s1, Returned s2 => s1 == s2
  | Raised e1, Raised e2 => e1 = e2
  | _, _ => False
  end.
Proof.
  intro Hp. unfold route_score.
  destruct (py_div 1.0 (1.0 + inject_Z (get (queue stats) 0%Z)));
    cbn [bind]; [|reflexivity].
  destruct (match distance_to_dst stats with
            | Some d => py_div 1.0 (1.0 + d)
            | None => Returned 0.0
            end); cbn [bind]; [|reflexivity].
  now rewrite (softclip_comp _ _ 0 1 Hp).
Qed.

Lemma route_loop_priority (next_hops : list (string * Stats))
      (m1 m2 : Message) :
  priority m1 == priority m2 ->
  forall (b1 b2 : Q) (bn : option string),
    b1 == b2 ->
    route_loop next_hops m1 b1 bn = route_loop next_hops m2 b2 bn.
Proof.
  intro Hp. induction next_hops as [|[nid stats] rest IH]; intros b1 b2 bn Hb.
  - reflexivity.
  - cbn [route_loop].
    pose proof (route_score_priority stats m1 m2 Hp) as Hs.
    destruct (route_score stats m1) as [s1|e1],
             (route_score stats m2) as [s2|e2]; cbn [bind];
      try contradiction.
    + rewrite (Qltb_comp b1 b2 s1 s2 Hb Hs).
      destruct (Qltb b2 s2); now apply IH.
    + now subst.
Qed.

(** [route] never reads its context, and of the message it reads the
    priority alone: on the same candidates, in the same order, two
    messages whose priorities are the same number get the same result. *)
Lemma route_reads_priority_only (next_hops : list (string * Stats))
      (ctx1 ctx2 : NetCtx) (m1 m2 : Message) :
  priority m1 == priority m2 ->
  route next_hops ctx1 m1 = route next_hops ctx2 m2.
Proof.
  intro Hp. unfold route.
  destruct next_hops as [|kv rest]; [reflexivity|].
  now apply route_loop_priority.
Qed.

(** C5, as the code has it: over an empty candidate mapping [route]
    returns none without raising; over a single candidate it returns that
    candidate whenever the candidate's score is computed (no division by
    zero) and exceeds the initial best score of -1e9. *)
Theorem route_empty_and_single :
  (forall (ctx : NetCtx) (msg : Message), route [] ctx msg = Returned None) /\
  (forall (nid : string) (stats : Stats) (ctx : NetCtx) (msg : Message)
          (s : Q),
      route_score stats msg = Returned s ->
      -1000000000 < s ->
      route [(nid, stats)] ctx msg = Returned (Some nid)).
Proof.
  split.
  - reflexivity.
  - intros nid stats ctx msg s Hs Hlt.
    unfold route. cbn [route_loop]. rewrite Hs. cbn [bind].
    apply Qltb_lt in Hlt. now rewrite Hlt.
Qed.

Lemma route_empty_and_single_witness :
  route [("B", stats_near)] ctx_empty msg_debris = Returned (Some "B").
Proof.
  eapply (proj2 route_empty_and_single).
  - reflexivity.
  - vm_compute. reflexivity.
Defined.

(** C5 as stated fails: a single candidate whose signal strength is
    -1e12 scores below -1e9 and is not returned. *)
Lemma route_single_below_floor :
  route [("B", stats_dead_signal 1)] ctx_empty msg_debris = Returned None /\
  route [("B", stats_dead_signal 1)] ctx_empty msg_debris
  <> Returned (Some "B").
Proof.
  split; [reflexivity | discriminate].
Qed.

(** The score when both divisions succeed. *)
Lemma route_score_returned (stats : Stats) (msg : Message) (s : Q) :
  route_score stats msg = Returned s ->
  exists qp dt,
    py_div 1.0 (1.0 + inject_Z (get (queue stats) 0%Z)) = Returned qp /\
    match distance_to_dst stats with
    | Some d => py_div 1.0 (1.0 + d)
    | None => Returned 0.0
    end = Returned dt /\
    s = (0.4 + 0.3 * softclip (priority msg) 0 1) * dt +
        (0.3 + 0.2 * softclip (priority msg) 0 1)
          * (1.0 - softclip (get (loss stats) 0.2) 0.0 0.9) +
        0.2 * ((get (rssi stats) (-80) + 100) / 60.0) +
        0.1 * qp.
Proof.
  unfold route_score.
  destruct (py_div 1.0 (1.0 + inject_Z (get (queue stats) 0%Z))) as [qp|];
    cbn [bind]; [|discriminate].
  destruct (match distance_to_dst stats with
            | Some d => py_div 1.0 (1.0 + d)
            | None => Returned 0.0
            end) as [dt|]; cbn [bind]; [|discriminate].
  intro H. injection H as <-. now exists qp, dt.
Qed.

Lemma inv_term_lt (d1 d2 : Q) :
  0 <= d1 -> d1 < d2 -> 1.0 / (1.0 + d2) < 1.0 / (1.0 + d1).
Proof.
  intros H0 Hlt. unfold Qdiv.
  apply Qmult_lt_l; [lra|].
  apply -> Qinv_lt_contravar; lra.
Qed.

(** Statistics in range never raise. *)
Lemma route_score_total (st : Stats) (msg : Message) :
  good_stats st -> exists s, route_score st msg = Returned s.
Proof.
  intros [Hq Hd]. unfold route_score.
  rewrite py_div_pos.
  2:{ rewrite Zle_Qle in Hq. change (inject_Z 0) with 0 in Hq. lra. }
  cbn [bind].
  destruct (distance_to_dst st) as [d|].
  - specialize (Hd d eq_refl). rewrite py_div_pos by lra.
    cbn [bind]. eexists. reflexivity.
  - cbn [bind]. eexists. reflexivity.
Qed.

(** Statistics in range with a signal strength of at least -100 score
    above zero, hence above the initial best score. *)
Lemma route_score_in_range (st : Stats) (msg : Message) :
  good_stats st ->
  -100 <= get (rssi st) (-80) ->
  exists s, route_score st msg = Returned s /\ 0 < s.
Proof.
  intros Hg Hr.
  destruct (route_score_total st msg Hg) as [s Hs].
  exists s. split; [exact Hs|].
  destruct (route_score_returned _ _ _ Hs) as (qp & dt & Hq & Hd & ->).
  destruct Hg as [Hq0 Hd0].
  assert (Hqp : 0 < qp).
  { apply py_div_returned in Hq. destruct Hq as [_ ->].
    rewrite Zle_Qle in Hq0. change (inject_Z 0) with 0 in Hq0.
    unfold Qdiv. apply Qmult_lt_0_compat; [lra|].
    apply Qinv_lt_0_compat. lra. }
  assert (Hdt : 0 <= dt).
  { destruct (distance_to_dst st) as [d|].
    - apply py_div_returned in Hd. destruct Hd as [_ ->].
      specialize (Hd0 d eq_refl).
      apply Qdiv_nonneg; lra.
    - injection Hd as <-. lra. }
  pose proof (weight_dist_pos (priority msg)) as Hwd.
  pose proof (weight_rel_pos (priority msg)) as Hwr.
  destruct (softclip_bounds (get (loss st) 0.2) 0.0 0.9) as [_ Hl]; [lra|].
  assert (H1 : 0 <= (0.4 + 0.3 * softclip (priority msg) 0 1) * dt)
    by (apply Qmult_le_0_compat; lra).
  assert (H2 : 0 <= (0.3 + 0.2 * softclip (priority msg) 0 1)
                    * (1.0 - softclip (get (loss st) 0.2) 0.0 0.9))
    by (apply Qmult_le_0_compat; lra).
  assert (H3 : 0 <= (get (rssi st) (-80) + 100) / 60.0)
    by (apply Qdiv_nonneg; lra).
  lra.
Qed.

(** Over exact rationals, of two candidates with the same signal
    strength, loss and queue length and with known distances
    [0 <= d1 < d2], the closer one scores strictly more and is returned in
    either iteration order, whenever its score is computed and exceeds the
    initial best score of -1e9.  Over binary64 the two scores can round to
    the same float, see [route_closer_tied_binary64]. *)
Lemma route_closer_exact (n1 n2 : string) (r l : option Q)
      (q : option Z) (d1 d2 : Q) (ctx : NetCtx) (msg : Message) (s1 : Q) :
  0 <= d1 -> d1 < d2 ->
  route_score (mkStats r l q (Some d1)) msg = Returned s1 ->
  -1000000000 < s1 ->
  route [(n1, mkStats r l q (Some d1)); (n2, mkStats r l q (Some d2))]
        ctx msg = Returned (Some n1) /\
  route [(n2, mkStats r l q (Some d2)); (n1, mkStats r l q (Some d1))]
        ctx msg = Returned (Some n1).
Proof.
  intros H0 Hlt Hs Hfloor.
  destruct (route_score_returned _ _ _ Hs) as (qp & dt & Hq & Hd & Es).
  cbn [queue distance_to_dst loss rssi] in Hq, Hd, Es.
  apply py_div_returned in Hd. destruct Hd as [_ ->].
  assert (Hs2 : route_score (mkStats r l q (Some d2)) msg
                = Returned ((0.4 + 0.3 * softclip (priority msg) 0 1)
                              * (1.0 / (1.0 + d2)) +
                            (0.3 + 0.2 * softclip (priority msg) 0 1)
                              * (1.0 - softclip (get l 0.2) 0.0 0.9) +
                            0.2 * ((get r (-80) + 100) / 60.0) +
                            0.1 * qp)).
  { unfold route_score. cbn [queue distance_to_dst loss rssi].
    rewrite Hq. cbn [bind]. rewrite py_div_pos by lra. reflexivity. }
  assert (Hcmp : (0.4 + 0.3 * softclip (priority msg) 0 1)
                   * (1.0 / (1.0 + d2))
                 < (0.4 + 0.3 * softclip (priority msg) 0 1)
                   * (1.0 / (1.0 + d1))).
  { apply Qmult_lt_l; [apply weight_dist_pos | now apply inv_term_lt]. }
  set (s2 := _ + 0.1 * qp) in Hs2.
  assert (Hs21 : s2 < s1) by (subst s1 s2; lra).
  unfold route. cbn [route_loop]. rewrite Hs, Hs2. cbn [bind].
  split.
  - apply Qltb_lt in Hfloor. rewrite Hfloor.
    assert (E : Qltb s1 s2 = false) by (apply Qltb_ge; lra).
    now rewrite E.
  - destruct (Qltb_spec (-1000000000) s2) as [Hb|Hb].
    + assert (E : Qltb s2 s1 = true) by (now apply Qltb_lt).
      now rewrite E.
    + apply Qltb_lt in Hfloor. now rewrite Hfloor.
Qed.

(** Two candidates alike but for their distances, 0 and 1, both with a
    signal strength of -1e12, score below -1e9 and neither is returned. *)
Example route_closer_below_floor :
  route [("B", stats_dead_signal 0); ("C", stats_dead_signal 1)]
        ctx_empty msg_debris = Returned None /\
  route [("B", stats_dead_signal 0); ("C", stats_dead_signal 1)]
        ctx_empty msg_debris <> Returned (Some "B").
Proof.
  split; [reflexivity | discriminate].
Qed.

End Route.

(* ------------------------------------------------------------------ *)
(** ** anomaly_score *)

Section Anomaly.

Open Scope Q_scope.

(** With non-negative inbound and outbound counts none of the five
    divisions raises, and the result is a clipped value. *)
Lemma anomaly_score_returns (self : LMLModel) (ctx : NetCtx) (now : Q) :
  0 <= get (ctx_in_count ctx) 0 ->
  0 <= get (ctx_out_count ctx) 0 ->
  exists v : Q,
    anomaly_score self ctx now
    = Returned (softclip v 0.0 1.0, mkLMLModel (node_id self) now).
Proof.
  intros Hin Hout. unfold anomaly_score.
  destruct (py_max_lb 0.001 (now - _last_tick self)) as [Hdt _].
  set (dt := py_max 0.001 (now - _last_tick self)) in *.
  assert (Hdt0 : 0 < dt) by lra.
  destruct (py_max_lb 1.0 (get (ctx_attempts ctx) 1)) as [Hatt _].
  set (att := py_max 1.0 (get (ctx_attempts ctx) 1)) in *.
  rewrite !(py_div_pos _ dt Hdt0). cbn [bind].
  rewrite (py_div_pos _ att) by lra. cbn [bind].
  rewrite (py_div_pos _ dt Hdt0). cbn [bind].
  pose proof (Qdiv_nonneg _ _ Hin Hdt0) as Hir.
  pose proof (Qdiv_nonneg _ _ Hout Hdt0) as Hor.
  clearbody dt att.
  rewrite py_div_pos by lra. cbn [bind].
  eexists. reflexivity.
Qed.

(** *** Contexts of ints and floats *)

Lemma to_float_converts (v : pynum) :
  converts v -> to_float v = Returned (num_value v).
Proof.
  destruct v as [z|x]; cbn [converts to_float num_value]; [|reflexivity].
  intro H. unfold float_of_int.
  apply Z.ltb_lt in H. now rewrite H.
Qed.

(** A number that converts, divided by a float. *)
Lemma truediv_float (u : pynum) (v : Q) :
  converts u -> truediv u (PyFloat v) = py_div (num_value u) v.
Proof.
  intro H.
  assert (E : truediv u (PyFloat v)
              = bind (to_float u) (fun x => bind (to_float (PyFloat v))
                                                 (fun y => py_div x y)))
    by (now destruct u).
  rewrite E, (to_float_converts u H). reflexivity.
Qed.

Lemma Qabs_inject_Z (z : Z) : Qabs (inject_Z z) = inject_Z (Z.abs z).
Proof. reflexivity. Qed.

(** The quotient of an int that converts by a non-zero int fits a
    float. *)
Lemma int_quotient_in_range (p q : Z) :
  (Z.abs p < float_overflow)%Z -> q <> 0%Z ->
  Qle_bool (inject_Z float_overflow) (Qabs (inject_Z p / inject_Z q))
  = false.
Proof.
  intros Hp Hq.
  destruct (Qle_bool _ _) eqn:E; [|reflexivity].
  exfalso. apply Qle_bool_iff in E.
  assert (Hq1 : 1 <= Qabs (inject_Z q)).
  { rewrite Qabs_inject_Z. change 1 with (inject_Z 1).
    rewrite <- Zle_Qle. lia. }
  assert (Hp1 : Qabs (inject_Z p) < inject_Z float_overflow).
  { rewrite Qabs_inject_Z. now rewrite <- Zlt_Qlt. }
  assert (Hp0 : 0 <= Qabs (inject_Z p)) by apply Qabs_nonneg.
  unfold Qdiv in E. rewrite Qabs_Qmult, Qabs_Qinv in E.
  set (u := Qabs (inject_Z p)) in *.
  set (v := Qabs (inject_Z q)) in *.
  set (T := inject_Z float_overflow) in *.
  clearbody u v T.
  assert (Hle : u * / v <= u).
  { apply Qle_shift_div_r; [lra|]. nra. }
  lra.
Qed.

(** [fail_count / max(1.0, attempts)] when both entries convert. *)
Lemma truediv_num_max (u v : pynum) :
  converts u -> converts v ->
  truediv u (num_max (PyFloat 1.0) v)
  = py_div (num_value u) (py_max 1.0 (num_value v)).
Proof.
  intros Hu Hv. unfold num_max, py_max. cbn [num_value].
  destruct (Qltb_spec 1.0 (num_value v)) as [H1|H1].
  - destruct u as [p|x], v as [q|y].
    + cbn [num_value converts] in *.
      assert (Hq : q <> 0%Z).
      { intro E. subst q. revert H1. unfold Qlt. cbn. lia. }
      cbn [truediv]. apply Z.eqb_neq in Hq. rewrite Hq.
      apply Z.eqb_neq in Hq.
      rewrite (int_quotient_in_range p q Hu Hq).
      unfold py_div.
      destruct (Qeq_bool (inject_Z q) 0) eqn:E; [|reflexivity].
      apply Qeq_bool_iff in E. exfalso. apply Hq.
      revert E. unfold Qeq. cbn. lia.
    + now apply truediv_float.
    + cbn [truediv bind to_float]. cbn [converts] in Hv.
      unfold float_of_int. apply Z.ltb_lt in Hv. now rewrite Hv.
    + reflexivity.
  - now apply truediv_float.
Qed.

Lemma get_num_value (o : option pynum) (d : pynum) :
  get (option_map num_value o) (num_value d) = num_value (get o d).
Proof. now destruct o. Qed.

(** On a dictionary whose entries all convert the conversions are
    silent: the result is that of the body on the entries' values. *)
Lemma anomaly_score_num_ctx (self : LMLModel) (c : NumCtx) (now : Q) :
  ctx_converts c ->
  anomaly_score_num self c now = anomaly_score self (ctx_values c) now.
Proof.
  intros (Hq & Hi & Ho & Hf & Ha).
  unfold anomaly_score_num, anomaly_score, ctx_values.
  cbn [ctx_queue_len ctx_in_count ctx_out_count ctx_fail_count ctx_attempts].
  rewrite !truediv_float by assumption.
  rewrite truediv_num_max by assumption.
  change 0 with (num_value (PyInt 0)).
  change 1 with (num_value (PyInt 1)) at 2.
  rewrite !get_num_value.
  reflexivity.
Qed.

Lemma ctx_values_in (c : NumCtx) :
  get (ctx_in_count (ctx_values c)) 0
  = num_value (get (num_in_count c) (PyInt 0)).
Proof. cbn [ctx_values ctx_in_count]. now destruct (num_in_count c). Qed.

Lemma ctx_values_out (c : NumCtx) :
  get (ctx_out_count (ctx_values c)) 0
  = num_value (get (num_out_count c) (PyInt 0)).
Proof. cbn [ctx_values ctx_out_count]. now destruct (num_out_count c). Qed.

Lemma ctx_values_fail (c : NumCtx) :
  get (ctx_fail_count (ctx_values c)) 0
  = num_value (get (num_fail_count c) (PyInt 0)).
Proof. cbn [ctx_values ctx_fail_count]. now destruct (num_fail_count c). Qed.

Lemma ctx_values_attempts (c : NumCtx) :
  get (ctx_attempts (ctx_values c)) 1
  = num_value (get (num_attempts c) (PyInt 1)).
Proof. cbn [ctx_values ctx_attempts]. now destruct (num_attempts c). Qed.

(** The dictionary [Node.run] passes: while its counters convert, the
    call made in [run_tick] is the call on the five ints. *)
Lemma anomaly_score_stats_num_ctx (self : LMLModel) (s : OutStats)
      (now : Q) :
  ctx_converts (stats_num_ctx s) ->
  anomaly_score_num self (stats_num_ctx s) now
  = anomaly_score self (stats_ctx s) now.
Proof.
  intro H. now rewrite (anomaly_score_num_ctx self _ now H).
Qed.

(** C7, as the code has it: for every context whose entries are floats
    or ints below the float range in magnitude, and whose inbound and
    outbound counts are not negative, [anomaly_score] returns, without
    raising, a value in [0, 1]; the failed and attempted counts (zero
    included), the queue length and the two clock readings are
    arbitrary. *)
Theorem anomaly_score_num_total (self : LMLModel) (c : NumCtx) (now : Q) :
  ctx_converts c ->
  0 <= num_value (get (num_in_count c) (PyInt 0)) ->
  0 <= num_value (get (num_out_count c) (PyInt 0)) ->
  exists s : Q,
    anomaly_score_num self c now
    = Returned (s, mkLMLModel (node_id self) now)
    /\ 0 <= s /\ s <= 1.
Proof.
  intros Hc Hin Hout.
  rewrite (anomaly_score_num_ctx self c now Hc).
  rewrite <- ctx_values_in in Hin. rewrite <- ctx_values_out in Hout.
  destruct (anomaly_score_returns self (ctx_values c) now Hin Hout)
    as [v Ev].
  exists (softclip v 0.0 1.0). split; [exact Ev|].
  destruct (softclip_bounds v 0.0 1.0); [lra | split; lra].
Qed.

(** Three failures out of zero attempts, no time elapsed since the last
    tick. *)
Lemma anomaly_score_num_total_witness :
  exists s : Q,
    anomaly_score_num (mkLMLModel "A" 1000) (num_ctx 4 2 1 3 0) 1000
    = Returned (s, mkLMLModel "A" 1000) /\ 0 <= s /\ s <= 1.
Proof.
  apply (anomaly_score_num_total (mkLMLModel "A" 1000) (num_ctx 4 2 1 3 0)
                                 1000).
  - repeat split.
  - vm_compute. discriminate.
  - vm_compute. discriminate.
Defined.

(** C7 as stated fails: with an inbound count of [10**400], an int and
    not negative, the first division raises OverflowError and no score is
    returned. *)
Lemma anomaly_score_int_overflow :
  0 <= num_value (get (num_in_count ctx_huge_in_count) (PyInt 0)) /\
  0 <= num_value (get (num_out_count ctx_huge_in_count) (PyInt 0)) /\
  anomaly_score_num (mkLMLModel "A" 1000) ctx_huge_in_count 1001
  = Raised OverflowError /\
  forall r, anomaly_score_num (mkLMLModel "A" 1000) ctx_huge_in_count 1001
            <> Returned r.
Proof.
  split; [vm_compute; discriminate|].
  split; [vm_compute; discriminate|].
  assert (E : anomaly_score_num (mkLMLModel "A" 1000) ctx_huge_in_count 1001
              = Raised OverflowError) by (vm_compute; reflexivity).
  split; [exact E|]. intros r H. rewrite E in H. discriminate.
Qed.

End Anomaly.

(* ------------------------------------------------------------------ *)
(** ** process_message and the node tick *)

Section MeshProps.

Open Scope Q_scope.

Variable sqrt : Q -> Q.
Variable time : nat -> Q.
Variable random : nat -> Q.

Lemma existsb_eqb_In (s : string) (l : list string) :
  existsb (String.eqb s) l = true <-> In s l.
Proof.
  rewrite existsb_exists. split.
  - intros (z & Hz & E). apply String.eqb_eq in E. now subst.
  - intro H. exists s. split; [assumption | apply String.eqb_refl].
Qed.

Lemma upd_same (w : World) (k : string) (n : Node) : upd w k n k = n.
Proof.
  unfold upd. now rewrite String.eqb_refl.
Qed.

(** C1: when the node's id is already in the message's path,
    [process_message] returns with the store of nodes (hence the node's
    counters, queue and delivered sink, and every neighbor's queue), the
    message (hence its path) and the input streams exactly as they
    were. *)
Theorem process_message_loop_drop (w : World) (k : string) (msg : Message)
        (e : Env) :
  In (Mesh.id (w k)) (path msg) ->
  process_message sqrt time random w k msg e = Returned (w, msg, e).
Proof.
  intro H. unfold process_message.
  apply existsb_eqb_In in H. now rewrite H.
Qed.

(** What the first half of [process_message] leaves alone, and what it
    does to the path. *)
Lemma annotate_frame (self : Node) (msg : Message) (now : Q) :
  Messages.id (annotate self msg now) = Messages.id msg /\
  src (annotate self msg now) = src msg /\
  dst (annotate self msg now) = dst msg /\
  text (annotate self msg now) = text msg /\
  gps (annotate self msg now) = gps msg /\
  timestamp (annotate self msg now) = timestamp msg /\
  hops (annotate self msg now) = hops msg /\
  path (annotate self msg now) = (path msg ++ [Mesh.id self])%list.
Proof.
  unfold annotate.
  destruct (classify (set_path msg (path msg ++ [Mesh.id self])))
    as [mt conf].
  destruct (MsgType_eqb mt DISTRESS && Qltb 0.7 conf); cbn;
    repeat split; reflexivity.
Qed.

(** C8: when the message has a destination other than the processing
    node and [route], run on the statistics of the node's links, returns
    none, [process_message] returns with the store of nodes unchanged: no
    counter moves, no queue grows, nothing is delivered.  The message
    leaves with its path, type, flag and priority set and its hop count
    as it was. *)
Theorem process_message_no_route (w : World) (k : string) (msg : Message)
        (e : Env) (d : string) (next_hops : list (string * Stats))
        (e' : Env) :
  ~ In (Mesh.id (w k)) (path msg) ->
  dst msg = Some d ->
  d <> Mesh.id (w k) ->
  build_next_hops sqrt random w (w k) (links (w k)) []
                  (mkEnv (S (clock_reads e)) (random_draws e))
  = (next_hops, e') ->
  route next_hops (queue_ctx (w k))
        (annotate (w k) msg (time (clock_reads e))) = Returned None ->
  process_message sqrt time random w k msg e
  = Returned (w, annotate (w k) msg (time (clock_reads e)), e') /\
  hops (annotate (w k) msg (time (clock_reads e))) = hops msg.
Proof.
  intros Hpath Hdst Hne Hbuild Hroute.
  destruct (annotate_frame (w k) msg (time (clock_reads e)))
    as (_ & _ & Ed & _ & _ & _ & Eh & _).
  split; [|exact Eh].
  unfold process_message.
  destruct (existsb (String.eqb (Mesh.id (w k))) (path msg)) eqn:Ex.
  - apply existsb_eqb_In in Ex. contradiction.
  - rewrite Ed, Hdst.
    destruct (String.eqb d (Mesh.id (w k))) eqn:Eq.
    + apply String.eqb_eq in Eq. contradiction.
    + rewrite Hbuild, Hroute. reflexivity.
Qed.

(** A node without links has no candidate, and [route] returns none. *)
Lemma no_links_no_route (w : World) (k : string) (msg : Message) (e : Env) :
  links (w k) = [] ->
  exists e',
    build_next_hops sqrt random w (w k) (links (w k)) [] e = ([], e') /\
    route [] (queue_ctx (w k)) msg = Returned None.
Proof.
  intros ->. exists e. split; reflexivity.
Qed.

Lemma route_loop_total (next_hops : list (string * Stats)) (msg : Message) :
  Forall (fun kv => good_stats (snd kv)) next_hops ->
  forall (best : Q) (bn : option string),
  exists r,
    route_loop next_hops msg best bn = Returned r /\
    (r = bn \/ exists nid, r = Some nid /\ In nid (map fst next_hops)).
Proof.
  induction 1 as [|[nid st] rest Hst Hrest IH]; intros best bn.
  - exists bn. split; [reflexivity | now left].
  - cbn [route_loop]. cbn [snd] in Hst.
    destruct (route_score_total st msg Hst) as [s ->]. cbn [bind].
    destruct (Qltb best s).
    + destruct (IH s (Some nid)) as (r & Er & [Hr|(n & Hr & Hin)]).
      * exists r. split; [exact Er|]. right. exists nid.
        split; [exact Hr | now left].
      * exists r. split; [exact Er|]. right. exists n.
        split; [exact Hr | now right].
    + destruct (IH best bn) as (r & Er & [Hr|(n & Hr & Hin)]).
      * exists r. split; [exact Er | now left].
      * exists r. split; [exact Er|]. right. exists n.
        split; [exact Hr | now right].
Qed.

Lemma dict_set_keys {V : Type} (d : list (string * V)) (k : string) (v : V)
      (k' : string) :
  In k' (map fst (dict_set d k v)) -> k' = k \/ In k' (map fst d).
Proof.
  induction d as [|[k0 v0] d IH]; cbn [dict_set map fst In].
  - intros [H|[]]. now left.
  - destruct (String.eqb k0 k); cbn [map fst In].
    + intros [H|H]; right; [now left | now right].
    + intros [H|H]; [right; now left|].
      destruct (IH H) as [E|E]; [now left | right; now right].
Qed.

Lemma dict_set_Forall {V : Type} (P : string * V -> Prop)
      (Pk : forall k k' v, P (k, v) -> P (k', v))
      (d : list (string * V)) (k : string) (v : V) :
  Forall P d -> P (k, v) -> Forall P (dict_set d k v).
Proof.
  intros Hd Hv. induction Hd as [|[k0 v0] d H0 Hd IH]; cbn [dict_set].
  - constructor; [assumption | constructor].
  - destruct (String.eqb k0 k).
    + constructor; [apply (Pk k k0), Hv | assumption].
    + constructor; assumption.
Qed.

Lemma dict_get_In {V : Type} (d : list (string * V)) (k : string) :
  In k (map fst d) -> exists v, dict_get d k = Some v.
Proof.
  induction d as [|[k0 v0] d IH]; cbn [map fst In dict_get]; [intros []|].
  intros [H|H].
  - subst. rewrite String.eqb_refl. now exists v0.
  - destruct (String.eqb k0 k); [now exists v0 | now apply IH].
Qed.

Hypothesis sqrt_nonneg : forall v, 0 <= sqrt v.

Lemma stats_for_good (link : Link) (s d : Node) (e : Env) :
  good_stats (fst (stats_for sqrt random link s d e)).
Proof.
  unfold stats_for, good_stats. cbn [fst queue distance_to_dst get].
  split; [lia|].
  intros v [= <-]. apply sqrt_nonneg.
Qed.

(** The candidates [process_message] hands to [route] are in range and
    are keyed by the node's links. *)
Lemma build_next_hops_good (w : World) (self : Node)
      (ls : list (string * Link)) :
  forall (acc : list (string * Stats)) (e : Env),
    Forall (fun kv => good_stats (snd kv)) acc ->
    Forall (fun kv => good_stats (snd kv))
           (fst (build_next_hops sqrt random w self ls acc e)) /\
    forall nid,
      In nid (map fst (fst (build_next_hops sqrt random w self ls acc e))) ->
      In nid (map fst acc) \/ In nid (map fst ls).
Proof.
  induction ls as [|[nid link] ls IH]; intros acc e Hacc;
    cbn [build_next_hops].
  - cbn [fst]. split; [assumption | now left].
  - pose proof (stats_for_good link self (w (other_end w self link)) e) as Hg.
    destruct (stats_for sqrt random link self (w (other_end w self link)) e)
      as [st e1].
    cbn [fst] in Hg.
    destruct (IH (dict_set acc nid st) e1) as [H1 H2].
    { apply dict_set_Forall; [intros ? ? ? Hp; exact Hp | assumption
                             | exact Hg]. }
    split; [exact H1|].
    intros n Hn. destruct (H2 n Hn) as [Hk|Hk].
    + destruct (dict_set_keys _ _ _ _ Hk) as [->|Hk'].
      * right. now left.
      * now left.
    + right. now right.
Qed.

(** C9: for every store of nodes, node, message and state of the input
    streams (the square root being non-negative), [process_message]
    returns, and the message it leaves has the id, source, destination,
    text, coordinate and creation timestamp it came with; only type,
    priority, hop count, path and flags can differ. *)
Theorem process_message_frame (w : World) (k : string) (msg : Message)
        (e : Env) :
  exists (w' : World) (msg' : Message) (e' : Env),
    process_message sqrt time random w k msg e = Returned (w', msg', e') /\
    Messages.id msg' = Messages.id msg /\
    src msg' = src msg /\
    dst msg' = dst msg /\
    text msg' = text msg /\
    gps msg' = gps msg /\
    timestamp msg' = timestamp msg.
Proof.
  unfold process_message.
  destruct (existsb (String.eqb (Mesh.id (w k))) (path msg)).
  { exists w, msg, e. repeat split; reflexivity. }
  destruct (annotate_frame (w k) msg (time (clock_reads e)))
    as (Ei & Es & Ed & Et & Eg & Ets & _ & _).
  set (msg1 := annotate (w k) msg (time (clock_reads e))) in *.
  destruct (match dst msg1 with
            | Some d => String.eqb d (Mesh.id (w k))
            | None => true
            end).
  { do 3 eexists. split; [reflexivity|]. repeat split; assumption. }
  destruct (build_next_hops_good w (w k) (links (w k)) []
              (mkEnv (S (clock_reads e)) (random_draws e)))
    as [Hgood Hkeys]; [constructor|].
  destruct (build_next_hops sqrt random w (w k) (links (w k)) []
              (mkEnv (S (clock_reads e)) (random_draws e)))
    as [next_hops e1].
  cbn [fst] in Hgood, Hkeys.
  unfold route.
  assert (Hloop : exists r,
             match next_hops with
             | [] => Returned None
             | _ :: _ => route_loop next_hops msg1 (-1000000000) None
             end = Returned r /\
             (r = None \/
              exists nid, r = Some nid /\ In nid (map fst next_hops))).
  { destruct next_hops as [|kv rest].
    - exists None. split; [reflexivity | now left].
    - apply route_loop_total. exact Hgood. }
  destruct Hloop as (r & -> & Hr). cbn [bind].
  destruct Hr as [->|(nid & -> & Hin)].
  { do 3 eexists. split; [reflexivity|]. repeat split; assumption. }
  destruct (Hkeys nid Hin) as [[]|Hl].
  destruct (dict_get_In _ _ Hl) as [link ->].
  destruct (Qltb (random (random_draws e1)) (base_loss link)).
  - do 3 eexists. split; [reflexivity|]. repeat split; assumption.
  - do 3 eexists. split; [reflexivity|]. cbn. repeat split; assumption.
Qed.

Lemma py_int_decay (c : Z) :
  (0 <= c)%Z -> py_int (inject_Z c * 0.8) = (4 * c / 5)%Z.
Proof.
  intro H. unfold py_int, inject_Z, Qmult. cbn [Qnum Qden].
  rewrite Z.quot_div_nonneg by lia.
  change (Z.pos (1 * 10)) with (2 * 5)%Z.
  replace (c * 8)%Z with (2 * (4 * c))%Z by lia.
  apply Z.div_mul_cancel_l; lia.
Qed.

(** C4, as the code has it: after a tick that finds the queue empty,
    each rolling counter equals 0.8 times its previous value cut down to
    an integer, that is, the integer quotient of four times the value by
    five; the queue-length entry is 0, and queue and delivered sink are as
    before. *)
Theorem idle_tick_decay (w : World) (k : string) (e : Env) :
  _in_queue (w k) = [] ->
  (0 <= in_count (_out_stats (w k)))%Z ->
  (0 <= out_count (_out_stats (w k)))%Z ->
  (0 <= fail_count (_out_stats (w k)))%Z ->
  (0 <= attempts (_out_stats (w k)))%Z ->
  exists w' : World,
    run_tick sqrt time random w k e
    = Returned (w', mkEnv (S (clock_reads e)) (random_draws e)) /\
    _out_stats (w' k)
    = mkOutStats (4 * in_count (_out_stats (w k)) / 5)
                 (4 * out_count (_out_stats (w k)) / 5)
                 (4 * fail_count (_out_stats (w k)) / 5)
                 (4 * attempts (_out_stats (w k)) / 5)
                 0 /\
    _in_queue (w' k) = [] /\
    _delivered (w' k) = _delivered (w k).
Proof.
  intros Hq Hi Ho Hf Ha. unfold run_tick. rewrite Hq.
  cbn [length Nat.min drain bind Z.of_nat].
  rewrite upd_same.
  destruct (anomaly_score_returns
              (model (set_out_stats (w k) (set_queue_len (_out_stats (w k)) 0)))
              (stats_ctx (_out_stats
                 (set_out_stats (w k) (set_queue_len (_out_stats (w k)) 0))))
              (time (clock_reads e))) as (s & Es).
  - unfold Qle. cbn. lia.
  - unfold Qle. cbn. lia.
  - rewrite Es. cbn [bind].
    eexists. split; [reflexivity|].
    rewrite !upd_same. unfold decay.
    cbn [set_out_stats set_model _out_stats _in_queue _delivered
         set_queue_len in_count out_count fail_count attempts queue_len].
    rewrite !py_int_decay by assumption.
    repeat split; try reflexivity. exact Hq.
Qed.

End MeshProps.

(* ------------------------------------------------------------------ *)
(** ** The mesh theorems at concrete inputs *)

Section MeshRuns.

Open Scope Q_scope.
Open Scope string_scope.

Lemma demo_sqrt_nonneg (v : Q) : 0 <= demo_sqrt v.
Proof.
  unfold demo_sqrt. apply Qdiv_nonneg; [|reflexivity].
  change 0 with (inject_Z 0). rewrite <- Zle_Qle. apply Z.sqrt_nonneg.
Qed.

(** The first message of the demo at its source: A forwards it to B,
    its only neighbor. *)
Example demo_forward_A_to_B :
  match process_message demo_sqrt demo_time demo_random demo_world "A"
                        msg_debris env0 with
  | Returned (w', msg', e') =>
      _in_queue (w' "B") = [msg'] /\
      path msg' = ["A"] /\ hops msg' = 1%Z /\ mtype msg' = GPS /\
      priority msg' == 0.85 /\
      _out_stats (w' "A") = mkOutStats 0 1 0 1 0 /\
      random_draws e' = 3%nat
  | Raised _ => False
  end.
Proof.
  vm_compute. repeat split.
Qed.

(** The same message when the generator draws 0: the transmission is
    lost, the failure is counted and B receives nothing. *)
Example demo_loss_A_to_B :
  match process_message demo_sqrt demo_time (fun _ => 0) demo_world "A"
                        msg_debris env0 with
  | Returned (w', msg', _) =>
      _in_queue (w' "B") = [] /\ hops msg' = 0%Z /\
      _out_stats (w' "A") = mkOutStats 0 0 1 1 0
  | Raised _ => False
  end.
Proof.
  vm_compute. repeat split.
Qed.

(** The message reaching its destination D: it joins the delivered sink
    and no counter moves. *)
Example demo_deliver_at_D :
  match process_message demo_sqrt demo_time demo_random demo_world "D"
                        msg_debris env0 with
  | Returned (w', msg', _) =>
      _delivered (w' "D") = [msg'] /\ path msg' = ["D"] /\
      _out_stats (w' "D") = mkOutStats 0 0 0 0 0
  | Raised _ => False
  end.
Proof.
  vm_compute. repeat split.
Qed.

(** A message that passed through A comes back to A. *)
Lemma process_message_loop_drop_witness :
  process_message demo_sqrt demo_time demo_random demo_world "A"
                  msg_seen_by_A env0
  = Returned (demo_world, msg_seen_by_A, env0).
Proof.
  apply process_message_loop_drop. cbn. right. left. reflexivity.
Defined.

(** A message for D handed to a node that has no link at all. *)
Lemma process_message_no_route_witness :
  process_message demo_sqrt demo_time demo_random demo_world "Z"
                  msg_debris env0
  = Returned (demo_world,
              annotate (demo_world "Z") msg_debris (demo_time 0),
              mkEnv 1 0) /\
  hops (annotate (demo_world "Z") msg_debris (demo_time 0)) = hops msg_debris.
Proof.
  apply (process_message_no_route demo_sqrt demo_time demo_random
                                  demo_world "Z" msg_debris env0 "D" []
                                  (mkEnv 1 0)).
  - intros [].
  - reflexivity.
  - cbn. discriminate.
  - reflexivity.
  - reflexivity.
Defined.

(** The first message of the demo, processed by its source A. *)
Lemma process_message_frame_witness :
  exists (w' : World) (msg' : Message) (e' : Env),
    process_message demo_sqrt demo_time demo_random demo_world "A"
                    msg_debris env0 = Returned (w', msg', e') /\
    Messages.id msg' = Messages.id msg_debris /\
    src msg' = src msg_debris /\
    dst msg' = dst msg_debris /\
    text msg' = text msg_debris /\
    gps msg' = gps msg_debris /\
    timestamp msg' = timestamp msg_debris.
Proof.
  exact (process_message_frame demo_sqrt demo_time demo_random
                               demo_sqrt_nonneg demo_world "A" msg_debris
                               env0).
Defined.

(** Counters 10, 7, 3 and 1 become 8, 5, 2 and 0. *)
Lemma idle_tick_decay_witness :
  exists w' : World,
    run_tick demo_sqrt demo_time demo_random
             (world_with_counters 10 7 3 1) "A" env0
    = Returned (w', mkEnv 1 0) /\
    _out_stats (w' "A") = mkOutStats 8 5 2 0 0 /\
    _in_queue (w' "A") = [] /\
    _delivered (w' "A") = _delivered (world_with_counters 10 7 3 1 "A").
Proof.
  apply (idle_tick_decay demo_sqrt demo_time demo_random
                         (world_with_counters 10 7 3 1) "A" env0).
  - reflexivity.
  - cbn. lia.
  - cbn. lia.
  - cbn. lia.
  - cbn. lia.
Defined.

(** C4 as stated fails: a counter at 1 is at 0 after one idle tick, not
    at 0.8. *)
Lemma idle_tick_not_exact_factor :
  _in_queue (world_with_counters 1 0 0 0 "A") = [] /\
  exists (w' : World) (e' : Env),
    run_tick demo_sqrt demo_time demo_random
             (world_with_counters 1 0 0 0) "A" env0 = Returned (w', e') /\
    in_count (_out_stats (w' "A")) = 0%Z /\
    ~ inject_Z (in_count (_out_stats (w' "A")))
      == 0.8 * inject_Z (in_count (_out_stats
                                     (world_with_counters 1 0 0 0 "A"))).
Proof.
  split; [reflexivity|].
  do 2 eexists. split; [reflexivity|]. split; [reflexivity|].
  vm_compute. intro H. discriminate H.
Qed.

End MeshRuns.

(* ------------------------------------------------------------------ *)
(** ** prioritize *)

Section PrioritizeProps.

Open Scope Q_scope.
Open Scope string_scope.

Lemma softclip_inside (v lo hi : Q) :
  lo <= v -> v <= hi -> softclip v lo hi == v.
Proof.
  intros Hl Hh. unfold softclip.
  destruct (py_min_cases hi v) as [[H1 E1]|[H1 E1]]; rewrite E1.
  - destruct (py_max_cases lo v) as [[H2 E2]|[H2 E2]]; rewrite E2; lra.
  - destruct (py_max_cases lo hi) as [[H2 E2]|[H2 E2]]; rewrite E2; lra.
Qed.

Lemma py_max_mono (u u' v : Q) : u <= u' -> py_max u v <= py_max u' v.
Proof.
  intro H.
  destruct (py_max_cases u v) as [[H1 E1]|[H1 E1]]; rewrite E1;
    destruct (py_max_cases u' v) as [[H2 E2]|[H2 E2]]; rewrite E2; lra.
Qed.

Lemma softclip_mono (u v lo hi : Q) :
  u <= v -> softclip u lo hi <= softclip v lo hi.
Proof.
  intro H. unfold softclip.
  destruct (py_min_cases hi u) as [[H1 E1]|[H1 E1]]; rewrite E1;
    destruct (py_min_cases hi v) as [[H2 E2]|[H2 E2]]; rewrite E2;
    match goal with |- py_max ?l ?p <= py_max ?l ?q =>
      destruct (py_max_cases l p) as [[H3 E3]|[H3 E3]];
      destruct (py_max_cases l q) as [[H4 E4]|[H4 E4]];
      rewrite ?E3, ?E4
    end; lra.
Qed.

Lemma Qdiv_le_mono (u v c : Q) : 0 < c -> u <= v -> u / c <= v / c.
Proof.
  intros Hc H. unfold Qdiv. apply Qmult_le_compat_r; [exact H|].
  apply Qlt_le_weak, Qinv_lt_0_compat, Hc.
Qed.

(** The value [prioritize] returns, before and after the override. *)
Lemma prioritize_value (msg : Message) (ctx : NetCtx) (now : Q) :
  exists rec cong : Q,
    (0 <= rec /\ rec <= 1) /\ (0.2 <= cong /\ cong <= 1) /\
    (prioritize msg ctx now
     == base_of (mtype msg) * 0.7 + 0.25 * rec + 0.05 * cong \/
     (mtype msg = GPS /\
      (get (dict_get (meta msg) "tag_distress") false = true \/
       contains "help" (lower (text msg)) = true) /\
      prioritize msg ctx now
      == py_max (base_of (mtype msg) * 0.7 + 0.25 * rec + 0.05 * cong)
                0.85)) /\
    (mtype msg = GPS ->
     (get (dict_get (meta msg) "tag_distress") false = true \/
      contains "help" (lower (text msg)) = true) ->
     prioritize msg ctx now
     == py_max (base_of (mtype msg) * 0.7 + 0.25 * rec + 0.05 * cong) 0.85).
Proof.
  unfold prioritize.
  set (rec := softclip (1.0 - (now - timestamp msg) / 600.0) 0.0 1.0).
  set (cong := softclip (1.0 - get (ctx_queue_len ctx) 0 / 50.0) 0.2 1.0).
  exists rec, cong.
  assert (Hr : 0 <= rec /\ rec <= 1).
  { subst rec. match goal with |- 0 <= softclip ?v ?l ?h /\ _ =>
      destruct (softclip_bounds v l h); [lra | split; lra] end. }
  assert (Hc : 0.2 <= cong /\ cong <= 1).
  { subst cong. match goal with |- _ <= softclip ?v ?l ?h /\ _ =>
      destruct (softclip_bounds v l h); [lra | split; lra] end. }
  clearbody rec cong.
  split; [exact Hr|]. split; [exact Hc|].
  assert (Hb : 0.3 <= base_of (mtype msg) /\ base_of (mtype msg) <= 0.95)
    by (destruct (mtype msg); cbn [base_of]; split; lra).
  set (p0 := base_of (mtype msg) * 0.7 + 0.25 * rec + 0.05 * cong).
  assert (Hp0 : 0.22 <= p0 /\ p0 <= 0.965) by (subst p0; split; lra).
  destruct (py_max_lb p0 0.85) as [M1 M2].
  assert (M3 : py_max p0 0.85 <= 0.965).
  { destruct (py_max_cases p0 0.85) as [[_ ->]|[_ ->]]; lra. }
  clearbody p0.
  destruct (MsgType_eqb (mtype msg) GPS) eqn:Eg; cbn [andb].
  - assert (Hg : mtype msg = GPS)
      by (destruct (mtype msg); try discriminate; reflexivity).
    destruct (get (dict_get (meta msg) "tag_distress") false
              || contains "help" (lower (text msg))) eqn:Eo.
    + apply orb_true_iff in Eo. split.
      * right. split; [exact Hg|]. split; [exact Eo|].
        apply softclip_inside; lra.
      * intros _ _. apply softclip_inside; lra.
    + apply orb_false_iff in Eo. destruct Eo as [E1 E2]. split.
      * left. apply softclip_inside; lra.
      * intros _ [H|H]; congruence.
  - split.
    + left. apply softclip_inside; lra.
    + intros Hg. rewrite Hg in Eg. discriminate.
Qed.

(** On exact values, whatever the message, the context and the clock,
    the result lies between 0.22 and 0.965; the final clip to [0, 1] never
    cuts. *)
Lemma prioritize_range (msg : Message) (ctx : NetCtx) (now : Q) :
  0.22 <= prioritize msg ctx now /\ prioritize msg ctx now <= 0.965.
Proof.
  destruct (prioritize_value msg ctx now)
    as (rec & cong & Hr & Hc & [E|(_ & _ & E)] & _); rewrite E.
  - assert (Hb : 0.3 <= base_of (mtype msg) /\ base_of (mtype msg) <= 0.95)
      by (destruct (mtype msg); cbn [base_of]; split; lra).
    split; lra.
  - assert (Hb : 0.3 <= base_of (mtype msg) /\ base_of (mtype msg) <= 0.95)
      by (destruct (mtype msg); cbn [base_of]; split; lra).
    match goal with |- _ <= py_max ?u ?v /\ _ =>
      destruct (py_max_lb u v);
      destruct (py_max_cases u v) as [[_ ->]|[_ ->]] end; split; lra.
Qed.

(** X1: on the context [process_message] passes, the length of the
    node's queue under [queue_len], [prioritize] returns a value between
    0.22 and 0.965 whatever the message and the clock, so the final clip
    to [0, 1] never cuts; this is the priority the message carries once
    the node has annotated it. *)
Theorem annotate_priority_range (self : Node) (msg : Message) (now : Q) :
  (0.22 <= prioritize msg (queue_ctx self) now /\
   prioritize msg (queue_ctx self) now <= 0.965) /\
  (0.22 <= priority (annotate self msg now) /\
   priority (annotate self msg now) <= 0.965).
Proof.
  split; [apply prioritize_range|].
  unfold annotate.
  destruct (classify _) as [mtype conf].
  cbn [priority set_priority]. apply prioritize_range.
Qed.

(** X2: a GPS message that carries the distress tag, or whose text
    contains [help] in any letter case, gets a priority of at least 0.85
    whatever its age and the queue length. *)
Theorem prioritize_gps_override (msg : Message) (ctx : NetCtx) (now : Q) :
  mtype msg = GPS ->
  get (dict_get (meta msg) "tag_distress") false = true \/
  contains "help" (lower (text msg)) = true ->
  0.85 <= prioritize msg ctx now.
Proof.
  intros Hg Ho.
  destruct (prioritize_value msg ctx now) as (rec & cong & _ & _ & _ & E).
  rewrite (E Hg Ho).
  match goal with |- _ <= py_max ?u ?v => destruct (py_max_lb u v) end.
  assumption.
Qed.

Lemma prioritize_gps_override_witness :
  0.85 <= prioritize msg_gps_help (ctx_queue 100) 5000.
Proof.
  apply prioritize_gps_override.
  - reflexivity.
  - right. reflexivity.
Defined.


(** X3: a DISTRESS message always gets a strictly higher priority than a
    STATUS or UNKNOWN message, whatever the two ages and the two queue
    lengths. *)
Theorem prioritize_distress_dominates (m1 m2 : Message) (c1 c2 : NetCtx)
        (now1 now2 : Q) :
  mtype m1 = DISTRESS ->
  mtype m2 = STATUS \/ mtype m2 = UNKNOWN ->
  prioritize m2 c2 now2 < prioritize m1 c1 now1.
Proof.
  intros H1 H2.
  destruct (prioritize_value m1 c1 now1)
    as (r1 & g1 & Hr1 & Hg1 & [E1|(G1 & _)] & _); [|congruence].
  destruct (prioritize_value m2 c2 now2)
    as (r2 & g2 & Hr2 & Hg2 & [E2|(G2 & _)] & _);
    [|destruct H2; congruence].
  rewrite E1, E2, H1. destruct H2 as [-> | ->]; cbn [base_of]; lra.
Qed.

(** A distress call a day old behind a long queue, against a status
    report just created with an empty queue. *)
Lemma prioritize_distress_dominates_witness :
  prioritize msg_status (ctx_queue 0) 1000
  < prioritize msg_distress (ctx_queue 1000) 86400.
Proof.
  apply prioritize_distress_dominates.
  - reflexivity.
  - left. reflexivity.
Defined.


(** X4: for one message, a later clock reading and a longer queue never
    raise the priority. *)
Theorem prioritize_antitone (msg : Message) (c1 c2 : NetCtx)
        (now1 now2 : Q) :
  now1 <= now2 ->
  get (ctx_queue_len c1) 0 <= get (ctx_queue_len c2) 0 ->
  prioritize msg c2 now2 <= prioritize msg c1 now1.
Proof.
  intros Hn Hq. unfold prioritize.
  assert (Hr : softclip (1.0 - (now2 - timestamp msg) / 600.0) 0.0 1.0
               <= softclip (1.0 - (now1 - timestamp msg) / 600.0) 0.0 1.0).
  { apply softclip_mono.
    assert (H : (now1 - timestamp msg) / 600.0
                <= (now2 - timestamp msg) / 600.0)
      by (apply Qdiv_le_mono; lra).
    lra. }
  assert (Hc : softclip (1.0 - get (ctx_queue_len c2) 0 / 50.0) 0.2 1.0
               <= softclip (1.0 - get (ctx_queue_len c1) 0 / 50.0) 0.2 1.0).
  { apply softclip_mono.
    assert (H : get (ctx_queue_len c1) 0 / 50.0
                <= get (ctx_queue_len c2) 0 / 50.0)
      by (apply Qdiv_le_mono; lra).
    lra. }
  set (r1 := softclip (1.0 - (now1 - timestamp msg) / 600.0) 0.0 1.0) in *.
  set (r2 := softclip (1.0 - (now2 - timestamp msg) / 600.0) 0.0 1.0) in *.
  set (g1 := softclip (1.0 - get (ctx_queue_len c1) 0 / 50.0) 0.2 1.0) in *.
  set (g2 := softclip (1.0 - get (ctx_queue_len c2) 0 / 50.0) 0.2 1.0) in *.
  clearbody r1 r2 g1 g2.
  apply softclip_mono.
  destruct (MsgType_eqb (mtype msg) GPS
            && (get (dict_get (meta msg) "tag_distress") false
                || contains "help" (lower (text msg)))).
  - apply py_max_mono. lra.
  - lra.
Qed.

Lemma prioritize_antitone_witness :
  prioritize msg_status (ctx_queue 30) 1300
  <= prioritize msg_status (ctx_queue 10) 1100.
Proof.
  apply prioritize_antitone.
  - lra.
  - cbn. lra.
Defined.

End PrioritizeProps.

(* ------------------------------------------------------------------ *)
(** ** classify: the type returned *)

Section ClassifyProps.

Open Scope Q_scope.
Open Scope string_scope.

Lemma all_space_lower (s : string) : all_space (lower s) = all_space s.
Proof.
  induction s as [|c s IH]; cbn [lower all_space]; [reflexivity|].
  now rewrite is_space_lower_char, IH.
Qed.

Lemma all_space_lstrip (s : string) :
  all_space (lstrip s) = true -> all_space s = true.
Proof.
  induction s as [|c s IH]; cbn [lstrip all_space]; [reflexivity|].
  destruct (is_space c) eqn:Ec; cbn [andb].
  - exact IH.
  - cbn [all_space]. now rewrite Ec.
Qed.

Lemma all_space_rev_string (s acc : string) :
  all_space (rev_string s acc) = all_space s && all_space acc.
Proof.
  revert acc. induction s as [|c s IH]; intro acc; cbn [rev_string all_space].
  - reflexivity.
  - rewrite IH. cbn [all_space].
    destruct (is_space c), (all_space s), (all_space acc); reflexivity.
Qed.

Lemma rev_string_empty (s acc : string) :
  rev_string s acc = EmptyString -> s = EmptyString /\ acc = EmptyString.
Proof.
  revert acc. induction s as [|c s IH]; intro acc; cbn [rev_string].
  - intros ->. split; reflexivity.
  - intro H. destruct (IH _ H) as [_ Habs]. discriminate.
Qed.

(** [strip] leaves nothing exactly of the texts made of whitespace. *)
Lemma strip_empty_iff (s : string) :
  String.length (strip s) = O <-> all_space s = true.
Proof.
  split.
  - intro H.
    assert (E : strip s = EmptyString)
      by (destruct (strip s); [reflexivity | discriminate]).
    unfold strip, rstrip in E.
    apply rev_string_empty in E. destruct E as [E _].
    apply all_space_lstrip.
    assert (A : all_space (rev_string (lstrip s) EmptyString) = true).
    { apply all_space_lstrip. now rewrite E. }
    rewrite all_space_rev_string in A.
    apply andb_true_iff in A. tauto.
  - intro H. unfold strip.
    assert (E : lstrip s = EmptyString).
    { induction s as [|c s IH]; cbn [lstrip all_space] in *; [reflexivity|].
      apply andb_true_iff in H. destruct H as [-> H]. now apply IH. }
    now rewrite E.
Qed.

Lemma max_key_scores_type (msg : Message) :
  fst (max_key (fst (scores msg)) (snd (scores msg))) <> UNKNOWN.
Proof.
  unfold scores. cbn [fst snd max_key].
  repeat match goal with
         | |- context [if Qltb ?u ?v then _ else _] =>
             destruct (Qltb u v); cbn [fst snd]
         end; discriminate.
Qed.

(** X5: [classify] returns UNKNOWN exactly for the messages whose text is
    empty or whitespace-only and that carry no coordinate. *)
Theorem classify_unknown_iff (msg : Message) :
  fst (classify msg) = UNKNOWN <->
  all_space (text msg) = true /\ gps msg = None.
Proof.
  split.
  - intro H.
    destruct (all_space (text msg)) eqn:Ea.
    + destruct (gps msg) eqn:Eg; [|split; reflexivity].
      exfalso. apply (max_key_scores_type msg).
      rewrite <- classify_fst_nonempty; [exact H | right; congruence].
    + exfalso. apply (max_key_scores_type msg).
      rewrite <- classify_fst_nonempty; [exact H | left].
      intro E. apply strip_empty_iff in E.
      rewrite all_space_lower in E. congruence.
  - intros [Ha Hg]. unfold classify.
    rewrite (strip_lower_all_space _ Ha), Hg.
    destruct (scores msg). reflexivity.
Qed.

(** X6: without a coordinate and with a text that is not blank, [classify]
    returns DISTRESS exactly when no other keyword count exceeds the
    distress count, ties included; in particular a text without any
    keyword is classified DISTRESS with confidence 0.1. *)
Theorem classify_distress_tie_break (msg : Message) :
  gps msg = None ->
  all_space (text msg) = false ->
  (fst (classify msg) = DISTRESS <->
   (kw_count GPS_KEYWORDS (lower (text msg))
    <= kw_count DISTRESS_KEYWORDS (lower (text msg)) /\
    kw_count SUPPLY_KEYWORDS (lower (text msg))
    <= kw_count DISTRESS_KEYWORDS (lower (text msg)) /\
    kw_count STATUS_KEYWORDS (lower (text msg))
    <= kw_count DISTRESS_KEYWORDS (lower (text msg)))%Z) /\
  (kw_count DISTRESS_KEYWORDS (lower (text msg)) = 0%Z ->
   kw_count GPS_KEYWORDS (lower (text msg)) = 0%Z ->
   kw_count SUPPLY_KEYWORDS (lower (text msg)) = 0%Z ->
   kw_count STATUS_KEYWORDS (lower (text msg)) = 0%Z ->
   classify msg = (DISTRESS, 0.1)).
Proof.
  intros Hg Ha.
  assert (Hne : String.length (strip (lower (text msg))) <> O).
  { intro E. apply strip_empty_iff in E. rewrite all_space_lower in E.
    congruence. }
  assert (Hiff :
    fst (classify msg) = DISTRESS <->
    (kw_count GPS_KEYWORDS (lower (text msg))
     <= kw_count DISTRESS_KEYWORDS (lower (text msg)) /\
     kw_count SUPPLY_KEYWORDS (lower (text msg))
     <= kw_count DISTRESS_KEYWORDS (lower (text msg)) /\
     kw_count STATUS_KEYWORDS (lower (text msg))
     <= kw_count DISTRESS_KEYWORDS (lower (text msg)))%Z).
  { rewrite classify_fst_nonempty by (left; exact Hne).
    unfold scores. rewrite Hg.
    generalize (kw_count DISTRESS_KEYWORDS (lower (text msg)))
               (kw_count GPS_KEYWORDS (lower (text msg)))
               (kw_count SUPPLY_KEYWORDS (lower (text msg)))
               (kw_count STATUS_KEYWORDS (lower (text msg))).
    intros d g s t. cbn [fst snd max_key].
    rewrite Qltb_inject_Z.
    destruct (Z.ltb_spec d g) as [H1|H1]; cbn [snd].
    - rewrite Qltb_inject_Z.
      destruct (Z.ltb_spec g s) as [H2|H2]; cbn [snd]; rewrite Qltb_inject_Z.
      + destruct (Z.ltb_spec s t); cbn [fst]; split; try discriminate; lia.
      + destruct (Z.ltb_spec g t); cbn [fst]; split; try discriminate; lia.
    - rewrite Qltb_inject_Z.
      destruct (Z.ltb_spec d s) as [H2|H2]; cbn [snd]; rewrite Qltb_inject_Z.
      + destruct (Z.ltb_spec s t); cbn [fst]; split; try discriminate; lia.
      + destruct (Z.ltb_spec d t); cbn [fst]; split; try discriminate;
          try lia; reflexivity. }
  split; [exact Hiff|].
  intros Ed Eg Es Et.
  assert (Hd : fst (classify msg) = DISTRESS) by (apply Hiff; lia).
  destruct (classify_cases msg) as [E|[(mt & sc & Hmt & E)|E]];
    rewrite E in Hd |- *; cbn [fst] in Hd;
    try discriminate; try contradiction.
  rewrite Ed. reflexivity.
Qed.

Lemma classify_distress_tie_break_witness :
  classify msg_plain = (DISTRESS, 0.1).
Proof.
  apply (proj2 (classify_distress_tie_break msg_plain eq_refl eq_refl));
    reflexivity.
Defined.


End ClassifyProps.

(* ------------------------------------------------------------------ *)
(** ** anomaly_score without failures *)

Section AnomalyProps.

Open Scope Q_scope.
Open Scope string_scope.

Lemma softclip_le (v lo hi c : Q) :
  lo <= c -> v <= c -> softclip v lo hi <= c.
Proof.
  intros Hl Hv. unfold softclip.
  destruct (py_min_cases hi v) as [[H1 E1]|[H1 E1]]; rewrite E1;
    match goal with |- py_max ?l ?p <= _ =>
      destruct (py_max_cases l p) as [[H2 E2]|[H2 E2]]; rewrite E2
    end; lra.
Qed.

Lemma py_abs_diff_le (u v : Q) : 0 <= u -> 0 <= v -> py_abs (u - v) <= u + v.
Proof.
  intros Hu Hv. unfold py_abs.
  destruct (Qltb_spec (u - v) 0); lra.
Qed.

(** On exact values: with a failure count of zero, and inbound and
    outbound counts not negative, the score is at most 0.4. *)
Lemma anomaly_score_values_without_failures (self : LMLModel)
      (ctx : NetCtx) (now : Q) :
  0 <= get (ctx_in_count ctx) 0 ->
  0 <= get (ctx_out_count ctx) 0 ->
  get (ctx_fail_count ctx) 0 == 0 ->
  exists s : Q,
    anomaly_score self ctx now = Returned (s, mkLMLModel (node_id self) now)
    /\ s <= 0.4.
Proof.
  intros Hin Hout Hf. unfold anomaly_score.
  destruct (py_max_lb 0.001 (now - _last_tick self)) as [Hdt _].
  set (dt := py_max 0.001 (now - _last_tick self)) in *.
  assert (Hdt0 : 0 < dt) by lra.
  destruct (py_max_lb 1.0 (get (ctx_attempts ctx) 1)) as [Hatt _].
  set (att := py_max 1.0 (get (ctx_attempts ctx) 1)) in *.
  rewrite !(py_div_pos _ dt Hdt0). cbn [bind].
  rewrite (py_div_pos _ att) by lra. cbn [bind].
  rewrite (py_div_pos _ dt Hdt0). cbn [bind].
  pose proof (Qdiv_nonneg _ _ Hin Hdt0) as Hir.
  pose proof (Qdiv_nonneg _ _ Hout Hdt0) as Hor.
  clearbody dt att.
  set (ir := get (ctx_in_count ctx) 0 / dt) in *.
  set (orate := get (ctx_out_count ctx) 0 / dt) in *.
  clearbody ir orate.
  rewrite py_div_pos by lra. cbn [bind].
  eexists. split; [reflexivity|].
  apply softclip_le; [lra|].
  assert (F : get (ctx_fail_count ctx) 0 / att / dt == 0)
    by (rewrite Hf; unfold Qdiv; ring).
  rewrite F.
  match goal with |- context [softclip ?v 0.0 1.0] =>
    destruct (softclip_bounds v 0.0 1.0) as [_ Hq]; [lra|];
    set (qterm := softclip v 0.0 1.0) in * end.
  clearbody qterm.
  assert (I : 0.1 * py_abs (ir - orate) / (1 + ir + orate) <= 0.1).
  { apply Qle_shift_div_r; [lra|].
    pose proof (py_abs_diff_le ir orate Hir Hor). lra. }
  set (imb := 0.1 * py_abs (ir - orate) / (1 + ir + orate)) in *.
  clearbody imb. lra.
Qed.

(** X7: with no failed transmission counted, every entry a float or an
    int that converts, and inbound and outbound counts between 0 and 1e9
    (where the binary64 rates are finite and rounding stays far below the
    margin left by [1 + in_rate + out_rate]), [anomaly_score] returns at
    most 0.4: queue build-up and traffic imbalance alone never reach the
    0.8 level that [run] tests. *)
Theorem anomaly_score_without_failures (self : LMLModel) (c : NumCtx)
        (now : Q) :
  ctx_converts c ->
  0 <= num_value (get (num_in_count c) (PyInt 0)) <= 1000000000 ->
  0 <= num_value (get (num_out_count c) (PyInt 0)) <= 1000000000 ->
  num_value (get (num_fail_count c) (PyInt 0)) == 0 ->
  exists s : Q,
    anomaly_score_num self c now
    = Returned (s, mkLMLModel (node_id self) now)
    /\ s <= 0.4.
Proof.
  intros Hc [Hin _] [Hout _] Hf.
  rewrite (anomaly_score_num_ctx self c now Hc).
  apply anomaly_score_values_without_failures.
  - now rewrite ctx_values_in.
  - now rewrite ctx_values_out.
  - now rewrite ctx_values_fail.
Qed.

(** A queue of 200 and ten messages in, none out, no failure. *)
Lemma anomaly_score_without_failures_witness :
  exists s : Q,
    anomaly_score_num (mkLMLModel "A" 1000) (num_ctx 200 10 0 0 0) 1001
    = Returned (s, mkLMLModel "A" 1001) /\ s <= 0.4.
Proof.
  apply (anomaly_score_without_failures
           (mkLMLModel "A" 1000) (num_ctx 200 10 0 0 0) 1001).
  - repeat split.
  - split; vm_compute; discriminate.
  - split; vm_compute; discriminate.
  - reflexivity.
Defined.


End AnomalyProps.

(* ------------------------------------------------------------------ *)
(** ** route: the candidate returned, and when it raises *)

Section RouteProps.

Open Scope Q_scope.
Open Scope string_scope.

(** What the loop of [route] returns: the node it started with when no
    candidate beats the starting score, else the first candidate whose
    score no other candidate beats. *)
Lemma route_loop_spec (msg : Message) (next_hops : list (string * Stats)) :
  forall (best : Q) (bn r : option string),
    route_loop next_hops msg best bn = Returned r ->
    (r = bn /\
     forall kv, In kv next_hops ->
       exists s', route_score (snd kv) msg = Returned s' /\ s' <= best) \/
    (exists pre nid st post s,
        r = Some nid /\
        next_hops = (pre ++ (nid, st) :: post)%list /\
        route_score st msg = Returned s /\ best < s /\
        (forall kv, In kv pre ->
           exists s', route_score (snd kv) msg = Returned s' /\ s' < s) /\
        (forall kv, In kv post ->
           exists s', route_score (snd kv) msg = Returned s' /\ s' <= s)).
Proof.
  induction next_hops as [|[n0 st0] rest IH]; intros best bn r H.
  - cbn [route_loop] in H. injection H as <-. left.
    split; [reflexivity | intros kv []].
  - cbn [route_loop] in H.
    destruct (route_score st0 msg) as [s0|e0] eqn:E0; cbn [bind] in H;
      [|discriminate].
    destruct (Qltb_spec best s0) as [Hb|Hb].
    + destruct (IH _ _ _ H)
        as [[-> Hall]|(pre & nid & st & post & s & -> & -> & Es & Hs & Hpre
                       & Hpost)].
      * right. exists [], n0, st0, rest, s0.
        repeat split; try assumption; try reflexivity.
        intros kv [].
      * right. exists ((n0, st0) :: pre), nid, st, post, s.
        repeat split; try assumption; try reflexivity; [lra|].
        intros kv [<-|Hin]; [|now apply Hpre].
        exists s0. split; [exact E0 | exact Hs].
    + apply Qnot_lt_le in Hb.
      destruct (IH _ _ _ H)
        as [[-> Hall]|(pre & nid & st & post & s & -> & -> & Es & Hs & Hpre
                       & Hpost)].
      * left. split; [reflexivity|].
        intros kv [<-|Hin]; [|now apply Hall].
        exists s0. split; [exact E0 | exact Hb].
      * right. exists ((n0, st0) :: pre), nid, st, post, s.
        repeat split; try assumption; try reflexivity.
        intros kv [<-|Hin]; [|now apply Hpre].
        exists s0. split; [exact E0 | lra].
Qed.

(** X8: when [route] returns a neighbor id, that id is a key of the
    candidate mapping, its score is above -1e9, every candidate before it
    in iteration order scores strictly less and every candidate after it
    scores at most as much: [route] returns the first candidate of maximal
    score. *)
Theorem route_first_maximum (next_hops : list (string * Stats))
        (ctx : NetCtx) (msg : Message) (nid : string) :
  route next_hops ctx msg = Returned (Some nid) ->
  exists pre st post s,
    next_hops = (pre ++ (nid, st) :: post)%list /\
    route_score st msg = Returned s /\ -1000000000 < s /\
    (forall kv, In kv pre ->
       exists s', route_score (snd kv) msg = Returned s' /\ s' < s) /\
    (forall kv, In kv post ->
       exists s', route_score (snd kv) msg = Returned s' /\ s' <= s).
Proof.
  unfold route. destruct next_hops as [|kv rest]; [discriminate|].
  intro H. apply route_loop_spec in H.
  destruct H as [[Habs _]|(pre & n & st & post & s & Hr & -> & Es & Hs & Hpre
                           & Hpost)]; [discriminate|].
  injection Hr as <-. exists pre, st, post, s. repeat split; assumption.
Qed.

Lemma route_first_maximum_witness :
  exists pre st post s,
    [("C", stats_dead_signal 3); ("B", stats_near)]
    = (pre ++ ("B", st) :: post)%list /\
    route_score st msg_debris = Returned s /\ -1000000000 < s /\
    (forall kv, In kv pre ->
       exists s', route_score (snd kv) msg_debris = Returned s' /\ s' < s) /\
    (forall kv, In kv post ->
       exists s', route_score (snd kv) msg_debris = Returned s' /\ s' <= s).
Proof.
  exact (route_first_maximum [("C", stats_dead_signal 3); ("B", stats_near)]
                             ctx_empty msg_debris "B" eq_refl).
Defined.


Lemma route_score_raises_iff (st : Stats) (msg : Message) :
  (exists e, route_score st msg = Raised e) <->
  (get (queue st) 0%Z = (-1)%Z \/
   exists d, distance_to_dst st = Some d /\ d == -1).
Proof.
  unfold route_score, py_div.
  set (q := get (queue st) 0%Z).
  destruct (Qeq_bool (1.0 + inject_Z q) 0) eqn:Eq.
  - cbn [bind]. split; [|intros _; eexists; reflexivity].
    intros _. left. apply Qeq_bool_iff in Eq. clearbody q.
    apply inject_Z_injective. change (inject_Z (-1)) with (-1). lra.
  - cbn [bind].
    assert (Hq : q <> (-1)%Z).
    { intro E. rewrite E in Eq. discriminate. }
    destruct (distance_to_dst st) as [d|].
    + destruct (Qeq_bool (1.0 + d) 0) eqn:Ed; cbn [bind].
      * split; [|intros _; eexists; reflexivity].
        intros _. right. exists d. split; [reflexivity|].
        apply Qeq_bool_iff in Ed. lra.
      * split; [intros [e He]; discriminate|].
        intros [H|(d' & [= <-] & Hd)]; [contradiction|].
        assert (E : Qeq_bool (1.0 + d) 0 = true)
          by (apply Qeq_bool_iff; lra).
        congruence.
    + cbn [bind]. split; [intros [e He]; discriminate|].
      intros [H|(d' & Hd & _)]; [contradiction | discriminate].
Qed.

Lemma route_loop_raises_iff (msg : Message)
      (next_hops : list (string * Stats)) :
  forall (best : Q) (bn : option string),
    (exists e, route_loop next_hops msg best bn = Raised e) <->
    Exists (fun kv => exists e, route_score (snd kv) msg = Raised e)
           next_hops.
Proof.
  induction next_hops as [|[n0 st0] rest IH]; intros best bn;
    cbn [route_loop].
  - split; [intros [e He]; discriminate | intro H; inversion H].
  - destruct (route_score st0 msg) as [s0|e0] eqn:E0; cbn [bind].
    + assert (Hno : ~ exists e, route_score (snd (n0, st0)) msg = Raised e).
      { cbn [snd]. rewrite E0. intros [e He]. discriminate. }
      destruct (Qltb best s0); rewrite IH; split; intro H;
        try (now apply Exists_cons_tl);
        inversion H; subst; try contradiction; assumption.
    + split; [|intros _; eexists; reflexivity].
      intros _. apply Exists_cons_hd. cbn [snd]. rewrite E0.
      eexists. reflexivity.
Qed.

(** X9: [route] raises whenever some candidate has a queue length of -1
    or a known distance of -1 (the divisors [1.0 + q] and [1.0 + dist]),
    and it raises ZeroDivisionError only when there is such a
    candidate. *)
Theorem route_zero_division (next_hops : list (string * Stats))
        (ctx : NetCtx) (msg : Message) :
  (Exists (fun kv =>
             get (queue (snd kv)) 0%Z = (-1)%Z \/
             exists d, distance_to_dst (snd kv) = Some d /\ d == -1)
          next_hops ->
   exists e, route next_hops ctx msg = Raised e) /\
  (route next_hops ctx msg = Raised ZeroDivisionError ->
   Exists (fun kv =>
             get (queue (snd kv)) 0%Z = (-1)%Z \/
             exists d, distance_to_dst (snd kv) = Some d /\ d == -1)
          next_hops).
Proof.
  assert (Hex : (exists e, route next_hops ctx msg = Raised e) <->
                Exists (fun kv => exists e,
                            route_score (snd kv) msg = Raised e) next_hops).
  { unfold route. destruct next_hops as [|kv rest].
    - split; [intros [e He]; discriminate | intro H; inversion H].
    - apply route_loop_raises_iff. }
  split.
  - intro H. apply Hex. rewrite Exists_exists in *.
    destruct H as (kv & Hin & Hbad). exists kv. split; [exact Hin|].
    exact (proj2 (route_score_raises_iff (snd kv) msg) Hbad).
  - intro H.
    assert (He : exists e, route next_hops ctx msg = Raised e)
      by (eexists; exact H).
    apply Hex in He. rewrite Exists_exists in *.
    destruct He as (kv & Hin & Hr). exists kv. split; [exact Hin|].
    exact (proj1 (route_score_raises_iff (snd kv) msg) Hr).
Qed.

(** A candidate whose queue entry is -1. *)
Lemma route_zero_division_witness :
  exists e,
    route [("B", stats_near); ("C", mkStats None None (Some (-1)%Z) None)]
          ctx_empty msg_debris = Raised e.
Proof.
  apply (proj1 (route_zero_division
                  [("B", stats_near);
                   ("C", mkStats None None (Some (-1)%Z) None)]
                  ctx_empty msg_debris)).
  apply Exists_cons_tl, Exists_cons_hd. left. reflexivity.
Defined.


End RouteProps.

(* ------------------------------------------------------------------ *)
(** ** process_message, node by node; the tick *)

Section MeshEffects.

Open Scope Q_scope.
Open Scope string_scope.

Variable sqrt : Q -> Q.
Variable time : nat -> Q.
Variable random : nat -> Q.

Lemma upd_other (w : World) (k k' : string) (n : Node) :
  k <> k' -> upd w k n k' = w k'.
Proof.
  intro H. unfold upd. destruct (String.eqb k k') eqn:E; [|reflexivity].
  apply String.eqb_eq in E. contradiction.
Qed.

(** The five ways [process_message] returns. *)
Lemma process_message_cases (w : World) (k : string) (msg : Message)
      (e : Env) (w' : World) (msg' : Message) (e' : Env) :
  process_message sqrt time random w k msg e = Returned (w', msg', e') ->
  let m1 := annotate (w k) msg (time (clock_reads e)) in
  let e1 := mkEnv (S (clock_reads e)) (random_draws e) in
  let built := build_next_hops sqrt random w (w k) (links (w k)) [] e1 in
  let w1 := upd w k (set_out_stats (w k) (incr_attempts (_out_stats (w k)))) in
  (In (Mesh.id (w k)) (path msg) /\ w' = w /\ msg' = msg /\ e' = e) \/
  (~ In (Mesh.id (w k)) (path msg) /\
   (dst msg = None \/ dst msg = Some (Mesh.id (w k))) /\
   w' = upd w k (set_delivered (w k) (_delivered (w k) ++ [m1])) /\
   msg' = m1 /\ e' = e1) \/
  (~ In (Mesh.id (w k)) (path msg) /\
   (exists d, dst msg = Some d /\ d <> Mesh.id (w k)) /\
   route (fst built) (queue_ctx (w k)) m1 = Returned None /\
   w' = w /\ msg' = m1 /\ e' = snd built) \/
  (~ In (Mesh.id (w k)) (path msg) /\
   (exists d, dst msg = Some d /\ d <> Mesh.id (w k)) /\
   exists nxt link,
     route (fst built) (queue_ctx (w k)) m1 = Returned (Some nxt) /\
     dict_get (links (w k)) nxt = Some link /\
     e' = mkEnv (clock_reads (snd built)) (S (random_draws (snd built))) /\
     ((Qltb (random (random_draws (snd built))) (base_loss link) = true /\
       w' = upd w1 k (set_out_stats (w1 k)
                                    (incr_fail_count (_out_stats (w1 k)))) /\
       msg' = m1) \/
      (Qltb (random (random_draws (snd built))) (base_loss link) = false /\
       msg' = set_hops m1 (hops m1 + 1) /\
       w' = upd (upd w1 (other_end w1 (w k) link)
                     (receive (w1 (other_end w1 (w k) link)) msg'))
                k
                (set_out_stats
                   (upd w1 (other_end w1 (w k) link)
                        (receive (w1 (other_end w1 (w k) link)) msg') k)
                   (incr_out_count
                      (_out_stats
                         (upd w1 (other_end w1 (w k) link)
                              (receive (w1 (other_end w1 (w k) link)) msg')
                              k))))))).
Proof.
  intros H m1 e1 built w1. unfold process_message in H.
  destruct (existsb (String.eqb (Mesh.id (w k))) (path msg)) eqn:Ex.
  { injection H as <- <- <-. left. apply existsb_eqb_In in Ex.
    repeat split; [exact Ex | reflexivity..]. }
  right.
  assert (Hnot : ~ In (Mesh.id (w k)) (path msg)).
  { intro Hin. apply existsb_eqb_In in Hin. congruence. }
  destruct (annotate_frame (w k) msg (time (clock_reads e)))
    as (_ & _ & Ed & _).
  fold m1 in H, Ed. fold e1 in H. rewrite Ed in H.
  destruct (dst msg) as [d|] eqn:Edst.
  2:{ injection H as <- <- <-. left. repeat split; try assumption;
      try reflexivity. now left. }
  destruct (String.eqb d (Mesh.id (w k))) eqn:Eqd.
  { injection H as <- <- <-. left. apply String.eqb_eq in Eqd. subst d.
    repeat split; try assumption; try reflexivity. now right. }
  right.
  assert (Hd : exists d0, Some d = Some d0 /\ d0 <> Mesh.id (w k)).
  { exists d. split; [reflexivity|]. intro E. subst d.
    rewrite String.eqb_refl in Eqd. discriminate. }
  fold built in H. destruct built as [next_hops e2] eqn:Eb. cbn [fst snd].
  destruct (route next_hops (queue_ctx (w k)) m1) as [[nxt|]|err] eqn:Er;
    cbn [bind] in H; [| |discriminate].
  2:{ injection H as <- <- <-. left. repeat split; try assumption;
      reflexivity. }
  right. split; [exact Hnot|]. split; [exact Hd|].
  fold w1 in H.
  destruct (dict_get (links (w k)) nxt) as [link|] eqn:El; [|discriminate].
  exists nxt, link. split; [reflexivity|]. split; [exact El|].
  destruct (Qltb (random (random_draws e2)) (base_loss link)) eqn:Eloss.
  - injection H as <- <- <-. split; [reflexivity|]. left.
    repeat split; reflexivity.
  - injection H as <- <- <-. split; [reflexivity|]. right.
    repeat split; reflexivity.
Qed.

Lemma dict_get_Some_In {V : Type} (d : list (string * V)) (k : string)
      (v : V) :
  dict_get d k = Some v -> In (k, v) d.
Proof.
  induction d as [|[k0 v0] d IH]; cbn [dict_get]; [discriminate|].
  destruct (String.eqb k0 k) eqn:E.
  - intros [= <-]. apply String.eqb_eq in E. subst. now left.
  - intro H. right. now apply IH.
Qed.

Lemma static_eq_refl (n : Node) : static_eq n n.
Proof.
  unfold static_eq. repeat split; reflexivity.
Qed.

Lemma upd_rel (R : Node -> Node -> Prop) (w0 w : World) (k : string)
      (n : Node) :
  (forall k', R (w k') (w0 k')) -> R n (w0 k) ->
  forall k', R (upd w k n k') (w0 k').
Proof.
  intros Hw Hn k'. unfold upd. destruct (String.eqb k k') eqn:E.
  - apply String.eqb_eq in E. now subst k'.
  - apply Hw.
Qed.

(** What one call changes, node by node.  The four outcomes: dropped
    (loop or no route), delivered, lost in transmission, forwarded. *)
Lemma process_message_effect (w : World) (k : string) (msg : Message)
      (e : Env) (w' : World) (msg' : Message) (e' : Env) :
  process_message sqrt time random w k msg e = Returned (w', msg', e') ->
  (forall k', static_eq (w' k') (w k')) /\
  (forall k', k' <> k ->
      _out_stats (w' k') = _out_stats (w k') /\
      _delivered (w' k') = _delivered (w k')) /\
  (((msg' = msg /\ In (Mesh.id (w k)) (path msg) \/
     path msg' = (path msg ++ [Mesh.id (w k)])%list /\
     ~ In (Mesh.id (w k)) (path msg) /\
     (exists d, dst msg = Some d /\ d <> Mesh.id (w k)) /\
     route (fst (build_next_hops sqrt random w (w k) (links (w k)) []
                   (mkEnv (S (clock_reads e)) (random_draws e))))
           (queue_ctx (w k)) (annotate (w k) msg (time (clock_reads e)))
     = Returned None) /\
    hops msg' = hops msg /\
    _out_stats (w' k) = _out_stats (w k) /\
    _delivered (w' k) = _delivered (w k) /\
    (forall k', _in_queue (w' k') = _in_queue (w k'))) \/
   (path msg' = (path msg ++ [Mesh.id (w k)])%list /\
    ~ In (Mesh.id (w k)) (path msg) /\
    (dst msg = None \/ dst msg = Some (Mesh.id (w k))) /\
    hops msg' = hops msg /\
    _out_stats (w' k) = _out_stats (w k) /\
    _delivered (w' k) = (_delivered (w k) ++ [msg'])%list /\
    (forall k', _in_queue (w' k') = _in_queue (w k'))) \/
   (path msg' = (path msg ++ [Mesh.id (w k)])%list /\
    ~ In (Mesh.id (w k)) (path msg) /\
    hops msg' = hops msg /\
    _out_stats (w' k)
    = incr_fail_count (incr_attempts (_out_stats (w k))) /\
    _delivered (w' k) = _delivered (w k) /\
    (forall k', _in_queue (w' k') = _in_queue (w k'))) \/
   (path msg' = (path msg ++ [Mesh.id (w k)])%list /\
    ~ In (Mesh.id (w k)) (path msg) /\
    hops msg' = (hops msg + 1)%Z /\
    _out_stats (w' k)
    = incr_out_count (incr_attempts (_out_stats (w k))) /\
    _delivered (w' k) = _delivered (w k) /\
    exists nid link,
      In (nid, link) (links (w k)) /\
      forall k',
        _in_queue (w' k')
        = if String.eqb (other_end w (w k) link) k'
          then (_in_queue (w k') ++ [msg'])%list
          else _in_queue (w k'))).
Proof.
  intro H. apply process_message_cases in H. cbv zeta in H.
  destruct (annotate_frame (w k) msg (time (clock_reads e)))
    as (_ & _ & _ & _ & _ & _ & Eh & Ep).
  destruct H as [(Hin & -> & -> & ->)
                |[(Hn & Hd & -> & -> & ->)
                 |[(Hn & Hd & Hr & -> & -> & ->)
                  |(Hn & Hd & nxt & link & Hr & Hl & -> &
                    [(Hlo & -> & ->)|(Hlo & -> & ->)])]]].
  - split; [intro; repeat split; reflexivity|].
    split; [intros; split; reflexivity|].
    left. repeat split; try reflexivity. left. split; [reflexivity|exact Hin].
  - split.
    { intro k'. unfold upd. destruct (String.eqb k k') eqn:E;
        [apply String.eqb_eq in E; subst k'|]; repeat split; reflexivity. }
    split.
    { intros k' Hk. rewrite upd_other by congruence. split; reflexivity. }
    right. left. rewrite upd_same. cbn [set_delivered _out_stats _delivered].
    repeat split; try assumption; try reflexivity.
    intro k'. unfold upd. destruct (String.eqb k k') eqn:E;
      [apply String.eqb_eq in E; subst k'|]; reflexivity.
  - split; [intro; repeat split; reflexivity|].
    split; [intros; split; reflexivity|].
    left. repeat split; try assumption; try reflexivity.
    right. repeat split; assumption.
  - split.
    { intro k'. unfold upd. destruct (String.eqb k k') eqn:E;
        [apply String.eqb_eq in E; subst k'|]; rewrite ?String.eqb_refl;
        repeat split; reflexivity. }
    split.
    { intros k' Hk. rewrite !upd_other by congruence. split; reflexivity. }
    right. right. left. rewrite !upd_same.
    cbn [set_out_stats _out_stats _delivered].
    repeat split; try assumption; try reflexivity.
    intro k'. unfold upd. destruct (String.eqb k k') eqn:E;
      [apply String.eqb_eq in E; subst k'|]; rewrite ?String.eqb_refl;
      reflexivity.
  - set (w1 := upd w k (set_out_stats (w k)
                          (incr_attempts (_out_stats (w k))))) in *.
    assert (Hoe : other_end w1 (w k) link = other_end w (w k) link).
    { unfold other_end, w1, upd.
      destruct (String.eqb k (b link)) eqn:E;
        [apply String.eqb_eq in E; rewrite <- E|]; reflexivity. }
    rewrite Hoe. set (n := other_end w (w k) link).
    set (m2 := set_hops (annotate (w k) msg (time (clock_reads e)))
                        (hops (annotate (w k) msg (time (clock_reads e)))
                         + 1)).
    split.
    { assert (S1 : forall k', static_eq (w1 k') (w k')).
      { apply upd_rel; [intro; apply static_eq_refl|].
        unfold static_eq. repeat split; reflexivity. }
      assert (S2 : forall k',
                 static_eq (upd w1 n (receive (w1 n) m2) k') (w k')).
      { apply upd_rel; [exact S1|].
        destruct (S1 n) as (? & ? & ? & ? & ? & ?).
        unfold static_eq. repeat split; assumption. }
      apply upd_rel; [exact S2|].
      destruct (S2 k) as (? & ? & ? & ? & ? & ?).
      unfold static_eq. repeat split; assumption. }
    split.
    { intros k' Hk. rewrite (upd_other _ k k') by congruence.
      destruct (String.eqb n k') eqn:E3.
      - apply String.eqb_eq in E3. rewrite <- E3 in *. rewrite upd_same.
        cbn [receive set_in_queue _out_stats _delivered].
        unfold w1. rewrite upd_other by congruence. split; reflexivity.
      - rewrite (upd_other _ n k')
          by (intro Hnk; rewrite Hnk, String.eqb_refl in E3; discriminate).
        unfold w1. rewrite upd_other by congruence. split; reflexivity. }
    right. right. right. rewrite upd_same.
    assert (Hos : _out_stats (upd w1 n (receive (w1 n) m2) k)
                  = incr_attempts (_out_stats (w k))).
    { unfold upd, w1, upd. destruct (String.eqb n k) eqn:E2.
      - apply String.eqb_eq in E2. rewrite E2, String.eqb_refl. reflexivity.
      - rewrite String.eqb_refl. reflexivity. }
    assert (Hdl : _delivered (upd w1 n (receive (w1 n) m2) k)
                  = _delivered (w k)).
    { unfold upd, w1, upd. destruct (String.eqb n k) eqn:E2.
      - apply String.eqb_eq in E2. rewrite E2, String.eqb_refl. reflexivity.
      - rewrite String.eqb_refl. reflexivity. }
    cbn [set_out_stats _out_stats _delivered]. rewrite Hos, Hdl.
    subst m2. cbn [set_hops path hops].
    repeat split; try assumption; try reflexivity; try (now rewrite Eh).
    exists nxt, link. split; [now apply dict_get_Some_In|].
    fold n.
    assert (Hq1 : forall k', _in_queue (w1 k') = _in_queue (w k')).
    { intro k'. unfold w1, upd. destruct (String.eqb k k') eqn:E;
        [apply String.eqb_eq in E; subst k'|]; reflexivity. }
    intro k'.
    match goal with |- _in_queue (upd ?W k ?O k') = _ =>
      assert (Hq2 : _in_queue (upd W k O k') = _in_queue (W k'))
    end.
    { unfold upd at 1. destruct (String.eqb k k') eqn:E;
        [apply String.eqb_eq in E; subst k'|]; reflexivity. }
    rewrite Hq2.
    destruct (String.eqb n k') eqn:E3.
    + apply String.eqb_eq in E3. rewrite <- E3. rewrite upd_same.
      cbn [receive set_in_queue _in_queue]. now rewrite Hq1.
    + rewrite upd_other
        by (intro Hnk; rewrite Hnk, String.eqb_refl in E3; discriminate).
      apply Hq1.
Qed.

(** X10: one call of [process_message] makes at most one attempt, and
    every attempt it counts is counted once more as a failure or as an
    outbound success: attempts grow by exactly what failures and successes
    grow together.  The inbound counter, the queue-length entry and the
    counters of every other node stay as they were. *)
Theorem process_message_counters (w : World) (k : string) (msg : Message)
        (e : Env) (w' : World) (msg' : Message) (e' : Env) :
  process_message sqrt time random w k msg e = Returned (w', msg', e') ->
  in_count (_out_stats (w' k)) = in_count (_out_stats (w k)) /\
  queue_len (_out_stats (w' k)) = queue_len (_out_stats (w k)) /\
  (attempts (_out_stats (w' k)) - attempts (_out_stats (w k))
   = (fail_count (_out_stats (w' k)) - fail_count (_out_stats (w k)))
     + (out_count (_out_stats (w' k)) - out_count (_out_stats (w k))))%Z /\
  (0 <= fail_count (_out_stats (w' k)) - fail_count (_out_stats (w k)))%Z /\
  (0 <= out_count (_out_stats (w' k)) - out_count (_out_stats (w k)))%Z /\
  (attempts (_out_stats (w' k)) - attempts (_out_stats (w k)) <= 1)%Z /\
  (forall k', k' <> k -> _out_stats (w' k') = _out_stats (w k')).
Proof.
  intro H. apply process_message_effect in H.
  destruct H as (_ & Hother & Hout).
  assert (Ho : forall k', k' <> k -> _out_stats (w' k') = _out_stats (w k'))
    by (intros k' Hk; apply Hother, Hk).
  destruct Hout as [(_ & _ & E & _)|[(_ & _ & _ & _ & E & _)
                   |[(_ & _ & _ & E & _)|(_ & _ & _ & E & _)]]];
    rewrite E; cbn; repeat split; try lia; exact Ho.
Qed.

(** X11: [process_message] never changes a node's id, position, links,
    engine or run flag; a delivered sink stays as it was or, at the
    processing node only, gains the message at its end; a queue stays as
    it was or gains the message at its end. *)
Theorem process_message_append_only (w : World) (k : string)
        (msg : Message) (e : Env) (w' : World) (msg' : Message) (e' : Env)
        (k' : string) :
  process_message sqrt time random w k msg e = Returned (w', msg', e') ->
  static_eq (w' k') (w k') /\
  (_delivered (w' k') = _delivered (w k') \/
   k' = k /\ _delivered (w' k') = (_delivered (w k') ++ [msg'])%list) /\
  (_in_queue (w' k') = _in_queue (w k') \/
   _in_queue (w' k') = (_in_queue (w k') ++ [msg'])%list).
Proof.
  intro H. apply process_message_effect in H.
  destruct H as (Hs & Hother & Hout).
  split; [apply Hs|].
  assert (Hd : k' <> k -> _delivered (w' k') = _delivered (w k'))
    by (intro Hk; apply Hother, Hk).
  destruct (string_dec k' k) as [->|Hk].
  - destruct Hout as [(_ & _ & _ & Ed & Eq)|[(_ & _ & _ & _ & _ & Ed & Eq)
                     |[(_ & _ & _ & _ & Ed & Eq)
                      |(_ & _ & _ & _ & Ed & nid & link & _ & Eq)]]];
      rewrite Ed, Eq; try (split; left; reflexivity).
    + split; [right; split; reflexivity | left; reflexivity].
    + split; [left; reflexivity|].
      destruct (String.eqb (other_end w (w k) link) k); [right|left];
        reflexivity.
  - rewrite (Hd Hk). split; [left; reflexivity|].
    destruct Hout as [(_ & _ & _ & _ & Eq)|[(_ & _ & _ & _ & _ & _ & Eq)
                     |[(_ & _ & _ & _ & _ & Eq)
                      |(_ & _ & _ & _ & _ & nid & link & _ & Eq)]]];
      rewrite Eq; try (left; reflexivity).
    destruct (String.eqb (other_end w (w k) link) k'); [right|left];
      reflexivity.
Qed.

(** X12: if a call of [process_message] changes the queue of a node, that
    node is the other end of one of the processing node's links, the
    message was appended at the tail of its queue with its hop count
    raised by one, no other queue changed, and the outbound counter went
    up by one. *)
Theorem process_message_forwards_to_neighbour (w : World) (k : string)
        (msg : Message) (e : Env) (w' : World) (msg' : Message) (e' : Env)
        (k' : string) :
  process_message sqrt time random w k msg e = Returned (w', msg', e') ->
  _in_queue (w' k') <> _in_queue (w k') ->
  (exists nid link,
      In (nid, link) (links (w k)) /\ k' = other_end w (w k) link) /\
  _in_queue (w' k') = (_in_queue (w k') ++ [msg'])%list /\
  (forall k'', k'' <> k' -> _in_queue (w' k'') = _in_queue (w k'')) /\
  hops msg' = (hops msg + 1)%Z /\
  out_count (_out_stats (w' k)) = (out_count (_out_stats (w k)) + 1)%Z.
Proof.
  intros H Hneq. apply process_message_effect in H.
  destruct H as (_ & _ & Hout).
  destruct Hout as [(_ & _ & _ & _ & Eq)|[(_ & _ & _ & _ & _ & _ & Eq)
                   |[(_ & _ & _ & _ & _ & Eq)
                    |(_ & _ & Eh & Eo & _ & nid & link & Hin & Eq)]]];
    try (exfalso; apply Hneq, Eq).
  assert (Hk : other_end w (w k) link = k').
  { destruct (String.eqb (other_end w (w k) link) k') eqn:E.
    - now apply String.eqb_eq.
    - exfalso. apply Hneq. rewrite Eq, E. reflexivity. }
  split; [exists nid, link; split; [exact Hin | now symmetry]|].
  split; [rewrite Eq, Hk, String.eqb_refl; reflexivity|].
  split.
  - intros k'' Hk''. rewrite Eq, Hk.
    destruct (String.eqb k' k'') eqn:E; [|reflexivity].
    apply String.eqb_eq in E. congruence.
  - split; [exact Eh|]. rewrite Eo. reflexivity.
Qed.

(** X13: after [process_message] the path is the old path or the old path
    followed by the node's id, it contains the node's id, and a path
    without repetition stays without repetition. *)
Theorem process_message_path_nodup (w : World) (k : string)
        (msg : Message) (e : Env) (w' : World) (msg' : Message) (e' : Env) :
  process_message sqrt time random w k msg e = Returned (w', msg', e') ->
  (path msg' = path msg \/
   path msg' = (path msg ++ [Mesh.id (w k)])%list) /\
  In (Mesh.id (w k)) (path msg') /\
  (NoDup (path msg) -> NoDup (path msg')).
Proof.
  intro H. apply process_message_effect in H.
  destruct H as (_ & _ & Hout).
  assert (Happ : ~ In (Mesh.id (w k)) (path msg) ->
                 NoDup (path msg) ->
                 NoDup (path msg ++ [Mesh.id (w k)])).
  { intros Hn Hnd. apply NoDup_app; [exact Hnd | repeat constructor; intros []|].
    intros z Hz [<-|[]]. contradiction. }
  destruct Hout as [([(-> & Hin)|(Ep & Hn & _)] & _)
                   |[(Ep & Hn & _)|[(Ep & Hn & _)|(Ep & Hn & _)]]];
    try (rewrite Ep; split; [now right|];
         split; [apply in_or_app; right; now left | now apply Happ]).
  split; [now left|]. split; [exact Hin | trivial].
Qed.

(** X14: [process_message] raises the hop count by at most one, and never by
    more than the path grows; a hop count that does not exceed the path
    length keeps that property. *)
Theorem process_message_hops_bound (w : World) (k : string)
        (msg : Message) (e : Env) (w' : World) (msg' : Message) (e' : Env) :
  process_message sqrt time random w k msg e = Returned (w', msg', e') ->
  (hops msg <= hops msg' <= hops msg + 1)%Z /\
  (hops msg' - hops msg
   <= Z.of_nat (length (path msg')) - Z.of_nat (length (path msg)))%Z.
Proof.
  intro H. apply process_message_effect in H.
  destruct H as (_ & _ & Hout).
  destruct Hout as [([(-> & Hin)|(Ep & _)] & Eh & _)
                   |[(Ep & _ & _ & Eh & _)
                    |[(Ep & _ & Eh & _)|(Ep & _ & Eh & _)]]];
    try rewrite Ep; try rewrite Eh; try rewrite length_app; cbn [length];
    split; lia.
Qed.

(** X15: a message not yet seen by the node, with no destination or with
    the node's id as destination, is appended to the node's delivered
    sink with the node's id added to its path; no counter moves, no queue
    changes, the hop count stays and no random number is drawn. *)
Theorem process_message_delivers (w : World) (k : string) (msg : Message)
        (e : Env) :
  ~ In (Mesh.id (w k)) (path msg) ->
  dst msg = None \/ dst msg = Some (Mesh.id (w k)) ->
  process_message sqrt time random w k msg e
  = Returned (upd w k (set_delivered
                         (w k)
                         (_delivered (w k)
                          ++ [annotate (w k) msg (time (clock_reads e))])),
              annotate (w k) msg (time (clock_reads e)),
              mkEnv (S (clock_reads e)) (random_draws e)) /\
  path (annotate (w k) msg (time (clock_reads e)))
  = (path msg ++ [Mesh.id (w k)])%list /\
  hops (annotate (w k) msg (time (clock_reads e))) = hops msg.
Proof.
  intros Hpath Hdst.
  destruct (annotate_frame (w k) msg (time (clock_reads e)))
    as (_ & _ & Ed & _ & _ & _ & Eh & Ep).
  split; [|split; assumption].
  unfold process_message.
  destruct (existsb (String.eqb (Mesh.id (w k))) (path msg)) eqn:Ex.
  - apply existsb_eqb_In in Ex. contradiction.
  - rewrite Ed. destruct Hdst as [-> | ->]; [reflexivity|].
    now rewrite String.eqb_refl.
Qed.

(** X16: with a non-negative square root and draws in the unit interval,
    [Link.stats_for] reports a signal strength in [-80, -40], a loss of at
    most 0.9 and not below a base loss of at most 0.9, the destination's
    queue length and a non-negative distance, and consumes two draws. *)
Theorem stats_for_range (link : Link) (src dst : Node) (e : Env) :
  (forall v, 0 <= sqrt v) ->
  0 <= random (random_draws e) -> random (random_draws e) < 1 ->
  0 <= random (S (random_draws e)) ->
  exists (r l d : Q) (q : Z),
    stats_for sqrt random link src dst e
    = (mkStats (Some r) (Some l) (Some q) (Some d),
       mkEnv (clock_reads e) (S (S (random_draws e)))) /\
    -80 <= r /\ r <= -40 /\
    l <= 0.9 /\ (base_loss link <= 0.9 -> base_loss link <= l) /\
    q = Z.of_nat (length (_in_queue dst)) /\ 0 <= d.
Proof.
  intros Hs H0 H1 H2. unfold stats_for.
  do 4 eexists. split; [reflexivity|].
  split; [|split; [|split; [|split; [|split; [reflexivity|apply Hs]]]]].
  - destruct (Qltb (distance_to sqrt src dst) 1.0); lra.
  - destruct (Qltb (distance_to sqrt src dst) 1.0); lra.
  - destruct (py_min_cases 0.9 (base_loss link
                                 + 0.05 * random (S (random_draws e))))
      as [[H E]|[H E]]; rewrite E; lra.
  - intro Hb.
    destruct (py_min_cases 0.9 (base_loss link
                                 + 0.05 * random (S (random_draws e))))
      as [[H E]|[H E]]; rewrite E; lra.
Qed.

(** Statistics as [Link.stats_for] builds them when the generator stays
    in the unit interval: in range, and with a signal of at least -100. *)
Lemma stats_for_scores (link : Link) (s d : Node) (e : Env) :
  (forall v, 0 <= sqrt v) ->
  (forall n, 0 <= random n /\ random n < 1) ->
  good_stats (fst (stats_for sqrt random link s d e)) /\
  -100 <= get (rssi (fst (stats_for sqrt random link s d e))) (-80).
Proof.
  intros Hs Hr. split; [now apply stats_for_good|].
  unfold stats_for. cbn [fst rssi get].
  destruct (Hr (random_draws e)).
  destruct (Qltb (distance_to sqrt s d) 1.0); lra.
Qed.

Lemma dict_set_nonempty {V : Type} (d : list (string * V)) (k : string)
      (v : V) :
  dict_set d k v <> [].
Proof.
  destruct d as [|[k0 v0] d]; cbn [dict_set]; [discriminate|].
  destruct (String.eqb k0 k); discriminate.
Qed.

Lemma build_next_hops_Forall (P : Stats -> Prop) (w : World) (self : Node)
      (ls : list (string * Link)) :
  (forall link d e, P (fst (stats_for sqrt random link self d e))) ->
  forall (acc : list (string * Stats)) (e : Env),
    Forall (fun kv => P (snd kv)) acc ->
    Forall (fun kv => P (snd kv))
           (fst (build_next_hops sqrt random w self ls acc e)) /\
    (ls <> [] \/ acc <> [] ->
     fst (build_next_hops sqrt random w self ls acc e) <> []).
Proof.
  intro HP. induction ls as [|[nid link] ls IH]; intros acc e Hacc;
    cbn [build_next_hops].
  - cbn [fst]. split; [assumption|]. intros [H|H]; [congruence|assumption].
  - pose proof (HP link (w (other_end w self link)) e) as Hg.
    destruct (stats_for sqrt random link self (w (other_end w self link)) e)
      as [st e1].
    cbn [fst] in Hg.
    destruct (IH (dict_set acc nid st) e1) as [H1 H2].
    { apply dict_set_Forall; [intros ? ? ? Hp; exact Hp | assumption
                             | exact Hg]. }
    split; [exact H1|]. intros _. apply H2. right. apply dict_set_nonempty.
Qed.

(** Over a non-empty mapping of candidates in range with signals of at
    least -100, [route] returns one of them. *)
Lemma route_finds (next_hops : list (string * Stats)) (ctx : NetCtx)
      (msg : Message) :
  next_hops <> [] ->
  Forall (fun kv => good_stats (snd kv) /\ -100 <= get (rssi (snd kv)) (-80))
         next_hops ->
  exists nid, route next_hops ctx msg = Returned (Some nid) /\
              In nid (map fst next_hops).
Proof.
  intros Hne Hall. unfold route.
  destruct next_hops as [|[n0 st0] rest]; [congruence|].
  cbn [route_loop].
  inversion Hall as [|? ? [Hg Hr] Hrest]; subst. cbn [snd] in Hg, Hr.
  destruct (route_score_in_range st0 msg Hg Hr) as (s0 & -> & Hs0).
  cbn [bind].
  assert (E : Qltb (-1000000000) s0 = true) by (apply Qltb_lt; lra).
  rewrite E.
  assert (Hgood : Forall (fun kv => good_stats (snd kv)) rest).
  { eapply Forall_impl; [|exact Hrest]. intros kv [H _]. exact H. }
  destruct (route_loop_total rest msg Hgood s0 (Some n0))
    as (r & -> & [->|(nid & -> & Hin)]).
  - exists n0. split; [reflexivity | now left].
  - exists nid. split; [reflexivity | now right].
Qed.

(** With a non-negative square root, [process_message] never raises. *)
Lemma process_message_total (w : World) (k : string) (msg : Message)
      (e : Env) :
  (forall v, 0 <= sqrt v) ->
  exists (w' : World) (msg' : Message) (e' : Env),
    process_message sqrt time random w k msg e = Returned (w', msg', e').
Proof.
  intro Hs. unfold process_message.
  destruct (existsb (String.eqb (Mesh.id (w k))) (path msg));
    [do 3 eexists; reflexivity|].
  set (msg1 := annotate (w k) msg (time (clock_reads e))).
  destruct (match dst msg1 with
            | Some d => String.eqb d (Mesh.id (w k))
            | None => true
            end); [do 3 eexists; reflexivity|].
  destruct (build_next_hops_good sqrt random Hs w (w k) (links (w k)) []
              (mkEnv (S (clock_reads e)) (random_draws e)))
    as [Hgood Hkeys]; [constructor|].
  destruct (build_next_hops sqrt random w (w k) (links (w k)) []
              (mkEnv (S (clock_reads e)) (random_draws e)))
    as [next_hops e1].
  cbn [fst] in Hgood, Hkeys.
  unfold route.
  assert (Hloop : exists r,
             match next_hops with
             | [] => Returned None
             | _ :: _ => route_loop next_hops msg1 (-1000000000) None
             end = Returned r /\
             (r = None \/
              exists nid, r = Some nid /\ In nid (map fst next_hops))).
  { destruct next_hops as [|kv rest].
    - exists None. split; [reflexivity | now left].
    - apply route_loop_total. exact Hgood. }
  destruct Hloop as (r & -> & Hr). cbn [bind].
  destruct Hr as [->|(nid & -> & Hin)]; [do 3 eexists; reflexivity|].
  destruct (Hkeys nid Hin) as [[]|Hl].
  destruct (dict_get_In _ _ Hl) as [link ->].
  destruct (Qltb (random (random_draws e1)) (base_loss link));
    do 3 eexists; reflexivity.
Qed.

(** X17: with a non-negative square root and draws in the unit interval,
    a node that has at least one link always finds a next hop for a
    message addressed elsewhere: the call returns with one attempt more,
    counted as one failure or one success.  The silent no-route drop
    happens only at nodes without links. *)
Theorem process_message_linked_attempts (w : World) (k : string)
        (msg : Message) (e : Env) (d : string) :
  (forall v, 0 <= sqrt v) ->
  (forall n, 0 <= random n /\ random n < 1) ->
  ~ In (Mesh.id (w k)) (path msg) ->
  dst msg = Some d ->
  d <> Mesh.id (w k) ->
  links (w k) <> [] ->
  exists (w' : World) (msg' : Message) (e' : Env),
    process_message sqrt time random w k msg e = Returned (w', msg', e') /\
    attempts (_out_stats (w' k)) = (attempts (_out_stats (w k)) + 1)%Z /\
    (fail_count (_out_stats (w' k)) + out_count (_out_stats (w' k))
     = fail_count (_out_stats (w k)) + out_count (_out_stats (w k)) + 1)%Z.
Proof.
  intros Hs Hr Hpath Hdst Hne Hlinks.
  destruct (process_message_total w k msg e Hs) as (w' & msg' & e' & H).
  exists w', msg', e'. split; [exact H|].
  apply process_message_effect in H. destruct H as (_ & _ & Hout).
  destruct Hout as [([(_ & Hin)|(_ & _ & _ & Hnone)] & _)
                   |[(_ & _ & [Hd|Hd] & _)
                    |[(_ & _ & _ & E & _)|(_ & _ & _ & E & _)]]];
    try contradiction; try congruence; try (rewrite E; cbn; split; lia).
  exfalso.
  destruct (build_next_hops_Forall
              (fun st => good_stats st /\ -100 <= get (rssi st) (-80))
              w (w k) (links (w k))
              (fun link d0 e0 => stats_for_scores link (w k) d0 e0 Hs Hr)
              [] (mkEnv (S (clock_reads e)) (random_draws e)))
    as [Hall Hnonempty]; [constructor|].
  destruct (route_finds _ (queue_ctx (w k))
                        (annotate (w k) msg (time (clock_reads e)))
                        (Hnonempty (or_introl Hlinks)) Hall)
    as (nid & Hfound & _).
  congruence.
Qed.

Lemma dict_get_set_same {V : Type} (d : list (string * V)) (k : string)
      (v : V) :
  dict_get (dict_set d k v) k = Some v.
Proof.
  induction d as [|[k0 v0] d IH]; cbn [dict_set dict_get].
  - now rewrite String.eqb_refl.
  - destruct (String.eqb k0 k) eqn:E; cbn [dict_get]; rewrite E;
      [reflexivity | exact IH].
Qed.

Lemma dict_get_set_other {V : Type} (d : list (string * V)) (k k' : string)
      (v : V) :
  k <> k' -> dict_get (dict_set d k v) k' = dict_get d k'.
Proof.
  intro Hk. induction d as [|[k0 v0] d IH]; cbn [dict_set dict_get].
  - destruct (String.eqb k k') eqn:E; [|reflexivity].
    apply String.eqb_eq in E. contradiction.
  - destruct (String.eqb k0 k) eqn:E; cbn [dict_get].
    + apply String.eqb_eq in E. subst k0.
      destruct (String.eqb k k') eqn:E'; [|reflexivity].
      apply String.eqb_eq in E'. contradiction.
    + now rewrite IH.
Qed.

(** X18: the type [process_message] stores is the one [classify] returns;
    the distress flag is set when that type is DISTRESS and the text holds
    at least two distress keywords, and the flags are left as they were in
    every other case: the flag is never cleared. *)
Theorem annotate_distress_tag (self : Node) (msg : Message) (now : Q) :
  mtype (annotate self msg now) = fst (classify msg) /\
  (fst (classify msg) = DISTRESS ->
   (2 <= kw_count DISTRESS_KEYWORDS (lower (text msg)))%Z ->
   meta (annotate self msg now) = dict_set (meta msg) "tag_distress" true /\
   dict_get (meta (annotate self msg now)) "tag_distress" = Some true) /\
  (fst (classify msg) <> DISTRESS \/
   (kw_count DISTRESS_KEYWORDS (lower (text msg)) < 2)%Z ->
   meta (annotate self msg now) = meta msg).
Proof.
  unfold annotate.
  change (classify (set_path msg (path msg ++ [Mesh.id self])))
    with (classify msg).
  set (c := kw_count DISTRESS_KEYWORDS (lower (text msg))).
  destruct (classify_cases msg) as [E|[(mt & sc & Hmt & E)|E]];
    rewrite E; cbn [fst snd].
  - cbn. split; [reflexivity|]. split; [discriminate | reflexivity].
  - assert (Eb : MsgType_eqb mt DISTRESS = false)
      by (destruct mt; try reflexivity; contradiction).
    rewrite Eb. cbn. split; [reflexivity|].
    split; [contradiction | reflexivity].
  - fold c. rewrite Qle_bool_2_inject_Z. cbn [MsgType_eqb andb].
    destruct (Z.leb_spec 2 c) as [H2|H2].
    + assert (Hc : Qltb 0.7 (softclip
                               (softclip (inject_Z c / 3.0) 0.1 0.99 + 0.2)
                               0 1) = true).
      { apply Qltb_lt.
        assert (H23 : softclip (inject_Z 2 / 3.0) 0.1 0.99
                      <= softclip (inject_Z c / 3.0) 0.1 0.99).
        { apply softclip_mono, Qdiv_le_mono; [reflexivity|].
          now rewrite <- Zle_Qle. }
        assert (H87 : softclip (softclip (inject_Z 2 / 3.0) 0.1 0.99 + 0.2)
                               0 1
                      <= softclip
                           (softclip (inject_Z c / 3.0) 0.1 0.99 + 0.2) 0 1)
          by (apply softclip_mono; lra).
        eapply Qlt_le_trans; [|exact H87]. reflexivity. }
      rewrite Hc. cbn [set_meta set_mtype set_priority meta mtype].
      split; [reflexivity|]. split.
      * intros _ _. split; [reflexivity | apply dict_get_set_same].
      * intros [Hn|Hn]; [contradiction | lia].
    + assert (Hc : Qltb 0.7 (softclip (inject_Z c / 3.0) 0.1 0.99) = false).
      { apply Qltb_ge.
        assert (H13 : softclip (inject_Z c / 3.0) 0.1 0.99
                      <= softclip (inject_Z 1 / 3.0) 0.1 0.99).
        { apply softclip_mono, Qdiv_le_mono; [reflexivity|].
          rewrite <- Zle_Qle. lia. }
        eapply Qle_trans; [exact H13|]. vm_compute. discriminate. }
      rewrite Hc. cbn [set_meta set_mtype set_priority meta mtype].
      split; [reflexivity|]. split; [intros _ ?; lia | reflexivity].
Qed.

Lemma static_eq_trans (n1 n2 n3 : Node) :
  static_eq n1 n2 -> static_eq n2 n3 -> static_eq n1 n3.
Proof.
  unfold static_eq. intros (? & ? & ? & ? & ? & ?) (? & ? & ? & ? & ? & ?).
  repeat split; congruence.
Qed.

Lemma no_self_link_static (w w' : World) (k : string) :
  (forall k', static_eq (w' k') (w k')) ->
  no_self_link w k -> no_self_link w' k.
Proof.
  intros Hs Hn nid link Hin.
  destruct (Hs k) as (Hid & _ & _ & Hl & _).
  destruct (Hs (b link)) as (Hidb & _).
  rewrite Hl in Hin. specialize (Hn nid link Hin).
  unfold other_end in *. now rewrite Hid, Hidb.
Qed.

(** The batch loop of [run]: [n] messages leave the head of the queue in
    order; with no link back to the node itself nothing enters it. *)
Lemma drain_spec (k : string) (n : nat) :
  (forall v, 0 <= sqrt v) ->
  forall (w : World) (e : Env),
    no_self_link w k ->
    (n <= length (_in_queue (w k)))%nat ->
    exists (w' : World) (e' : Env),
      drain sqrt time random n w k e = Returned (w', e') /\
      _in_queue (w' k) = skipn n (_in_queue (w k)) /\
      in_count (_out_stats (w' k))
      = (in_count (_out_stats (w k)) + Z.of_nat n)%Z /\
      queue_len (_out_stats (w' k)) = queue_len (_out_stats (w k)) /\
      (out_count (_out_stats (w k)) <= out_count (_out_stats (w' k)))%Z /\
      (forall k', static_eq (w' k') (w k')).
Proof.
  intro Hs. induction n as [|n IH]; intros w e Hself Hlen.
  - exists w, e. cbn [drain skipn]. repeat split; try reflexivity; try lia.
  - cbn [drain].
    destruct (_in_queue (w k)) as [|msg rest] eqn:Eq; [cbn in Hlen; lia|].
    set (wa := upd (upd w k (set_in_queue (w k) rest)) k
                   (set_out_stats
                      (upd w k (set_in_queue (w k) rest) k)
                      (incr_in_count
                         (_out_stats (upd w k (set_in_queue (w k) rest) k))))).
    assert (Ewa : wa k = set_out_stats (set_in_queue (w k) rest)
                                       (incr_in_count (_out_stats (w k)))).
    { unfold wa. rewrite !upd_same. reflexivity. }
    assert (Swa : forall k', static_eq (wa k') (w k')).
    { unfold wa. apply upd_rel.
      - apply upd_rel; [intro; apply static_eq_refl|].
        unfold static_eq. repeat split; reflexivity.
      - rewrite upd_same. unfold static_eq. repeat split; reflexivity. }
    assert (Hselfa : no_self_link wa k)
      by (eapply no_self_link_static; eassumption).
    destruct (process_message_total wa k msg e Hs) as (wb & msg' & eb & Hp).
    rewrite Hp. cbn [bind].
    pose proof (process_message_effect _ _ _ _ _ _ _ Hp) as (Sb & _ & Hout).
    assert (Hq : _in_queue (wb k) = rest).
    { destruct Hout as [(_ & _ & _ & _ & Eqq)|[(_ & _ & _ & _ & _ & _ & Eqq)
                       |[(_ & _ & _ & _ & _ & Eqq)
                        |(_ & _ & _ & _ & _ & nid & link & Hin & Eqq)]]];
        rewrite Eqq; try (rewrite Ewa; reflexivity).
      destruct (String.eqb (other_end wa (wa k) link) k) eqn:E.
      - apply String.eqb_eq in E. exfalso. exact (Hselfa nid link Hin E).
      - rewrite Ewa. reflexivity. }
    assert (Hc : in_count (_out_stats (wb k))
                 = (in_count (_out_stats (w k)) + 1)%Z /\
                 queue_len (_out_stats (wb k)) = queue_len (_out_stats (w k))
                 /\ (out_count (_out_stats (w k))
                     <= out_count (_out_stats (wb k)))%Z).
    { destruct Hout as [(_ & _ & E & _)|[(_ & _ & _ & _ & E & _)
                       |[(_ & _ & _ & E & _)|(_ & _ & _ & E & _)]]];
        rewrite E, Ewa; cbn; repeat split; lia. }
    destruct Hc as (Hc1 & Hc2 & Hc3).
    assert (Sbw : forall k', static_eq (wb k') (w k'))
      by (intro k'; eapply static_eq_trans; [apply Sb | apply Swa]).
    destruct (IH wb eb) as (w' & e' & Hd & Hq' & Hi' & Hl' & Ho' & S').
    { eapply no_self_link_static; eassumption. }
    { rewrite Hq. cbn [length] in Hlen. lia. }
    exists w', e'. split; [exact Hd|].
    rewrite Hq', Hq, Hi', Hl'. cbn [skipn].
    split; [reflexivity|]. split; [lia|]. split; [congruence|].
    split; [lia|].
    intro k'. eapply static_eq_trans; [apply S' | apply Sbw].
Qed.

(** X19: with a non-negative square root, non-negative inbound and
    outbound counters and no link leading back to the node itself, one
    tick of [run] returns, removes the first five messages of the queue
    (all of them when there are fewer) and leaves the rest in order,
    records the queue length found at the start, and counts the processed
    messages before the decay. *)
Theorem run_tick_batch (w : World) (k : string) (e : Env) :
  (forall v, 0 <= sqrt v) ->
  no_self_link w k ->
  (0 <= in_count (_out_stats (w k)))%Z ->
  (0 <= out_count (_out_stats (w k)))%Z ->
  exists (w' : World) (e' : Env),
    run_tick sqrt time random w k e = Returned (w', e') /\
    _in_queue (w' k) = skipn 5 (_in_queue (w k)) /\
    queue_len (_out_stats (w' k))
    = Z.of_nat (length (_in_queue (w k))) /\
    in_count (_out_stats (w' k))
    = (4 * (in_count (_out_stats (w k))
            + Z.of_nat (Nat.min 5 (length (_in_queue (w k))))) / 5)%Z.
Proof.
  intros Hs Hself Hi Ho. unfold run_tick.
  set (q := _in_queue (w k)).
  set (w0 := upd w k (set_out_stats
                        (w k)
                        (set_queue_len (_out_stats (w k))
                                       (Z.of_nat (length q))))).
  assert (S0 : forall k', static_eq (w0 k') (w k')).
  { unfold w0. apply upd_rel; [intro; apply static_eq_refl|].
    unfold static_eq. repeat split; reflexivity. }
  assert (E0 : w0 k = set_out_stats (w k)
                                    (set_queue_len (_out_stats (w k))
                                                   (Z.of_nat (length q))))
    by (unfold w0; now rewrite upd_same).
  destruct (drain_spec k (Nat.min 5 (length q)) Hs w0 e)
    as (w1 & e1 & Hd & Hq & Hin & Hql & Hout & S1).
  { eapply no_self_link_static; eassumption. }
  { rewrite E0. cbn [set_out_stats _in_queue]. fold q. lia. }
  rewrite Hd. cbn [bind].
  rewrite E0 in Hq, Hin, Hql, Hout.
  cbn [set_out_stats _in_queue _out_stats set_queue_len in_count out_count
       queue_len] in Hq, Hin, Hql, Hout.
  fold q in Hq.
  destruct (anomaly_score_returns
              (model (w1 k)) (stats_ctx (_out_stats (w1 k)))
              (time (clock_reads e1))) as (s & Es).
  { unfold Qle. cbn. lia. }
  { unfold Qle. cbn. lia. }
  rewrite Es. cbn [bind].
  do 2 eexists. split; [reflexivity|].
  rewrite !upd_same. unfold decay.
  cbn [set_out_stats set_model _out_stats _in_queue
       in_count out_count fail_count attempts queue_len].
  rewrite py_int_decay by lia.
  rewrite Hq, Hin, Hql.
  split; [|split; reflexivity].
  destruct (Nat.le_ge_cases 5 (length q)) as [H5|H5].
  - now rewrite Nat.min_l by exact H5.
  - rewrite Nat.min_r by exact H5.
    rewrite !skipn_all2 by lia. reflexivity.
Qed.

(** One tick that finds the queue empty. *)
Lemma idle_tick_step (w : World) (k : string) (e : Env) :
  _in_queue (w k) = [] ->
  (0 <= in_count (_out_stats (w k)))%Z ->
  (0 <= out_count (_out_stats (w k)))%Z ->
  (0 <= fail_count (_out_stats (w k)))%Z ->
  (0 <= attempts (_out_stats (w k)))%Z ->
  exists (w' : World) (e' : Env),
    run_tick sqrt time random w k e = Returned (w', e') /\
    _out_stats (w' k)
    = mkOutStats (4 * in_count (_out_stats (w k)) / 5)
                 (4 * out_count (_out_stats (w k)) / 5)
                 (4 * fail_count (_out_stats (w k)) / 5)
                 (4 * attempts (_out_stats (w k)) / 5)
                 0 /\
    _in_queue (w' k) = [].
Proof.
  intros Hq Hi Ho Hf Ha. unfold run_tick. rewrite Hq.
  cbn [length Nat.min drain bind Z.of_nat].
  rewrite upd_same.
  destruct (anomaly_score_returns
              (model (set_out_stats (w k) (set_queue_len (_out_stats (w k)) 0)))
              (stats_ctx (_out_stats
                 (set_out_stats (w k) (set_queue_len (_out_stats (w k)) 0))))
              (time (clock_reads e))) as (s & Es).
  - unfold Qle. cbn. lia.
  - unfold Qle. cbn. lia.
  - rewrite Es. cbn [bind].
    do 2 eexists. split; [reflexivity|].
    rewrite !upd_same. unfold decay.
    cbn [set_out_stats set_model _out_stats _in_queue _delivered
         set_queue_len in_count out_count fail_count attempts queue_len].
    rewrite !py_int_decay by assumption.
    split; [reflexivity | exact Hq].
Qed.

Lemma decay_step_bound (c : Z) (n : nat) :
  (0 <= c <= Z.of_nat (S n))%Z -> (0 <= 4 * c / 5 <= Z.of_nat n)%Z.
Proof.
  intro H. split; [apply Z.div_pos; lia|].
  destruct (Z.eq_dec c 0) as [->|Hc]; [cbn; lia|].
  assert (4 * c / 5 < c)%Z by (apply Z.div_lt_upper_bound; lia).
  lia.
Qed.

(** X20: a node whose queue stays empty and whose four rolling counters
    are between 0 and [n] has all four counters at 0 after [n] ticks. *)
Theorem idle_ticks_reach_zero (n : nat) (w : World) (k : string) (e : Env) :
  _in_queue (w k) = [] ->
  (0 <= in_count (_out_stats (w k)) <= Z.of_nat n)%Z ->
  (0 <= out_count (_out_stats (w k)) <= Z.of_nat n)%Z ->
  (0 <= fail_count (_out_stats (w k)) <= Z.of_nat n)%Z ->
  (0 <= attempts (_out_stats (w k)) <= Z.of_nat n)%Z ->
  exists (w' : World) (e' : Env),
    run_ticks sqrt time random n w k e = Returned (w', e') /\
    in_count (_out_stats (w' k)) = 0%Z /\
    out_count (_out_stats (w' k)) = 0%Z /\
    fail_count (_out_stats (w' k)) = 0%Z /\
    attempts (_out_stats (w' k)) = 0%Z /\
    _in_queue (w' k) = [].
Proof.
  revert w e. induction n as [|n IH]; intros w e Hq Hi Ho Hf Ha.
  - exists w, e. cbn [run_ticks]. cbn in Hi, Ho, Hf, Ha.
    repeat split; try lia; try reflexivity. exact Hq.
  - cbn [run_ticks].
    destruct (idle_tick_step w k e Hq) as (w1 & e1 & Ht & Es & Eq1);
      try lia.
    rewrite Ht. cbn [bind].
    apply IH; try exact Eq1; rewrite Es;
      cbn [in_count out_count fail_count attempts];
      now apply decay_step_bound.
Qed.

End MeshEffects.

(* ------------------------------------------------------------------ *)
(** ** connect *)

Section ConnectProps.

Open Scope Q_scope.
Open Scope string_scope.

(** X21: in a store keyed by id, [connect] enters the same link, with the
    given base loss, under the other node's id in both nodes' link
    tables; every other entry of every link table, every id, queue,
    counter and delivered sink is as before. *)
Theorem connect_links_both (w : World) (k other : string) (loss : Q) :
  keyed_by_id w ->
  dict_get (links (connect w k other loss k)) other
  = Some (mkLink k other loss) /\
  dict_get (links (connect w k other loss other)) k
  = Some (mkLink k other loss) /\
  (forall k' nid,
      ~ (k' = k /\ nid = other) -> ~ (k' = other /\ nid = k) ->
      dict_get (links (connect w k other loss k')) nid
      = dict_get (links (w k')) nid) /\
  keyed_by_id (connect w k other loss) /\
  (forall k',
      _in_queue (connect w k other loss k') = _in_queue (w k') /\
      _out_stats (connect w k other loss k') = _out_stats (w k') /\
      _delivered (connect w k other loss k') = _delivered (w k')).
Proof.
  intro Hk. unfold connect.
  rewrite !(Hk other).
  set (link := mkLink k other loss).
  set (w1 := upd w k (set_links (w k) (dict_set (links (w k)) other link))).
  assert (Hid1 : forall k', Mesh.id (w1 k') = k').
  { intro k'. unfold w1, upd. destruct (String.eqb k k') eqn:E.
    - apply String.eqb_eq in E. subst k'. cbn. apply Hk.
    - apply Hk. }
  rewrite (Hid1 k).
  assert (L1 : forall k', links (w1 k')
                          = if String.eqb k k'
                            then dict_set (links (w k')) other link
                            else links (w k')).
  { intro k'. unfold w1, upd. destruct (String.eqb k k') eqn:E;
      [apply String.eqb_eq in E; subst k'|]; reflexivity. }
  assert (L2 : forall k',
             links (upd w1 other
                        (set_links (w1 other)
                                   (dict_set (links (w1 other)) k link)) k')
             = if String.eqb other k'
               then dict_set (links (w1 k')) k link
               else links (w1 k')).
  { intro k'. unfold upd at 1. destruct (String.eqb other k') eqn:E;
      [apply String.eqb_eq in E; subst k'|]; reflexivity. }
  split; [|split; [|split; [|split]]].
  - rewrite L2, L1, String.eqb_refl.
    destruct (String.eqb other k) eqn:E.
    + apply String.eqb_eq in E. subst other. apply dict_get_set_same.
    + apply dict_get_set_same.
  - rewrite L2, String.eqb_refl. apply dict_get_set_same.
  - intros k' nid H1 H2. rewrite L2, L1.
    destruct (String.eqb other k') eqn:E2;
      destruct (String.eqb k k') eqn:E1;
      try (apply String.eqb_eq in E2); try (apply String.eqb_eq in E1);
      subst; rewrite ?dict_get_set_other; try reflexivity;
      intro; subst; tauto.
  - intro k'. unfold upd at 1. destruct (String.eqb other k') eqn:E.
    + apply String.eqb_eq in E. subst k'. cbn. apply Hid1.
    + apply Hid1.
  - intro k'. unfold upd at 1 2 3, w1, upd.
    destruct (String.eqb other k') eqn:E2;
      destruct (String.eqb k k') eqn:E1;
      try (apply String.eqb_eq in E2); try (apply String.eqb_eq in E1);
      subst; rewrite ?String.eqb_refl, ?E1, ?E2;
      repeat split; reflexivity.
Qed.

Lemma connect_keyed (w : World) (k other : string) (loss : Q) :
  keyed_by_id w ->
  (forall k', Mesh.id (connect w k other loss k') = k') /\
  links (connect w k other loss k)
  = if String.eqb other k
    then dict_set (dict_set (links (w k)) other (mkLink k other loss))
                  k (mkLink k other loss)
    else dict_set (links (w k)) other (mkLink k other loss).
Proof.
  intro Hk. unfold connect. rewrite !(Hk other).
  set (link := mkLink k other loss).
  set (w1 := upd w k (set_links (w k) (dict_set (links (w k)) other link))).
  assert (Hid1 : forall k', Mesh.id (w1 k') = k').
  { intro k'. unfold w1, upd. destruct (String.eqb k k') eqn:E.
    - apply String.eqb_eq in E. subst k'. cbn. apply Hk.
    - apply Hk. }
  rewrite (Hid1 k). split.
  - intro k'. unfold upd at 1. destruct (String.eqb other k') eqn:E.
    + apply String.eqb_eq in E. subst k'. cbn. apply Hid1.
    + apply Hid1.
  - unfold upd at 1. destruct (String.eqb other k) eqn:E.
    + apply String.eqb_eq in E. subst other. cbn [set_links links].
      unfold w1. rewrite upd_same. reflexivity.
    + unfold w1. rewrite upd_same. reflexivity.
Qed.

(** X22: in a store keyed by id, for two different nodes, the link made by
    [connect] resolves from either end to the other end, as
    [process_message] resolves it; and a node without a link back to
    itself still has none after the call. *)
Theorem connect_resolves_neighbour (w : World) (k other : string)
        (loss : Q) :
  keyed_by_id w ->
  k <> other ->
  other_end (connect w k other loss) (connect w k other loss k)
            (mkLink k other loss) = other /\
  other_end (connect w k other loss) (connect w k other loss other)
            (mkLink k other loss) = k /\
  (no_self_link w k -> no_self_link (connect w k other loss) k).
Proof.
  intros Hk Hne.
  destruct (connect_keyed w k other loss Hk) as [Hk' Hl].
  unfold other_end. cbn [a b]. rewrite !Hk'.
  split; [|split].
  - destruct (String.eqb other k) eqn:E; [|reflexivity].
    apply String.eqb_eq in E. congruence.
  - now rewrite String.eqb_refl.
  - intros Hself nid link Hin. unfold other_end. rewrite !Hk'.
    rewrite Hl in Hin.
    assert (Hcase : (nid, link) = (other, mkLink k other loss) \/
                    In (nid, link) (links (w k))).
    { clear - Hin Hne.
      destruct (String.eqb other k) eqn:E;
        [apply String.eqb_eq in E; congruence|].
      revert Hin. generalize (links (w k)) as d.
      induction d as [|[k0 v0] d IH]; cbn [dict_set In].
      - intros [H|[]]. left. now symmetry.
      - destruct (String.eqb k0 other) eqn:E0; cbn [In].
        + intros [H|H]; [left|right; right; assumption].
          apply String.eqb_eq in E0. subst k0. now symmetry.
        + intros [H|H]; [right; left; exact H|].
          destruct (IH H) as [H'|H']; [left|right; right]; assumption. }
    destruct Hcase as [[= -> ->]|Hold].
    + cbn [a b]. destruct (String.eqb other k) eqn:E.
      * apply String.eqb_eq in E. congruence.
      * congruence.
    + specialize (Hself nid link Hold). unfold other_end in Hself.
      now rewrite !Hk in Hself.
Qed.

End ConnectProps.

(* ------------------------------------------------------------------ *)
(** ** The node-level theorems at concrete inputs *)

Section MeshEffectRuns.

Open Scope Q_scope.
Open Scope string_scope.

Lemma demo_step_eq :
  process_message demo_sqrt demo_time demo_random demo_world "A" msg_debris
                  env0 = Returned (demo_w', demo_msg', demo_e').
Proof.
  vm_compute. reflexivity.
Qed.

Lemma demo_random_unit (n : nat) : 0 <= demo_random n /\ demo_random n < 1.
Proof.
  unfold demo_random. destruct (Nat.even n); split; lra.
Qed.

Lemma demo_world_keyed : keyed_by_id demo_world.
Proof.
  intro k. unfold demo_world.
  repeat match goal with
         | |- context [String.eqb k ?s] =>
             let E := fresh "E" in
             destruct (String.eqb k s) eqn:E;
             [apply String.eqb_eq in E; subst k; reflexivity|]
         end.
  reflexivity.
Qed.

Lemma demo_no_self_link_A : no_self_link demo_busy_world "A".
Proof.
  intros nid link [[= <- <-]|[]]. vm_compute. discriminate.
Qed.

Lemma process_message_counters_witness :
  in_count (_out_stats (demo_w' "A"))
  = in_count (_out_stats (demo_world "A")) /\
  queue_len (_out_stats (demo_w' "A"))
  = queue_len (_out_stats (demo_world "A")) /\
  (attempts (_out_stats (demo_w' "A"))
   - attempts (_out_stats (demo_world "A"))
   = (fail_count (_out_stats (demo_w' "A"))
      - fail_count (_out_stats (demo_world "A")))
     + (out_count (_out_stats (demo_w' "A"))
        - out_count (_out_stats (demo_world "A"))))%Z /\
  (0 <= fail_count (_out_stats (demo_w' "A"))
        - fail_count (_out_stats (demo_world "A")))%Z /\
  (0 <= out_count (_out_stats (demo_w' "A"))
        - out_count (_out_stats (demo_world "A")))%Z /\
  (attempts (_out_stats (demo_w' "A"))
   - attempts (_out_stats (demo_world "A")) <= 1)%Z /\
  (forall k', k' <> "A" ->
              _out_stats (demo_w' k') = _out_stats (demo_world k')).
Proof.
  exact (process_message_counters
           demo_sqrt demo_time demo_random demo_world "A" msg_debris env0
           demo_w' demo_msg' demo_e' demo_step_eq).
Defined.

(** Node B, the neighbor that receives the message. *)
Lemma process_message_append_only_witness :
  static_eq (demo_w' "B") (demo_world "B") /\
  (_delivered (demo_w' "B") = _delivered (demo_world "B") \/
   "B" = "A" /\
   _delivered (demo_w' "B")
   = (_delivered (demo_world "B") ++ [demo_msg'])%list) /\
  (_in_queue (demo_w' "B") = _in_queue (demo_world "B") \/
   _in_queue (demo_w' "B")
   = (_in_queue (demo_world "B") ++ [demo_msg'])%list).
Proof.
  exact (process_message_append_only
           demo_sqrt demo_time demo_random demo_world "A" msg_debris env0
           demo_w' demo_msg' demo_e' "B" demo_step_eq).
Defined.

Lemma process_message_forwards_to_neighbour_witness :
  (exists nid link,
      In (nid, link) (links (demo_world "A")) /\
      "B" = other_end demo_world (demo_world "A") link) /\
  _in_queue (demo_w' "B")
  = (_in_queue (demo_world "B") ++ [demo_msg'])%list /\
  (forall k'', k'' <> "B" ->
               _in_queue (demo_w' k'') = _in_queue (demo_world k'')) /\
  hops demo_msg' = (hops msg_debris + 1)%Z /\
  out_count (_out_stats (demo_w' "A"))
  = (out_count (_out_stats (demo_world "A")) + 1)%Z.
Proof.
  apply (process_message_forwards_to_neighbour
           demo_sqrt demo_time demo_random demo_world "A" msg_debris env0
           demo_w' demo_msg' demo_e' "B" demo_step_eq).
  vm_compute. discriminate.
Defined.

Lemma process_message_path_nodup_witness :
  (path demo_msg' = path msg_debris \/
   path demo_msg' = (path msg_debris ++ [Mesh.id (demo_world "A")])%list) /\
  In (Mesh.id (demo_world "A")) (path demo_msg') /\
  (NoDup (path msg_debris) -> NoDup (path demo_msg')).
Proof.
  exact (process_message_path_nodup
           demo_sqrt demo_time demo_random demo_world "A" msg_debris env0
           demo_w' demo_msg' demo_e' demo_step_eq).
Defined.

Lemma process_message_hops_bound_witness :
  (hops msg_debris <= hops demo_msg' <= hops msg_debris + 1)%Z /\
  (hops demo_msg' - hops msg_debris
   <= Z.of_nat (length (path demo_msg'))
      - Z.of_nat (length (path msg_debris)))%Z.
Proof.
  exact (process_message_hops_bound
           demo_sqrt demo_time demo_random demo_world "A" msg_debris env0
           demo_w' demo_msg' demo_e' demo_step_eq).
Defined.

(** The message reaching its destination D. *)
Lemma process_message_delivers_witness :
  process_message demo_sqrt demo_time demo_random demo_world "D"
                  msg_debris env0
  = Returned (upd demo_world "D"
                  (set_delivered
                     (demo_world "D")
                     (_delivered (demo_world "D")
                      ++ [annotate (demo_world "D") msg_debris
                                   (demo_time 0)])),
              annotate (demo_world "D") msg_debris (demo_time 0),
              mkEnv 1 0) /\
  path (annotate (demo_world "D") msg_debris (demo_time 0))
  = (path msg_debris ++ ["D"])%list /\
  hops (annotate (demo_world "D") msg_debris (demo_time 0))
  = hops msg_debris.
Proof.
  apply (process_message_delivers
           demo_sqrt demo_time demo_random demo_world "D" msg_debris env0).
  - intros [].
  - right. reflexivity.
Defined.

(** The link A - B seen from A. *)
Lemma stats_for_range_witness :
  exists (r l d : Q) (q : Z),
    stats_for demo_sqrt demo_random link_ab (demo_world "A")
              (demo_world "B") env0
    = (mkStats (Some r) (Some l) (Some q) (Some d), mkEnv 0 2) /\
    -80 <= r /\ r <= -40 /\
    l <= 0.9 /\ (base_loss link_ab <= 0.9 -> base_loss link_ab <= l) /\
    q = Z.of_nat (length (_in_queue (demo_world "B"))) /\ 0 <= d.
Proof.
  apply (stats_for_range demo_sqrt demo_random link_ab (demo_world "A")
                         (demo_world "B") env0 demo_sqrt_nonneg).
  - cbn. lra.
  - cbn. lra.
  - cbn. lra.
Defined.

Lemma process_message_linked_attempts_witness :
  exists (w' : World) (msg' : Message) (e' : Env),
    process_message demo_sqrt demo_time demo_random demo_world "A"
                    msg_debris env0 = Returned (w', msg', e') /\
    attempts (_out_stats (w' "A"))
    = (attempts (_out_stats (demo_world "A")) + 1)%Z /\
    (fail_count (_out_stats (w' "A")) + out_count (_out_stats (w' "A"))
     = fail_count (_out_stats (demo_world "A"))
       + out_count (_out_stats (demo_world "A")) + 1)%Z.
Proof.
  apply (process_message_linked_attempts
           demo_sqrt demo_time demo_random demo_world "A" msg_debris env0
           "D" demo_sqrt_nonneg demo_random_unit).
  - intros [].
  - reflexivity.
  - cbn. discriminate.
  - cbn. discriminate.
Defined.

(** Three distress keywords: the flag is set. *)
Lemma annotate_distress_tag_witness :
  meta (annotate (demo_world "A") msg_mayday 1000)
  = dict_set (meta msg_mayday) "tag_distress" true /\
  dict_get (meta (annotate (demo_world "A") msg_mayday 1000)) "tag_distress"
  = Some true.
Proof.
  apply (proj1 (proj2 (annotate_distress_tag (demo_world "A") msg_mayday
                                             1000))).
  - reflexivity.
  - vm_compute. discriminate.
Defined.

(** Seven messages waiting at A: five are processed, two stay. *)
Lemma run_tick_batch_witness :
  exists (w' : World) (e' : Env),
    run_tick demo_sqrt demo_time demo_random demo_busy_world "A" env0
    = Returned (w', e') /\
    _in_queue (w' "A") = skipn 5 (_in_queue (demo_busy_world "A")) /\
    queue_len (_out_stats (w' "A"))
    = Z.of_nat (length (_in_queue (demo_busy_world "A"))) /\
    in_count (_out_stats (w' "A"))
    = (4 * (in_count (_out_stats (demo_busy_world "A"))
            + Z.of_nat (Nat.min 5 (length (_in_queue (demo_busy_world "A")))))
       / 5)%Z.
Proof.
  apply (run_tick_batch demo_sqrt demo_time demo_random demo_busy_world "A"
                        env0 demo_sqrt_nonneg demo_no_self_link_A).
  - cbn. lia.
  - cbn. lia.
Defined.

(** Counters 3, 2, 1 and 0 over three idle ticks. *)
Lemma idle_ticks_reach_zero_witness :
  exists (w' : World) (e' : Env),
    run_ticks demo_sqrt demo_time demo_random 3
              (world_with_counters 3 2 1 0) "A" env0 = Returned (w', e') /\
    in_count (_out_stats (w' "A")) = 0%Z /\
    out_count (_out_stats (w' "A")) = 0%Z /\
    fail_count (_out_stats (w' "A")) = 0%Z /\
    attempts (_out_stats (w' "A")) = 0%Z /\
    _in_queue (w' "A") = [].
Proof.
  apply (idle_ticks_reach_zero demo_sqrt demo_time demo_random 3
                               (world_with_counters 3 2 1 0) "A" env0).
  - reflexivity.
  - cbn. lia.
  - cbn. lia.
  - cbn. lia.
  - cbn. lia.
Defined.

(** The edge A - C added to the demo topology. *)
Lemma connect_links_both_witness :
  dict_get (links (connect demo_world "A" "C" 0.3 "A")) "C"
  = Some (mkLink "A" "C" 0.3) /\
  dict_get (links (connect demo_world "A" "C" 0.3 "C")) "A"
  = Some (mkLink "A" "C" 0.3) /\
  (forall k' nid,
      ~ (k' = "A" /\ nid = "C") -> ~ (k' = "C" /\ nid = "A") ->
      dict_get (links (connect demo_world "A" "C" 0.3 k')) nid
      = dict_get (links (demo_world k')) nid) /\
  keyed_by_id (connect demo_world "A" "C" 0.3) /\
  (forall k',
      _in_queue (connect demo_world "A" "C" 0.3 k')
      = _in_queue (demo_world k') /\
      _out_stats (connect demo_world "A" "C" 0.3 k')
      = _out_stats (demo_world k') /\
      _delivered (connect demo_world "A" "C" 0.3 k')
      = _delivered (demo_world k')).
Proof.
  exact (connect_links_both demo_world "A" "C" 0.3 demo_world_keyed).
Defined.

Lemma connect_resolves_neighbour_witness :
  other_end (connect demo_world "A" "C" 0.3)
            (connect demo_world "A" "C" 0.3 "A") (mkLink "A" "C" 0.3) = "C" /\
  other_end (connect demo_world "A" "C" 0.3)
            (connect demo_world "A" "C" 0.3 "C") (mkLink "A" "C" 0.3) = "A" /\
  (no_self_link demo_world "A" ->
   no_self_link (connect demo_world "A" "C" 0.3) "A").
Proof.
  apply (connect_resolves_neighbour demo_world "A" "C" 0.3 demo_world_keyed).
  discriminate.
Defined.

End MeshEffectRuns.

(* ------------------------------------------------------------------ *)
(** ** softclip *)

Section SoftclipProps.

Open Scope Q_scope.
Open Scope string_scope.

(** X23: [softclip] clamps: for [lo <= hi] the result lies in [lo, hi]; a
    value inside the interval is returned as it is, a value below gives
    [lo] and a value above gives [hi]; and when the bounds are crossed,
    [hi < lo], the result is [lo] whatever the value. *)
Theorem softclip_clamps (v lo hi : Q) :
  (lo <= hi -> lo <= softclip v lo hi /\ softclip v lo hi <= hi) /\
  (lo <= v -> v <= hi -> softclip v lo hi == v) /\
  (v <= lo -> softclip v lo hi == lo) /\
  (lo <= hi -> hi <= v -> softclip v lo hi == hi) /\
  (hi < lo -> softclip v lo hi = lo).
Proof.
  split; [apply softclip_bounds|].
  split; [apply softclip_inside|].
  unfold softclip.
  destruct (py_min_cases hi v) as [[H1 E1]|[H1 E1]]; rewrite E1;
    match goal with |- context [py_max ?l ?p] =>
      destruct (py_max_cases l p) as [[H2 E2]|[H2 E2]]; rewrite E2
    end; repeat split; intros; try reflexivity; lra.
Qed.

(** A value above the interval, and crossed bounds. *)
Lemma softclip_clamps_witness :
  softclip 7 0 1 == 1 /\ softclip 7 3 1 = 3.
Proof.
  split.
  - apply (proj1 (proj2 (proj2 (proj2 (softclip_clamps 7 0 1))))); lra.
  - apply (proj2 (proj2 (proj2 (proj2 (softclip_clamps 7 3 1))))). lra.
Defined.


End SoftclipProps.

(* ------------------------------------------------------------------ *)
(** ** route: the score is monotone *)

Section RouteScoreProps.

Open Scope Q_scope.
Open Scope string_scope.





End RouteScoreProps.

(* ------------------------------------------------------------------ *)
(** ** route: the closer of two candidates *)

Section RouteCloser.

Open Scope Q_scope.
Open Scope string_scope.




(** Two candidates alike in everything, distance included: the scores
    are equal and the first key is returned, whichever it is. *)
Example route_equal_distance_first :
  route [("C", mkStats (Some (-60)) (Some 0.1) (Some 2%Z) (Some 3));
         ("B", mkStats (Some (-60)) (Some 0.1) (Some 2%Z) (Some 3))]
        ctx_empty msg_debris = Returned (Some "C") /\
  route [("B", mkStats (Some (-60)) (Some 0.1) (Some 2%Z) (Some 3));
         ("C", mkStats (Some (-60)) (Some 0.1) (Some 2%Z) (Some 3))]
        ctx_empty msg_debris = Returned (Some "B").
Proof.
  split; vm_compute; reflexivity.
Qed.

End RouteCloser.

(* ------------------------------------------------------------------ *)
(** ** route over binary64 *)

Section RouteBinary64.

Import PrimFloat.
Import B64.
Open Scope string_scope.

(** The binary64 loop over two candidates whose scores are computed
    follows the same rule. *)
Lemma route64_two (n1 n2 : string) (st1 st2 : Stats64) (p s1 s2 : float) :
  route_score64 st1 p = Returned s1 ->
  route_score64 st2 p = Returned s2 ->
  (-1e9 <? s1)%float = true ->
  route64 [(n1, st1); (n2, st2)] p
  = Returned (Some (if (s1 <? s2)%float then n2 else n1)).
Proof.
  intros H1 H2 Hfloor.
  unfold route64. cbn [route_loop64]. rewrite H1, H2. cbn [bind].
  rewrite Hfloor. now destruct (s1 <? s2)%float.
Qed.


(** The same at everyday distances, 50 and 50.00000000000001; with the
    closer candidate first, it is the one returned. *)
Example route_closer_tied_nearby :
  (50 <? 50.00000000000001)%float = true /\
  route64 [("C", stats64_at 50.00000000000001); ("B", stats64_at 50)] 0.5
  = Returned (Some "C") /\
  route64 [("B", stats64_at 50); ("C", stats64_at 50.00000000000001)] 0.5
  = Returned (Some "B").
Proof.
  split; [reflexivity|].
  split; vm_compute; reflexivity.
Qed.

End RouteBinary64.

(* ------------------------------------------------------------------ *)
(** ** anomaly_score at saturation *)

Section AnomalySaturates.

Open Scope Q_scope.
Open Scope string_scope.

(** On exact values: with non-negative inbound and outbound counts the
    score is 1 as soon as 0.6 times the failure count reaches
    [max(1, attempts)] times the elapsed time (floored at 0.001). *)
Lemma anomaly_score_values_saturate (self : LMLModel) (ctx : NetCtx)
      (now : Q) :
  0 <= get (ctx_in_count ctx) 0 ->
  0 <= get (ctx_out_count ctx) 0 ->
  py_max 1.0 (get (ctx_attempts ctx) 1)
  * py_max 0.001 (now - _last_tick self)
  <= 0.6 * get (ctx_fail_count ctx) 0 ->
  exists s : Q,
    anomaly_score self ctx now = Returned (s, mkLMLModel (node_id self) now)
    /\ s == 1.
Proof.
  intros Hin Hout Hf. unfold anomaly_score.
  destruct (py_max_lb 0.001 (now - _last_tick self)) as [Hdt _].
  set (dt := py_max 0.001 (now - _last_tick self)) in *.
  assert (Hdt0 : 0 < dt) by lra.
  destruct (py_max_lb 1.0 (get (ctx_attempts ctx) 1)) as [Hatt _].
  set (att := py_max 1.0 (get (ctx_attempts ctx) 1)) in *.
  rewrite !(py_div_pos _ dt Hdt0). cbn [bind].
  rewrite (py_div_pos _ att) by lra. cbn [bind].
  rewrite (py_div_pos _ dt Hdt0). cbn [bind].
  pose proof (Qdiv_nonneg _ _ Hin Hdt0) as Hir.
  pose proof (Qdiv_nonneg _ _ Hout Hdt0) as Hor.
  clearbody dt att.
  set (ir := get (ctx_in_count ctx) 0 / dt) in *.
  set (orate := get (ctx_out_count ctx) 0 / dt) in *.
  clearbody ir orate.
  rewrite py_div_pos by lra. cbn [bind].
  eexists. split; [reflexivity|].
  assert (F : 1 <= 0.6 * (get (ctx_fail_count ctx) 0 / att / dt)).
  { set (f := get (ctx_fail_count ctx) 0) in *. clearbody f.
    assert (E : 0.6 * (f / att / dt) == (0.6 * f) / (att * dt))
      by (field; split; lra).
    rewrite E. apply Qle_shift_div_l; [|lra].
    apply Qmult_lt_0_compat; lra. }
  match goal with |- softclip (_ + 0.3 * ?qt + ?imb) _ _ == 1 =>
    assert (Hq : 0 <= qt)
      by (match qt with softclip ?v ?l ?h =>
            destruct (softclip_bounds v l h); [lra|lra] end);
    assert (Hi : 0 <= imb)
      by (apply Qdiv_nonneg; [pose proof (py_abs_nonneg (ir - orate)); lra
                             | lra]);
    set (qterm := qt) in *; set (imbal := imb) in *
  end.
  clearbody qterm imbal.
  set (fr := 0.6 * (get (ctx_fail_count ctx) 0 / att / dt)) in *.
  clearbody fr.
  unfold softclip.
  destruct (py_min_cases 1.0 (fr + 0.3 * qterm + imbal)) as [[H1 E1]|[H1 E1]];
    rewrite E1;
    match goal with |- py_max ?l ?p == _ =>
      destruct (py_max_cases l p) as [[H2 E2]|[H2 E2]]; rewrite E2
    end; lra.
Qed.

(** X25: with every entry a float or an int that converts, and inbound
    and outbound counts between 0 and 1e9, [anomaly_score] returns exactly
    1 once the failure rate [fail_count / max(1, attempts) / elapsed]
    (elapsed floored at 0.001) reaches 2 per second, which puts the
    failure term at 1.2 or more: at the ten-millisecond tick of [run], two
    failures in sixty attempts are enough. *)
Theorem anomaly_score_saturates (self : LMLModel) (c : NumCtx) (now : Q) :
  ctx_converts c ->
  0 <= num_value (get (num_in_count c) (PyInt 0)) <= 1000000000 ->
  0 <= num_value (get (num_out_count c) (PyInt 0)) <= 1000000000 ->
  2 * (py_max 1.0 (num_value (get (num_attempts c) (PyInt 1)))
       * py_max 0.001 (now - _last_tick self))
  <= num_value (get (num_fail_count c) (PyInt 0)) ->
  exists s : Q,
    anomaly_score_num self c now
    = Returned (s, mkLMLModel (node_id self) now)
    /\ s == 1.
Proof.
  intros Hc [Hin _] [Hout _] Hf.
  rewrite (anomaly_score_num_ctx self c now Hc).
  apply anomaly_score_values_saturate.
  - now rewrite ctx_values_in.
  - now rewrite ctx_values_out.
  - rewrite ctx_values_attempts, ctx_values_fail.
    destruct (py_max_lb 1.0 (num_value (get (num_attempts c) (PyInt 1))))
      as [Ha _].
    destruct (py_max_lb 0.001 (now - _last_tick self)) as [Hd _].
    set (m := py_max 1.0 _) in *. set (dt := py_max 0.001 _) in *.
    set (f := num_value _) in *. clearbody m dt f.
    assert (0 < m * dt) by (apply Qmult_lt_0_compat; lra).
    set (md := m * dt) in *. clearbody md. lra.
Qed.

(** Two failures out of sixty attempts, ten milliseconds after the last
    tick. *)
Lemma anomaly_score_saturates_witness :
  exists s : Q,
    anomaly_score_num (mkLMLModel "A" 1000) (num_ctx 0 60 58 2 60) 1000.01
    = Returned (s, mkLMLModel "A" 1000.01) /\ s == 1.
Proof.
  apply (anomaly_score_saturates
           (mkLMLModel "A" 1000) (num_ctx 0 60 58 2 60) 1000.01).
  - repeat split.
  - split; vm_compute; discriminate.
  - split; vm_compute; discriminate.
  - vm_compute. discriminate.
Defined.


End AnomalySaturates.

(* ------------------------------------------------------------------ *)
(** ** A whole tick, node by node *)

Section TickGrowth.

Open Scope Q_scope.
Open Scope string_scope.

Variable sqrt : Q -> Q.
Variable time : nat -> Q.
Variable random : nat -> Q.

Lemma grows_by_trans (k : string) (n m : nat) (w1 w2 w3 : World) :
  grows_by k n w1 w2 -> grows_by k m w2 w3 -> grows_by k (n + m) w1 w3.
Proof.
  intros H12 H23 k'.
  destruct (H12 k') as (I1 & L1 & (dl1 & D1 & N1 & Z1) & Q1).
  destruct (H23 k') as (I2 & L2 & (dl2 & D2 & N2 & Z2) & Q2).
  split; [congruence|]. split; [congruence|]. split.
  - exists (dl1 ++ dl2)%list. rewrite D2, D1, <- app_assoc.
    split; [reflexivity|]. split; [rewrite length_app; lia|].
    intro Hk. now rewrite (Z1 Hk), (Z2 Hk).
  - intro Hk. destruct (Q1 Hk) as ((ql1 & E1 & M1) & O1).
    destruct (Q2 Hk) as ((ql2 & E2 & M2) & O2).
    split; [|congruence].
    exists (ql1 ++ ql2)%list. rewrite E2, E1, <- app_assoc.
    split; [reflexivity | rewrite length_app; lia].
Qed.

Lemma grows_by_upd_local (k : string) (w : World) (n : Node) :
  Mesh.id n = Mesh.id (w k) -> links n = links (w k) ->
  _delivered n = _delivered (w k) ->
  grows_by k 0 w (upd w k n).
Proof.
  intros Hi Hl Hd k'. unfold upd. destruct (String.eqb k k') eqn:E.
  - apply String.eqb_eq in E. subst k'.
    split; [exact Hi|]. split; [exact Hl|]. split.
    + exists []. rewrite app_nil_r. repeat split; [exact Hd | reflexivity].
    + intro Hk. congruence.
  - split; [reflexivity|]. split; [reflexivity|]. split.
    + exists []. rewrite app_nil_r. repeat split; reflexivity.
    + intros _. split; [|reflexivity].
      exists []. rewrite app_nil_r. split; reflexivity.
Qed.

Lemma process_message_grows (w : World) (k : string) (msg : Message)
      (e : Env) (w' : World) (msg' : Message) (e' : Env) :
  process_message sqrt time random w k msg e = Returned (w', msg', e') ->
  grows_by k 1 w w'.
Proof.
  intros H k'. apply process_message_effect in H.
  destruct H as (Hs & Hother & Hout).
  destruct (Hs k') as (Hi & _ & _ & Hl & _).
  split; [exact Hi|]. split; [exact Hl|].
  assert (Hq : exists ql, _in_queue (w' k') = (_in_queue (w k') ++ ql)%list
                          /\ (length ql <= 1)%nat).
  { destruct Hout as [(_ & _ & _ & _ & Eq)|[(_ & _ & _ & _ & _ & _ & Eq)
                     |[(_ & _ & _ & _ & _ & Eq)
                      |(_ & _ & _ & _ & _ & nid & link & _ & Eq)]]];
      rewrite Eq; try (exists []; rewrite app_nil_r; split;
                       [reflexivity | cbn; lia]).
    destruct (String.eqb (other_end w (w k) link) k').
    - eexists. split; [reflexivity | cbn; lia].
    - exists []. rewrite app_nil_r. split; [reflexivity | cbn; lia]. }
  split.
  - destruct (string_dec k' k) as [->|Hk].
    + destruct Hout as [(_ & _ & _ & Ed & _)|[(_ & _ & _ & _ & _ & Ed & _)
                       |[(_ & _ & _ & _ & Ed & _)
                        |(_ & _ & _ & _ & Ed & _)]]]; rewrite Ed;
        try (exists []; rewrite app_nil_r;
             split; [reflexivity | split; [cbn; lia | reflexivity]]).
      eexists. split; [reflexivity|]. split; [cbn; lia | congruence].
    + destruct (Hother k' Hk) as [_ Ed]. rewrite Ed.
      exists []. rewrite app_nil_r.
      split; [reflexivity | split; [cbn; lia | reflexivity]].
  - intro Hk. split; [exact Hq | apply Hother, Hk].
Qed.

Lemma drain_grows (k : string) (n : nat) :
  forall (w : World) (e : Env) (w' : World) (e' : Env),
    drain sqrt time random n w k e = Returned (w', e') ->
    grows_by k n w w'.
Proof.
  induction n as [|n IH]; intros w e w' e' H; cbn [drain] in H.
  - injection H as <- <-. intro k'.
    split; [reflexivity|]. split; [reflexivity|]. split.
    + exists []. rewrite app_nil_r. repeat split; reflexivity.
    + intros _. split; [|reflexivity].
      exists []. rewrite app_nil_r. split; reflexivity.
  - destruct (_in_queue (w k)) as [|msg rest] eqn:Eq; [discriminate|].
    set (wa0 := upd w k (set_in_queue (w k) rest)) in *.
    set (wa := upd wa0 k (set_out_stats (wa0 k)
                            (incr_in_count (_out_stats (wa0 k))))) in *.
    destruct (process_message sqrt time random wa k msg e)
      as [[[wb msg'] eb]|err] eqn:Hp; cbn [bind] in H; [|discriminate].
    assert (G0 : grows_by k 0 w wa0)
      by (apply grows_by_upd_local; reflexivity).
    assert (G1 : grows_by k 0 wa0 wa)
      by (apply grows_by_upd_local; reflexivity).
    pose proof (process_message_grows _ _ _ _ _ _ _ Hp) as G2.
    pose proof (IH _ _ _ _ H) as G3.
    pose proof (grows_by_trans _ _ _ _ _ _
                  (grows_by_trans _ _ _ _ _ _
                     (grows_by_trans _ _ _ _ _ _ G0 G1) G2) G3) as G.
    exact G.
Qed.

(** X26: whenever one tick of [run] at a node returns, every node keeps
    its id and links, every delivered sink is the old one followed by at
    most five messages (none at the other nodes), and at every other node
    the queue is the old queue followed by at most five messages and the
    counters are untouched. *)
Theorem run_tick_append_only (w : World) (k : string) (e : Env)
        (w' : World) (e' : Env) :
  run_tick sqrt time random w k e = Returned (w', e') ->
  grows_by k 5 w w'.
Proof.
  unfold run_tick. intro H.
  set (w0 := upd w k (set_out_stats
                        (w k)
                        (set_queue_len (_out_stats (w k))
                           (Z.of_nat (length (_in_queue (w k))))))) in *.
  destruct (drain sqrt time random
                  (Nat.min 5 (length (_in_queue (w k)))) w0 k e)
    as [[w1 e1]|err] eqn:Hd; cbn [bind] in H; [|discriminate].
  destruct (anomaly_score (model (w1 k)) (stats_ctx (_out_stats (w1 k)))
                          (time (clock_reads e1)))
    as [[s m]|err] eqn:Ha; cbn [bind] in H; [|discriminate].
  injection H as <- <-.
  set (w2 := upd w1 k (set_model (w1 k) m)).
  assert (G0 : grows_by k 0 w w0)
    by (apply grows_by_upd_local; reflexivity).
  pose proof (drain_grows _ _ _ _ _ _ Hd) as G1.
  assert (G2 : grows_by k 0 w1 w2)
    by (apply grows_by_upd_local; reflexivity).
  assert (G3 : grows_by k 0 w2
                        (upd w2 k (set_out_stats (w2 k)
                                                 (decay (_out_stats (w2 k))))))
    by (apply grows_by_upd_local; reflexivity).
  pose proof (grows_by_trans _ _ _ _ _ _
                (grows_by_trans _ _ _ _ _ _
                   (grows_by_trans _ _ _ _ _ _ G0 G1) G2) G3) as G.
  intro k'. destruct (G k') as (I & L & (dl & D & N & Z) & Q).
  split; [exact I|]. split; [exact L|]. split.
  - exists dl. split; [exact D|]. split; [lia | exact Z].
  - intro Hk. destruct (Q Hk) as ((ql & E & M) & O).
    split; [|exact O]. exists ql. split; [exact E | lia].
Qed.

End TickGrowth.

Section TickGrowthRuns.

Open Scope Q_scope.
Open Scope string_scope.

Lemma demo_tick_eq :
  run_tick demo_sqrt demo_time demo_random demo_busy_world "A" env0
  = Returned (fst demo_tick_after, snd demo_tick_after).
Proof.
  vm_compute. reflexivity.
Qed.

Lemma run_tick_append_only_witness :
  grows_by "A" 5 demo_busy_world (fst demo_tick_after).
Proof.
  exact (run_tick_append_only demo_sqrt demo_time demo_random
                              demo_busy_world "A" env0
                              (fst demo_tick_after) (snd demo_tick_after)
                              demo_tick_eq).
Defined.

End TickGrowthRuns.
